(** * Smart Resume Parser: a shallow embedding of the calling layer and of the
    extraction core, with the properties of the specification.

    Part I holds the definitions, one module per source file:
    - [JsNumber]       [Number::toString], and the JSON values of a response;
    - [Api]            the HTTP client [parseResume] (services/api.js);
    - [ApiWithMethod]  the later revision of the same client;
    - [App]            [handleFileSelect] and the state of App.jsx;
    - [UploadZone]     the drop and file-input handlers;
    - [PDFViewer]      the page and zoom controls;
    - [JsString]       [split] and [trim] on strings held as UTF-8 bytes;
    - [ResumeForm]     the edit handlers, over a heap of JavaScript objects;
    - [Core]           the extraction pipeline, modelled from the
                       specification.

    Part II holds the theorems of the specification's claims, component by
    component; Part III further properties of the calling layer. *)

From Stdlib Require Import ZArith Lia Bool Floats Ascii.
From stdpp Require Import gmap strings list pretty relations.

Local Open Scope string_scope.
#[local] Set Warnings "-inexact-float,-register-all".

(* ===================================================================== *)
(** * Part I. Definitions                                                 *)
(* ===================================================================== *)

(** ** JavaScript values shared by the components *)

(** A browser [File]: the three fields the code reads or forwards. *)
Record File := mkFile {
  file_name : string;
  file_type : string;     (* the MIME type, [files[0].type] *)
  file_size : N
}.

(** The value of the [<select>] in the settings panel: ['regex'] or ['llm']. *)
Inductive Method := regex | llm.

(** JS truthiness of a value that is a string, [null] or [undefined]. *)
Definition truthy (v : option string) : bool :=
  match v with
  | Some s => negb (String.eqb s "")
  | None => false
  end.

(** [a || b] on such values. *)
Definition js_or (a b : option string) : option string :=
  if truthy a then a else b.

(** [hay.includes(needle)]. *)
Definition includes (hay needle : string) : bool :=
  match String.index 0 needle hay with
  | Some _ => true
  | None => false
  end.

(** ** The response schema of the parse endpoint (section 6 of the
    specification), as the JS code sees it: any key may be missing or null. *)
Record ContactInfo := mkContact {
  first_name : option string;
  last_name : option string;
  email : option string;
  phone : option string;
  city : option string;
  state : option string
}.

Record EducationEntry := mkEducation {
  degree : string;
  field_of_study : string;
  institution : string;
  graduation_year : string
}.

Record ExperienceEntry := mkExperience {
  job_title : string;
  company : string;
  start_date : string;
  end_date : option string;
  description : list string
}.

Record ParseResponse := mkResponse {
  contact : option ContactInfo;
  education : option (list EducationEntry);
  work_experience : option (list ExperienceEntry);
  skills : option (list string)
}.

(** ** Numbers as text

    [Number::toString] of ECMAScript for radix 10, which a template literal
    and [new Error(x)] apply to a number: the shortest decimal that reads
    back as the same double, laid out plainly or with an exponent. A double
    is taken apart by [Prim2SF] into the integers [m] and [e] of
    [m * 2^e]. *)
Module JsNumber.

(** A non-negative rational, as numerator and positive denominator. *)
Definition Q2 : Type := Z * Z.
Definition qmul (a b : Q2) : Q2 := (a.1 * b.1, a.2 * b.2)%Z.
Definition qsub (a b : Q2) : Q2 := (a.1 * b.2 - b.1 * a.2, a.2 * b.2)%Z.
Definition qle (a b : Q2) : bool := (a.1 * b.2 <=? b.1 * a.2)%Z.
Definition qlt (a b : Q2) : bool := (a.1 * b.2 <? b.1 * a.2)%Z.
Definition pow (b n : Z) : Q2 :=
  if (0 <=? n)%Z then (b ^ n, 1)%Z else (1, b ^ (- n))%Z.

(** The [k] decimal digits of [s], for [s < 10^k]. *)
Fixpoint digits (k : nat) (s : Z) : string :=
  match k with
  | O => ""
  | S k' => digits k' (s / 10) +:+ String (ascii_of_nat (48 + Z.to_nat (s mod 10))) ""
  end.

(** The least [n], from [n] on, with [x < 10^n]. *)
Fixpoint decade (fuel : nat) (x : Q2) (n : Z) : Z :=
  match fuel with
  | O => n
  | S fuel' => if qlt x (pow 10 n) then n else decade fuel' x (n + 1)
  end.

(** The reals that round to the double [m * 2^e] lie between the midpoints
    to its neighbours; the midpoints themselves do when [m] is even. *)
Definition rounds_to (m e : Z) (v : Q2) : bool :=
  let high := qmul (2 * m + 1, 1)%Z (pow 2 (e - 1)) in
  let low :=
    if (m =? 2 ^ 52)%Z && (-1074 <? e)%Z then qmul (4 * m - 1, 1)%Z (pow 2 (e - 2))
    else qmul (2 * m - 1, 1)%Z (pow 2 (e - 1)) in
  if Z.even m then qle low v && qle v high else qlt low v && qlt v high.

(** Step 5 of Number::toString: the least [k] and the [s] of [k] digits with
    [s * 10^(n-k)] rounding to the number, the closest such [s] (the even
    one of two); [k] runs from [k] to 17. *)
Fixpoint shortest (fuel : nat) (m e n : Z) (k : nat) : nat * Z :=
  let x := qmul (m, 1%Z) (pow 2 e) in
  let unit := pow 10 (n - Z.of_nat k) in
  let lo := ((x.1 * unit.2) / (x.2 * unit.1))%Z in
  let hi := (lo + 1)%Z in
  let v s := qmul (s, 1%Z) unit in
  let pick :=
    match rounds_to m e (v lo), rounds_to m e (v hi) with
    | true, false => Some lo
    | false, true => Some hi
    | true, true =>
        let below := qsub x (v lo) in
        let above := qsub (v hi) x in
        if qlt below above then Some lo
        else if qlt above below then Some hi
        else if Z.even lo then Some lo else Some hi
    | false, false => None
    end in
  match pick, fuel with
  | Some s, _ => (k, s)
  | None, S fuel' => shortest fuel' m e n (S k)
  | None, O => (k, lo)
  end.

Definition zeros (n : Z) : string := digits (Z.to_nat n) 0.

(** Steps 6 to 10: the digits laid out by the decimal exponent [n]. *)
Definition layout (k : nat) (s n : Z) : string :=
  let ds := digits k s in
  let kz := Z.of_nat k in
  if (kz <=? n)%Z && (n <=? 21)%Z then ds +:+ zeros (n - kz)
  else if (0 <? n)%Z && (n <=? 21)%Z then
    String.substring 0 (Z.to_nat n) ds +:+ "." +:+ String.substring (Z.to_nat n) (k - Z.to_nat n) ds
  else if (-6 <? n)%Z && (n <=? 0)%Z then "0." +:+ zeros (- n) +:+ ds
  else
    let e := (n - 1)%Z in
    let exponent := (if (0 <=? e)%Z then "+" else "-") +:+ pretty (Z.to_N (Z.abs e)) in
    if (k =? 1)%nat then ds +:+ "e" +:+ exponent
    else String.substring 0 1 ds +:+ "." +:+ String.substring 1 (k - 1) ds +:+ "e" +:+ exponent.

Definition positive_toString (m e : Z) : string :=
  let x := qmul (m, 1%Z) (pow 2 e) in
  let n := decade 640 x (-324) in
  let '(k, s) := shortest 17 m e n 1 in
  if (s =? 10 ^ Z.of_nat k)%Z then layout k (10 ^ (Z.of_nat k - 1)) (n + 1)
  else layout k s n.

(** Number::toString(x), radix 10. *)
Definition toString (x : float) : string :=
  match Prim2SF x with
  | S754_nan => "NaN"
  | S754_zero _ => "0"
  | S754_infinity false => "Infinity"
  | S754_infinity true => "-Infinity"
  | S754_finite false m e => positive_toString (Z.pos m) e
  | S754_finite true m e => "-" +:+ positive_toString (Z.pos m) e
  end.

End JsNumber.

(** ** JSON values

    The body of a response as [JSON.parse] delivers it. A string is held as
    its UTF-8 bytes; of an object with a repeated key the last entry counts. *)
Inductive Json :=
| JNull
| JBool (b : bool)
| JNum (x : float)
| JStr (s : string)
| JArr (elements : list Json)
| JObj (fields : list (string * Json)).

(** The own property [key] of an object literal, if it has one. *)
Fixpoint own_property (key : string) (fields : list (string * Json)) : option Json :=
  match fields with
  | [] => None
  | (k, v) :: rest =>
      match own_property key rest with
      | Some later => Some later
      | None => if String.eqb k key then Some v else None
      end
  end.

(** [data.key] for a [data] that is not null, [None] standing for
    undefined: a primitive and an array have no such property. *)
Definition property (data : Json) (key : string) : option Json :=
  match data with
  | JObj fields => own_property key fields
  | _ => None
  end.

(** JS truthiness. *)
Definition truthy_json (v : Json) : bool :=
  match v with
  | JNull => false
  | JBool b => b
  | JNum x => negb (PrimFloat.eqb x 0 || PrimFloat.is_nan x)
  | JStr s => negb (String.eqb s "")
  | JArr _ | JObj _ => true
  end.

(** [ToString], as a template literal and [new Error(v)] apply it; [None]
    stands for the TypeError of an object that has no callable [toString]
    (a parsed object that has a key of that name shadows the inherited
    method, and [valueOf] returns the object itself). An array is joined by
    commas, null elements left empty. *)
Fixpoint ToString (v : Json) : option string :=
  match v with
  | JNull => Some "null"
  | JBool true => Some "true"
  | JBool false => Some "false"
  | JNum x => Some (JsNumber.toString x)
  | JStr s => Some s
  | JArr elements =>
      (fix join (l : list Json) : option string :=
         match l with
         | [] => Some ""
         | e :: rest =>
             let text := match e with JNull => Some "" | _ => ToString e end in
             match rest with
             | [] => text
             | _ => match text, join rest with
                    | Some t, Some r => Some (t +:+ "," +:+ r)
                    | _, _ => None
                    end
             end
         end) elements
  | JObj fields =>
      match own_property "toString" fields with
      | Some _ => None
      | None => Some "[object Object]"
      end
  end.

(** ** The HTTP exchange *)

Record Request := mkRequest {
  url : string;
  form : list (string * File);        (* the FormData entries, in order *)
  content_type : string;
  timeout : option Z                  (* axios [timeout], milliseconds *)
}.

(** How [axios.post] settles. It resolves with [response.data], an object of
    the response schema or null when the body is the JSON null. A rejection
    carries [error.response] (status and [data], any JSON value, null also
    standing for a response without data), or only [error.request] (with
    [error.code]), or neither. *)
Inductive AxiosOutcome :=
| Resolved (data : ParseResponse)
| ResolvedNull
| RejectedResponse (status : Z) (data : Json)
| RejectedRequest (code : option string)
| RejectedOther.

(** A promise's settlement: the value it returns, which may be null, or
    what it throws: an [Error] with its message, or a TypeError raised by
    the engine, whose message is the engine's own. *)
Inductive Settled (A : Type) :=
| Returned (a : A)
| ReturnedNull
| Thrown (message : string)
| ThrownTypeError.
Arguments Returned {A} a.
Arguments ReturnedNull {A}.
Arguments Thrown {A} message.
Arguments ThrownTypeError {A}.

(** [import.meta.env.VITE_API_URL || 'http://localhost:8000/api/v1'] *)
Definition API_BASE_URL (VITE_API_URL : option string) : string :=
  match js_or VITE_API_URL (Some "http://localhost:8000/api/v1") with
  | Some u => u
  | None => ""
  end.

(** ** services/api.js, first revision: [parseResume(file)] *)
Module Api.

(** The request of lines 6-14: one form entry, the fixed endpoint. *)
Definition request (env : option string) (file : File) : Request :=
  {| url := API_BASE_URL env +:+ "/resume/parse";
     form := [("file", file)];
     content_type := "multipart/form-data";
     timeout := None |}.

(** Line 19: [error.response.data.detail || 'Unknown error occurred']. *)
Definition detail_or_unknown (data : Json) : Json :=
  match property data "detail" with
  | Some detail => if truthy_json detail then detail else JStr "Unknown error occurred"
  | None => JStr "Unknown error occurred"
  end.

(** The message of the [Error] thrown in lines 17-35 for a rejection with a
    response; [None] when a TypeError is raised instead: reading [detail]
    of a null body (line 19), or converting a detail that has no string form
    (lines 23, 29, 33). *)
Definition error_message (status : Z) (data : Json) : option string :=
  match data with
  | JNull => None
  | _ =>
      let detail := detail_or_unknown data in
      if (status =? 400)%Z then (fun text => "Invalid file: " +:+ text) <$> ToString detail
      else if (status =? 413)%Z then Some "File is too large. Maximum size is 10MB."
      else if (status =? 422)%Z then ToString detail
      else if (status =? 500)%Z then Some "Server error while processing PDF. Please try again."
      else ToString detail
  end.

Definition throw (message : option string) : Settled ParseResponse :=
  match message with
  | Some text => Thrown text
  | None => ThrownTypeError
  end.

(** Lines 14-42: [return response.data], or the [catch] block. *)
Definition settle (o : AxiosOutcome) : Settled ParseResponse :=
  match o with
  | Resolved data => Returned data
  | ResolvedNull => ReturnedNull
  | RejectedResponse status data => throw (error_message status data)
  | RejectedRequest _ =>
      Thrown "Cannot connect to server. Please make sure the backend is running on http://localhost:8000"
  | RejectedOther => Thrown "An unexpected error occurred. Please try again."
  end.

(** [parseResume]: it declares the single parameter [file]. [server] is the
    far end of [axios.post]. *)
Definition parseResume (env : option string) (server : Request -> AxiosOutcome)
    (file : File) : Settled ParseResponse :=
  settle (server (request env file)).

End Api.

(** ** services/api.js, later revision: [parseResume(file, method = 'regex')] *)
Module ApiWithMethod.

Definition endpoint (env : option string) (method : Method) : string :=
  match method with
  | llm => API_BASE_URL env +:+ "/resume/parse-llm"
  | regex => API_BASE_URL env +:+ "/resume/parse"
  end.

Definition request (env : option string) (file : File) (method : Method) : Request :=
  {| url := endpoint env method;
     form := [("file", file)];
     content_type := "multipart/form-data";
     timeout := Some (match method with llm => 120000 | regex => 30000 end)%Z |}.

Definition settle (o : AxiosOutcome) : Settled ParseResponse :=
  match o with
  | Resolved data => Returned data
  | ResolvedNull => ReturnedNull
  | RejectedResponse status data => Api.throw (Api.error_message status data)
  | RejectedRequest code =>
      if bool_decide (code = Some "ECONNABORTED")
      then Thrown "Request timed out. The LLM-based parsing is taking longer than expected. Please try again or use regex-based parsing."
      else Thrown "Cannot connect to server. Please make sure the backend is running on http://localhost:8000"
  | RejectedOther => Thrown "An unexpected error occurred. Please try again."
  end.

Definition parseResume (env : option string) (server : Request -> AxiosOutcome)
    (file : File) (method : Method) : Settled ParseResponse :=
  settle (server (request env file method)).

End ApiWithMethod.

(** ** App.jsx *)
Module App.

(** The three branches of the messaging after a successful parse, named as
    the specification names the completeness classification. *)
Inductive Completeness := NONE | PARTIAL | FULL.

Inductive Toast :=
| ToastLoading (message : string)
| ToastWarning (title detail : string)            (* [toast(..., {icon})] *)
| ToastSuccess (title : string) (detail : option string)
| ToastError (title message : string)
| ToastTypeError.        (* [toast.error] showing the message of a TypeError *)

(** The four [useState] cells and the toasts shown so far, oldest first. *)
Record State := mkState {
  pdfFile : option File;
  extractedData : option ParseResponse;
  isLoading : bool;
  parsingMethod : Method;
  shown : list Toast
}.

Definition initial : State :=
  {| pdfFile := None; extractedData := None; isLoading := false;
     parsingMethod := regex; shown := [] |}.

Definition setPdfFile (v : option File) (st : State) : State :=
  {| pdfFile := v; extractedData := extractedData st; isLoading := isLoading st;
     parsingMethod := parsingMethod st; shown := shown st |}.
Definition setExtractedData (v : option ParseResponse) (st : State) : State :=
  {| pdfFile := pdfFile st; extractedData := v; isLoading := isLoading st;
     parsingMethod := parsingMethod st; shown := shown st |}.
Definition setIsLoading (v : bool) (st : State) : State :=
  {| pdfFile := pdfFile st; extractedData := extractedData st; isLoading := v;
     parsingMethod := parsingMethod st; shown := shown st |}.
Definition setParsingMethod (v : Method) (st : State) : State :=
  {| pdfFile := pdfFile st; extractedData := extractedData st; isLoading := isLoading st;
     parsingMethod := v; shown := shown st |}.
Definition toast (t : Toast) (st : State) : State :=
  {| pdfFile := pdfFile st; extractedData := extractedData st; isLoading := isLoading st;
     parsingMethod := parsingMethod st; shown := shown st ++ [t] |}.

(** Lines 30-33. [result.contact?.first_name || ...] is a string or
    undefined; the other three are booleans ([undefined > 0] is false). *)
Definition hasContact (result : ParseResponse) : option string :=
  js_or (js_or (contact result ≫= first_name) (contact result ≫= email))
        (contact result ≫= phone).
Definition hasEducation (result : ParseResponse) : bool :=
  match education result with Some l => (0 <? length l)%nat | None => false end.
Definition hasExperience (result : ParseResponse) : bool :=
  match work_experience result with Some l => (0 <? length l)%nat | None => false end.
Definition hasSkills (result : ParseResponse) : bool :=
  match skills result with Some l => (0 <? length l)%nat | None => false end.

(** Line 35: [[...].filter(Boolean).length]. *)
Definition extractedCount (result : ParseResponse) : nat :=
  length (List.filter (fun b : bool => b)
            [truthy (hasContact result); hasEducation result;
             hasExperience result; hasSkills result]).

(** Lines 37-72: the branch taken, and the toast of each branch. *)
Definition completeness (result : ParseResponse) : Completeness :=
  if (extractedCount result =? 0)%nat then NONE
  else if (extractedCount result <? 3)%nat then PARTIAL
  else FULL.

Definition completeness_toast (c : Completeness) : Toast :=
  match c with
  | NONE => ToastWarning "No data extracted" "Please fill in the form manually"
  | PARTIAL => ToastSuccess "Partial data extracted"
                 (Some "Please review and fill in missing fields")
  | FULL => ToastSuccess "Resume parsed successfully!" None
  end.

(** Lines 75-85. *)
Definition errorTitle (message : string) : string :=
  let isValidationError :=
    includes message "doesn't appear to be a resume" || includes message "no extractable text" in
  let isParsingFailure :=
    includes message "Failed to parse PDF" || includes message "couldn't extract data" in
  if isValidationError then "Invalid Resume"
  else if isParsingFailure then "Extraction Failed"
  else "PDF Parsing Failed".

Definition loadingMessage (m : Method) : string :=
  match m with
  | llm => "Processing with AI... This may take a moment."
  | regex => "Processing your resume..."
  end.

(** [handleFileSelect], lines 15-103. [parse] is the imported [parseResume]
    as the call site [parseResume(file, parsingMethod)] applies it. Whatever
    is thrown inside [try], by [parseResume] or by line 30 on a null result,
    is handled by the [catch] block. The message of a TypeError is the
    engine's own wording, so the toast that shows it is kept apart as
    [ToastTypeError]. *)
Definition handleFileSelect (parse : File -> Method -> Settled ParseResponse)
    (file : File) (st : State) : State :=
  let st := setPdfFile (Some file) st in
  let st := setIsLoading true st in
  let st := toast (ToastLoading (loadingMessage (parsingMethod st))) st in
  let st :=
    match parse file (parsingMethod st) with
    | Returned result =>
        let st := setExtractedData (Some result) st in
        toast (completeness_toast (completeness result)) st
    | ReturnedNull =>
        (* line 27 stores the null; line 30 reads [result.contact] and throws *)
        let st := setExtractedData None st in
        let st := toast ToastTypeError st in
        let st := setPdfFile None st in
        setExtractedData None st
    | Thrown message =>
        let st := toast (ToastError (errorTitle message) message) st in
        let st := setPdfFile None st in
        setExtractedData None st
    | ThrownTypeError =>
        let st := toast ToastTypeError st in
        let st := setPdfFile None st in
        setExtractedData None st
    end in
  setIsLoading false st.

(** The call [parseResume(file, parsingMethod)] against the first revision of
    services/api.js: the callee binds [file] and JavaScript discards the
    surplus argument. *)
Definition call_parseResume (env : option string) (server : Request -> AxiosOutcome)
    (file : File) (method : Method) : Settled ParseResponse :=
  Api.parseResume env server file.


(** The same call against the later revision. *)
Definition call_parseResume_with_method (env : option string)
    (server : Request -> AxiosOutcome) (file : File) (method : Method)
    : Settled ParseResponse :=
  ApiWithMethod.parseResume env server file method.

End App.

(** ** The completeness rule in the words of the specification: a category
    counts when any of its fields or entries is non-empty; for contact that
    is any of the six fields. *)
Module Claimed.

Definition contact_present (result : ParseResponse) : bool :=
  match contact result with
  | Some c =>
      truthy (first_name c) || truthy (last_name c) || truthy (email c)
      || truthy (phone c) || truthy (city c) || truthy (state c)
  | None => false
  end.

Definition count (result : ParseResponse) : nat :=
  Nat.b2n (contact_present result) + Nat.b2n (App.hasEducation result)
  + Nat.b2n (App.hasExperience result) + Nat.b2n (App.hasSkills result).

Definition classification (result : ParseResponse) : App.Completeness :=
  match count result with
  | 0 => App.NONE
  | 1 | 2 => App.PARTIAL
  | _ => App.FULL
  end.

End Claimed.

(** ** Sample inputs and the reading of the code used in the statements *)
Module AppExample.

(** A response whose only non-empty field is contact.last_name. *)
Definition only_last_name : ParseResponse :=
  {| contact := Some (mkContact (Some "") (Some "Doe") (Some "") (Some "") (Some "") (Some ""));
     education := Some []; work_experience := Some []; skills := Some [] |}.

(** The contact test of App.jsx line 30 as a boolean: first_name, email or
    phone is non-empty. *)
Definition key_contact (result : ParseResponse) : bool :=
  match contact result with
  | Some c => truthy (first_name c) || truthy (email c) || truthy (phone c)
  | None => false
  end.

Definition resume_pdf : File := mkFile "resume.pdf" "application/pdf" 52345.

(** A server that answers every request with the 422 of a NOT_A_RESUME. *)
Definition not_a_resume_server (_ : Request) : AxiosOutcome :=
  RejectedResponse 422
    (JObj [("detail", JStr "This document doesn't appear to be a resume.")]).

End AppExample.

(** ** components/UploadZone.jsx *)
Module UploadZone.

Record State := mkState {
  isDragging : bool;
  isSettingsOpen : bool
}.

Definition setIsDragging (v : bool) (st : State) : State :=
  {| isDragging := v; isSettingsOpen := isSettingsOpen st |}.

(** A handler returns the next state and the calls it made to the
    [onFileSelect] prop, in order. Neither handler has a throwing path:
    [files[0]] is read only behind [files.length > 0]. *)
Definition handleDragOver (st : State) : State * list File :=
  (setIsDragging true st, []).

Definition handleDragLeave (st : State) : State * list File :=
  (setIsDragging false st, []).

(** [handleDrop], lines 119-127; [files] is [e.dataTransfer.files]. *)
Definition handleDrop (files : list File) (st : State) : State * list File :=
  let st := setIsDragging false st in
  match files !! 0 with
  | Some file0 =>
      if (0 <? length files)%nat && String.eqb (file_type file0) "application/pdf"
      then (st, [file0])
      else (st, [])
  | None => (st, [])
  end.

(** [handleFileInput], lines 129-134; [files] is [e.target.files]. *)
Definition handleFileInput (files : list File) (st : State) : State * list File :=
  match files !! 0 with
  | Some file0 => if (0 <? length files)%nat then (st, [file0]) else (st, [])
  | None => (st, [])
  end.

End UploadZone.

(** ** components/PDFViewer.jsx

    [scale] is an IEEE binary64 number, as in JavaScript; [pageNumber] and
    [numPages] only take integer values and are kept in [Z]. *)
Module PDFViewer.

Record State := mkState {
  numPages : option Z;         (* [null] until the document has loaded *)
  pageNumber : Z;
  scale : float
}.

Definition initial : State :=
  {| numPages := None; pageNumber := 1; scale := 1.0%float |}.

(** [ToNumber(null) = 0]: what [Math.min] and [>=] make of a null operand. *)
Definition ToNumber (v : option Z) : Z :=
  match v with Some n => n | None => 0 end.

(** [Math.min] and [Math.max] on numbers: NaN is contagious, and on a tie of
    zeros [-0] is the smaller. *)
Definition Math_min (a b : float) : float :=
  if PrimFloat.is_nan a || PrimFloat.is_nan b then PrimFloat.nan
  else if (a <? b)%float then a
  else if (b <? a)%float then b
  else match PrimFloat.classify a with NZero => a | _ => b end.

Definition Math_max (a b : float) : float :=
  if PrimFloat.is_nan a || PrimFloat.is_nan b then PrimFloat.nan
  else if (b <? a)%float then a
  else if (a <? b)%float then b
  else match PrimFloat.classify a with PZero => a | _ => b end.

Definition setPageNumber (f : Z -> Z) (st : State) : State :=
  {| numPages := numPages st; pageNumber := f (pageNumber st); scale := scale st |}.
Definition setScale (f : float -> float) (st : State) : State :=
  {| numPages := numPages st; pageNumber := pageNumber st; scale := f (scale st) |}.

Definition onDocumentLoadSuccess (n : Z) (st : State) : State :=
  {| numPages := Some n; pageNumber := pageNumber st; scale := scale st |}.

(** Lines 17-31. *)
Definition goToPrevPage (st : State) : State :=
  setPageNumber (fun prev => Z.max (prev - 1) 1) st.

Definition goToNextPage (st : State) : State :=
  setPageNumber (fun prev => Z.min (prev + 1) (ToNumber (numPages st))) st.

Definition zoomIn (st : State) : State :=
  setScale (fun prev => Math_min (prev + 0.2) 2.0)%float st.

Definition zoomOut (st : State) : State :=
  setScale (fun prev => Math_max (prev - 0.2) 0.6)%float st.

Inductive Control := PrevPage | NextPage | ZoomIn | ZoomOut.

Definition control (c : Control) : State -> State :=
  match c with
  | PrevPage => goToPrevPage
  | NextPage => goToNextPage
  | ZoomIn => zoomIn
  | ZoomOut => zoomOut
  end.

(** A sequence of control operations, first to last. *)
Definition run (cs : list Control) (st : State) : State :=
  fold_left (fun st c => control c st) cs st.

(** The [disabled] attribute of each button, lines 64, 74, 85 and 95. *)
Definition disabled (c : Control) (st : State) : bool :=
  match c with
  | PrevPage => (pageNumber st <=? 1)%Z
  | NextPage => (pageNumber st >=? ToNumber (numPages st))%Z
  | ZoomOut => (scale st <=? 0.6)%float
  | ZoomIn => (2.0 <=? scale st)%float
  end.

(** A click on a button: a disabled button does not fire its handler. *)
Definition click (c : Control) (st : State) : State :=
  if disabled c st then st else control c st.

Definition clicks (cs : list Control) (st : State) : State :=
  fold_left (fun st c => click c st) cs st.

Definition scale_in_range (st : State) : Prop :=
  (0.6 <=? scale st)%float = true /\ (scale st <=? 2.0)%float = true.

(** The invariant of claim C9. *)
Definition invariant (st : State) : Prop :=
  scale_in_range st
  /\ (1 <= pageNumber st)%Z
  /\ (forall n, numPages st = Some n -> (pageNumber st <= n)%Z).

(** The scales reachable from 1.0 by steps of 0.2 clamped to [0.6, 2.0],
    in binary64 arithmetic. *)
Definition reachable_scales : list float :=
  [ 0x1.3333333333333p-1; 0x1.3333333333334p-1; 0x1.3333333333336p-1;
    0x1.999999999999ap-1; 0x1.999999999999cp-1;
    0x1.0000000000000p+0; 0x1.0000000000001p+0;
    0x1.3333333333333p+0; 0x1.3333333333334p+0;
    0x1.6666666666666p+0; 0x1.6666666666667p+0;
    0x1.9999999999999p+0; 0x1.999999999999ap+0;
    0x1.cccccccccccccp+0; 0x1.ccccccccccccdp+0;
    0x1.fffffffffffffp+0; 0x1.0000000000000p+1 ]%float.

End PDFViewer.

(** ** JavaScript string methods used by the form *)
Module JsString.

(** [s.split(sep)] for a one-character separator: never an empty list. *)
Fixpoint split (sep : Ascii.ascii) (s : string) : list string :=
  match s with
  | EmptyString => [EmptyString]
  | String c rest =>
      if Ascii.eqb c sep then EmptyString :: split sep rest
      else match split sep rest with
           | tok :: toks => String c tok :: toks
           | [] => [String c EmptyString]
           end
  end.

(** A string is held as its UTF-8 bytes. [is_byte n c]: the byte [c] is [n]. *)
Definition is_byte (n : nat) (c : Ascii.ascii) : bool := (nat_of_ascii c =? n)%nat.

(** The white space [trim] strips (WhiteSpace and LineTerminator of
    ECMAScript): in one byte tab, line feed, vertical tab, form feed,
    carriage return and space, which is [Ascii.is_space]; in two bytes
    U+00A0; in three bytes U+1680, U+2000 to U+200A, U+2028, U+2029, U+202F,
    U+205F, U+3000 and U+FEFF. *)
Definition white_space2 (a b : Ascii.ascii) : bool :=
  is_byte 194 a && is_byte 160 b.

Definition white_space3 (a b c : Ascii.ascii) : bool :=
  (is_byte 225 a && is_byte 154 b && is_byte 128 c)
  || (is_byte 226 a && is_byte 128 b
      && (((128 <=? nat_of_ascii c)%nat && (nat_of_ascii c <=? 138)%nat)
          || is_byte 168 c || is_byte 169 c || is_byte 175 c))
  || (is_byte 226 a && is_byte 129 b && is_byte 159 c)
  || (is_byte 227 a && is_byte 128 b && is_byte 128 c)
  || (is_byte 239 a && is_byte 187 b && is_byte 191 c).

(** [s.trimStart()]. *)
Fixpoint trimStart (s : string) : string :=
  match s with
  | String a rest =>
      if Ascii.is_space a then trimStart rest
      else match rest with
           | String b rest2 =>
               if white_space2 a b then trimStart rest2
               else match rest2 with
                    | String c rest3 =>
                        if white_space3 a b c then trimStart rest3 else s
                    | EmptyString => s
                    end
           | EmptyString => s
           end
  | EmptyString => EmptyString
  end.

(** [s.trimEnd()] on the reversed string: the last byte comes first. *)
Fixpoint trimEndReversed (s : string) : string :=
  match s with
  | String c rest =>
      if Ascii.is_space c then trimEndReversed rest
      else match rest with
           | String b rest2 =>
               if white_space2 b c then trimEndReversed rest2
               else match rest2 with
                    | String a rest3 =>
                        if white_space3 a b c then trimEndReversed rest3 else s
                    | EmptyString => s
                    end
           | EmptyString => s
           end
  | EmptyString => EmptyString
  end.

(** [s.trim()]. *)
Definition trim (s : string) : string :=
  String.rev (trimEndReversed (String.rev (trimStart s))).

Definition nonempty (s : string) : bool := negb (String.eqb s "").

End JsString.

(** ** components/ResumeForm.jsx

    The form state and the [data] prop are JavaScript objects: what a
    variable holds is a reference, so [formData.education] and
    [data.education] can be one and the same array. The model keeps the
    objects in a heap and the handlers allocate and write there. *)
Module ResumeForm.

Abbreviation loc := nat.

(** The values of a decoded JSON response. *)
Inductive val :=
| VUndefined
| VNull
| VBool (b : bool)
| VNum (n : Z)
| VStr (s : string)
| VRef (l : loc).

(** An object is a property map; an array is a list of slots, [None] being
    a hole. *)
Inductive obj :=
| Obj (fields : gmap string val)
| Arr (elems : list (option val)).

Inductive outcome (A : Type) :=
| Val (a : A)
| TypeError.
Arguments Val {A} a.
Arguments TypeError {A}.

(** A computation reads and writes the heap and either yields a value or
    throws; the heap it leaves behind is kept in both cases. *)
Definition JS (A : Type) : Type := gmap loc obj -> outcome A * gmap loc obj.

Definition ret {A} (a : A) : JS A := fun h => (Val a, h).
Definition throw {A} : JS A := fun h => (TypeError, h).
Definition bind {A B} (m : JS A) (k : A -> JS B) : JS B :=
  fun h => match m h with
           | (Val a, h') => k a h'
           | (TypeError, h') => (TypeError, h')
           end.

Notation "'do' x <- m ; k" := (bind m (fun x => k))
  (at level 10, x name, m at level 100, k at level 200, only parsing).

(** The three heap primitives: allocation of a new object, read, and
    assignment in place. *)
Definition new (o : obj) : JS val :=
  fun h => let l := fresh (dom h) in (Val (VRef l), <[l := o]> h).
Definition deref (l : loc) : JS (option obj) :=
  fun h => (Val (h !! l), h).
Definition store (l : loc) (o : obj) : JS unit :=
  fun h => (Val tt, <[l := o]> h).

Definition truthy_val (v : val) : bool :=
  match v with
  | VUndefined | VNull => false
  | VBool b => b
  | VNum n => negb (n =? 0)%Z
  | VStr s => JsString.nonempty s
  | VRef _ => true
  end.

(** [v.key] for a key that is neither an index nor [length]. *)
Definition get (v : val) (key : string) : JS val :=
  match v with
  | VUndefined | VNull => throw
  | VRef l =>
      do o <- deref l;
      ret match o with
          | Some (Obj fs) => default VUndefined (fs !! key)
          | _ => VUndefined
          end
  | _ => ret VUndefined
  end.

(** [v?.key] *)
Definition get_opt (v : val) (key : string) : JS val :=
  match v with
  | VUndefined | VNull => ret VUndefined
  | _ => get v key
  end.

(** [v.length > 0]. An object that is no array only has a [length] if the
    response put one there; a numeric one is compared, any other is not
    greater than 0 (the schema has no such field). *)
Definition length_gt_0 (v : val) : JS bool :=
  match v with
  | VUndefined | VNull => throw
  | VStr s => ret (0 <? String.length s)%nat
  | VRef l =>
      do o <- deref l;
      ret match o with
          | Some (Arr es) => (0 <? length es)%nat
          | Some (Obj fs) =>
              match fs !! "length" with Some (VNum n) => (0 <? n)%Z | _ => false end
          | None => false
          end
  | _ => ret false
  end.

Fixpoint chars (s : string) : list val :=
  match s with
  | EmptyString => []
  | String c rest => VStr (String c EmptyString) :: chars rest
  end.

(** The own enumerable properties of an array or string, keyed by index. *)
Definition indexed (es : list (option val)) : gmap string val :=
  list_to_map (omap (fun '(i, e) => (fun v : val => (pretty i, v)) <$> e)
                 (imap pair es)).

(** [{...v}]: the properties an object spread copies. *)
Definition spread_obj (v : val) : JS (gmap string val) :=
  match v with
  | VRef l =>
      do o <- deref l;
      ret match o with
          | Some (Obj fs) => fs
          | Some (Arr es) => indexed es
          | None => ∅
          end
  | VStr s => ret (indexed (Some <$> chars s))
  | _ => ret ∅
  end.

(** [[...v]]: the elements an array spread copies; holes come out as
    [undefined], and a value that is not iterable throws. *)
Definition spread_arr (v : val) : JS (list (option val)) :=
  match v with
  | VRef l =>
      do o <- deref l;
      match o with
      | Some (Arr es) => ret ((fun e => Some (default VUndefined e)) <$> es)
      | _ => throw
      end
  | VStr s => ret (Some <$> chars s)
  | _ => throw
  end.

(** [a[index]] on an array. *)
Definition index (a : val) (i : nat) : JS val :=
  match a with
  | VRef l =>
      do o <- deref l;
      ret match o with
          | Some (Arr es) => default VUndefined (mjoin (es !! i))
          | Some (Obj fs) => default VUndefined (fs !! pretty i)
          | None => VUndefined
          end
  | VUndefined | VNull => throw
  | VStr s => ret (default VUndefined (chars s !! i))
  | _ => ret VUndefined
  end.

(** The slots of an array after [a[i] = x]: past the end the array grows,
    with holes up to [i]. *)
Definition write (es : list (option val)) (i : nat) (x : val) : list (option val) :=
  if (i <? length es)%nat then <[i := Some x]> es
  else es ++ replicate (i - length es) None ++ [Some x].

(** [a[i] = x]: an assignment in place, on the object [a] refers to. *)
Definition index_set (a : val) (i : nat) (x : val) : JS unit :=
  match a with
  | VRef l =>
      do o <- deref l;
      match o with
      | Some (Arr es) => store l (Arr (write es i x))
      | Some (Obj fs) => store l (Obj (<[pretty i := x]> fs))
      | None => ret tt
      end
  | VUndefined | VNull => throw
  | _ => throw            (* a primitive, in module (strict) code *)
  end.

(** [a.filter((_, i) => i !== index)]: a new array of the elements at the
    other positions; holes are skipped; only arrays have [filter]. *)
Definition filter_other (a : val) (i : nat) : JS val :=
  match a with
  | VRef l =>
      do o <- deref l;
      match o with
      | Some (Arr es) =>
          new (Arr (omap (fun '(j, e) =>
                            if bool_decide (j = i) then None
                            else (fun v : val => Some v) <$> e)
                      (imap pair es)))
      | _ => throw
      end
  | _ => throw
  end.

Definition fields (kvs : list (string * val)) : gmap string val := list_to_map kvs.

(** The three default entries of lines 7-10. *)
Definition default_contact : JS val :=
  new (Obj (fields [("first_name", VStr ""); ("last_name", VStr ""); ("email", VStr "");
                    ("phone", VStr ""); ("city", VStr ""); ("state", VStr "")])).

Definition default_education : JS val :=
  new (Obj (fields [("degree", VStr ""); ("field_of_study", VStr "");
                    ("institution", VStr ""); ("graduation_year", VStr "")])).

Definition default_experience : JS val :=
  do d <- new (Arr []);
  new (Obj (fields [("job_title", VStr ""); ("company", VStr ""); ("start_date", VStr "");
                    ("end_date", VStr ""); ("description", d)])).

(** [x || fallback] and [x && x.length > 0 ? x : fallback]. *)
Definition or_else (x : val) (fallback : JS val) : JS val :=
  if truthy_val x then ret x else fallback.

Definition nonempty_or (x : val) (fallback : JS val) : JS val :=
  if truthy_val x then
    do b <- length_gt_0 x;
    if b then ret x else fallback
  else fallback.

(** The object literal of lines 6-11 and again of lines 16-21. *)
Definition form_of (data : val) : JS val :=
  do c <- get_opt data "contact";
  do c <- or_else c default_contact;
  do e <- get_opt data "education";
  do e <- nonempty_or e (do x <- default_education; new (Arr [Some x]));
  do w <- get_opt data "work_experience";
  do w <- nonempty_or w (do x <- default_experience; new (Arr [Some x]));
  do s <- get_opt data "skills";
  do s <- or_else s (new (Arr []));
  new (Obj (fields [("contact", c); ("education", e); ("work_experience", w); ("skills", s)])).

(** The component state: the heap and the reference held by [formData]. *)
Record State := mkState {
  heap : gmap loc obj;
  formData : val
}.

(** [setFormData(body)]: when [body] throws, the state keeps its value. *)
Definition setFormData (body : JS val) (st : State) : State :=
  match body (heap st) with
  | (Val fd, h) => {| heap := h; formData := fd |}
  | (TypeError, h) => {| heap := h; formData := formData st |}
  end.

(** First render ([useState]) and then the effect of lines 14-23. *)
Definition mount (data : val) (h : gmap loc obj) : State :=
  let st := setFormData (form_of data) {| heap := h; formData := VUndefined |} in
  if truthy_val data then setFormData (form_of data) st else st.

(** [{ ...formData, key: v }] *)
Definition with_field (formData : val) (key : string) (v : val) : JS val :=
  do fd <- spread_obj formData;
  new (Obj (<[key := v]> fd)).

(** Lines 25-33. *)
Definition updateContact (field : string) (value : val) (formData : val) : JS val :=
  do old <- get formData "contact";
  do c <- spread_obj old;
  do contact <- new (Obj (<[field := value]> c));
  with_field formData "contact" contact.

(** Lines 35-42 and 61-68, on the array under [key]. *)
Definition updateEntry (key : string) (i : nat) (field : string) (value : val)
    (formData : val) : JS val :=
  do old <- get formData key;
  do es <- spread_arr old;
  do newEntries <- new (Arr es);
  do entry <- index newEntries i;
  do e <- spread_obj entry;
  do entry' <- new (Obj (<[field := value]> e));
  do _ <- index_set newEntries i entry';
  with_field formData key newEntries.

Definition updateEducation := updateEntry "education".
Definition updateExperience := updateEntry "work_experience".

(** Lines 44-52 and 70-78. *)
Definition addEntry (key : string) (fresh_entry : JS val) (formData : val) : JS val :=
  do old <- get formData key;
  do es <- spread_arr old;
  do x <- fresh_entry;
  do entries <- new (Arr (es ++ [Some x]));
  with_field formData key entries.

Definition addEducation := addEntry "education" default_education.
Definition addExperience := addEntry "work_experience" default_experience.

(** Lines 54-59 and 80-85. *)
Definition removeEntry (key : string) (i : nat) (formData : val) : JS val :=
  do old <- get formData key;
  do entries <- filter_other old i;
  with_field formData key entries.

Definition removeEducation := removeEntry "education".
Definition removeExperience := removeEntry "work_experience".

(** Lines 87-90. *)
Definition updateSkills (value : string) (formData : val) : JS val :=
  let skillsArray :=
    List.filter JsString.nonempty (JsString.trim <$> JsString.split ","%char value) in
  do a <- new (Arr ((fun s => Some (VStr s)) <$> skillsArray));
  with_field formData "skills" a.

(** The edits the rendered form can make: every text input passes its
    string; the description textarea passes [value.split('\n')]. *)
Inductive Edit :=
| EditContact (field value : string)
| EditEducation (i : nat) (field value : string)
| AddEducation
| RemoveEducation (i : nat)
| EditExperience (i : nat) (field value : string)
| EditDescription (i : nat) (text : string)
| AddExperience
| RemoveExperience (i : nat)
| EditSkills (value : string).

Definition handler (e : Edit) (formData : val) : JS val :=
  match e with
  | EditContact field value => updateContact field (VStr value) formData
  | EditEducation i field value => updateEducation i field (VStr value) formData
  | AddEducation => addEducation formData
  | RemoveEducation i => removeEducation i formData
  | EditExperience i field value => updateExperience i field (VStr value) formData
  | EditDescription i text =>
      do lines <- new (Arr ((fun s => Some (VStr s)) <$> JsString.split "010"%char text));
      updateExperience i "description" lines formData
  | AddExperience => addExperience formData
  | RemoveExperience i => removeExperience i formData
  | EditSkills value => updateSkills value formData
  end.

Definition edit (e : Edit) (st : State) : State :=
  setFormData (handler e (formData st)) st.

Definition edits (es : list Edit) (st : State) : State :=
  fold_left (fun st e => edit e st) es st.

(** With [h0] the heap at the moment the prop is handed over: [m] keeps
    every object of [h0] as it is, and its result satisfies [Q]. *)
Definition preserves (h0 : gmap loc obj) {A} (m : JS A) (Q : A -> Prop) : Prop :=
  forall h, h0 ⊆ h ->
    h0 ⊆ (m h).2 /\ match (m h).1 with Val a => Q a | TypeError => True end.

(** A reference to an object allocated after [h0] was taken. *)
Definition fresh_ref (h0 : gmap loc obj) (v : val) : Prop :=
  exists l, v = VRef l /\ h0 !! l = None.

Definition any {A} (_ : A) : Prop := True.

End ResumeForm.

(** A parsed response laid out in the heap, with [data] at location 0. *)
Module ParsedExample.

Import ResumeForm.

Definition parsed_heap : gmap nat obj :=
  list_to_map
    [ (0, Obj (fields [("contact", VRef 1); ("education", VRef 2);
                       ("work_experience", VRef 4); ("skills", VRef 6)]));
      (1, Obj (fields [("first_name", VStr "John"); ("last_name", VStr "Doe");
                       ("email", VStr "john@example.com"); ("phone", VStr "555-123-4567");
                       ("city", VStr ""); ("state", VStr "")]));
      (2, Arr [Some (VRef 3)]);
      (3, Obj (fields [("degree", VStr "BS"); ("field_of_study", VStr "Computer Science");
                       ("institution", VStr "MIT"); ("graduation_year", VStr "2020")]));
      (4, Arr [Some (VRef 5)]);
      (5, Obj (fields [("job_title", VStr "Software Engineer"); ("company", VStr "Acme Inc");
                       ("start_date", VStr "2021-01"); ("end_date", VNull);
                       ("description", VRef 7)]));
      (6, Arr [Some (VStr "Python"); Some (VStr "Go")]);
      (7, Arr [Some (VStr "Built things")]) ].

Definition parsed_data : val := VRef 0.

Definition session : list Edit :=
  [ EditEducation 0 "degree" "MS"; EditContact "city" "Boston"; AddEducation;
    RemoveExperience 0; EditDescription 0 "Led a team"; EditSkills "Rust, Go , ,";
    RemoveEducation 0; AddExperience; EditExperience 3 "company" "Initech" ].

(** [v.key] and [v[i]] as plain reads of a state. *)
Definition read (st : State) (v : val) (key : string) : outcome val :=
  (get v key (heap st)).1.
Definition read_at (st : State) (v : val) (i : nat) : outcome val :=
  (index v i (heap st)).1.

End ParsedExample.

(** * The extraction core

    The extraction pipeline (the backend services: text normalisation,
    section detection, the four extractors, the scorer, the orchestrator) is
    not among the source files at hand; only its caller, the frontend, is.
    The definitions of [Core] are therefore modelled from the specification.
    Text is a sequence of bytes and the letters of the character classes are
    the ASCII ones; the case mapping of the case-insensitive comparisons and
    the stoplist of the skills are parameters, kept with the pattern tables. *)
Module Core.

(** Modelled from the spec: the character classes the components of
    section 4 speak of (alphabetic, lowercase, digit); the source is missing. *)
Definition in_range (lo hi : nat) (c : Ascii.ascii) : bool :=
  (lo <=? nat_of_ascii c)%nat && (nat_of_ascii c <=? hi)%nat.
(** Modelled from the spec: an uppercase letter; the source is missing. *)
Definition is_upper : Ascii.ascii -> bool := in_range 65 90.
(** Modelled from the spec: "starts lowercase" (4.1); the source is missing. *)
Definition is_lower : Ascii.ascii -> bool := in_range 97 122.
(** Modelled from the spec: a digit of the "4-digit pattern" (4.4); the source is
    missing. *)
Definition is_digit : Ascii.ascii -> bool := in_range 48 57.
(** Modelled from the spec: "alphabetic characters" (4.1); the source is missing. *)
Definition is_alpha (c : Ascii.ascii) : bool := is_upper c || is_lower c.
(** Modelled from the spec: white space other than the line break, which
    normalization preserves (4.1); the source is missing. *)
Definition is_blank (c : Ascii.ascii) : bool :=
  Ascii.is_space c && negb (Ascii.eqb c "010").

(** Modelled from the spec: every character is of a class, as in "bare
    punctuation" or "whitespace-only"; the source is missing. *)
Fixpoint all_chars (p : Ascii.ascii -> bool) (s : string) : bool :=
  match s with
  | EmptyString => true
  | String c rest => p c && all_chars p rest
  end.
(** Modelled from the spec: some character is of a class, as in "contains no
    alphabetic characters"; the source is missing. *)
Fixpoint some_char (p : Ascii.ascii -> bool) (s : string) : bool :=
  match s with
  | EmptyString => false
  | String c rest => p c || some_char p rest
  end.

(** Modelled from the spec: splitting text at the characters of a class,
    used for lines (4.2) and skill tokens (4.6); the source is missing. *)
Fixpoint split_by (is_sep : Ascii.ascii -> bool) (s : string) : list string :=
  match s with
  | EmptyString => [EmptyString]
  | String c rest =>
      if is_sep c then EmptyString :: split_by is_sep rest
      else match split_by is_sep rest with
           | tok :: toks => String c tok :: toks
           | [] => [String c EmptyString]
           end
  end.
(** Modelled from the spec: the lines the detector scans "line by line" (4.2);
    the source is missing. *)
Definition lines (text : string) : list string :=
  split_by (fun c => Ascii.eqb c "010") text.
(** Modelled from the spec: the text of a span of lines, joined by line breaks;
    the source is missing. *)
Definition unlines (ls : list string) : string :=
  String.concat (String "010" EmptyString) ls.

(** Modelled from the spec: "Each token is trimmed" (4.6) and the test for
    a blank line (4.4): white space removed at both ends; the source is
    missing. *)
Definition trim (s : string) : string := JsString.trim s.

(** ** 4.6 SkillsExtractor *)

(** Modelled from the spec: "Tokenizes the SKILLS section by comma, bullet
    marker, or newline"; the source (skills_extractor) is missing. Which
    characters mark a bullet is left to the pattern tables. *)
Definition tokenize (is_bullet : Ascii.ascii -> bool) (section : string) : list string :=
  split_by (fun c => Ascii.eqb c "," || Ascii.eqb c "010" || is_bullet c) section.

(** Modelled from the spec: "Tokens are deduplicated case-insensitively,
    keeping first-seen casing and original order"; the source is missing.
    Two tokens are equal case-insensitively when [fold] gives them the same
    form; which case mapping that is the specification leaves open, so it is
    a parameter. [seen] is the set of folded tokens kept so far. *)
Fixpoint dedupe (fold : string -> string) (seen : gset string) (tokens : list string)
    : list string :=
  match tokens with
  | [] => []
  | t :: rest =>
      if decide (fold t ∈ seen) then dedupe fold seen rest
      else t :: dedupe fold ({[fold t]} ∪ seen) rest
  end.

(** Modelled from the spec: the optional canonicalization, "maps a token to
    a preferred form only on an exact case-insensitive dictionary hit ...;
    non-matching tokens pass through unchanged"; the source is missing. The
    dictionary is keyed by folded token; an empty one switches the step
    off. *)
Definition canonical (fold : string -> string) (dictionary : gmap string string)
    (token : string) : string :=
  default token (dictionary !! fold token).

(** Modelled from the spec: the token stream of section 4.6, "Each token is
    trimmed and filtered against a stoplist (empty strings, bare
    punctuation)"; the source is missing. [stopped] answers whether a token
    is on the stoplist. *)
Definition skill_tokens (stopped : string -> bool) (is_bullet : Ascii.ascii -> bool)
    (section : string) : list string :=
  List.filter (fun t => negb (stopped t)) (trim <$> tokenize is_bullet section).

(** Modelled from the spec: the SkillsExtractor of section 4.6, its steps in
    the order the section lists them: tokenize, trim and filter, deduplicate,
    and then the optional canonicalization; the source is missing. *)
Definition SkillsExtractor (fold : string -> string) (stopped : string -> bool)
    (is_bullet : Ascii.ascii -> bool) (dictionary : gmap string string)
    (section : string) : list string :=
  canonical fold dictionary <$> dedupe fold ∅ (skill_tokens stopped is_bullet section).

(** ** 4.4 EducationExtractor: graduation_year *)

(** Modelled from the spec: the non-fatal kinds of the taxonomy of section 7;
    the source (exceptions) is missing. *)
Inductive WarningKind :=
| SECTION_DETECTION_FAILURE
| FIELD_EXTRACTION_GAP (field : string)
| LLM_TIMEOUT
| LLM_MALFORMED_RESPONSE.

(** Modelled from the spec: "graduation_year via a 4-digit pattern": the
    leftmost four consecutive digits of the entry; the source
    (education_extractor) is missing. *)
Definition four_digits (s : string) : option string :=
  match s with
  | String a (String b (String c (String d _))) =>
      if is_digit a && is_digit b && is_digit c && is_digit d
      then Some (String a (String b (String c (String d EmptyString))))
      else None
  | _ => None
  end.
(** Modelled from the spec: the leftmost match of the 4-digit pattern in an
    entry; the source is missing. *)
Fixpoint match_year (entry : string) : option string :=
  match four_digits entry with
  | Some y => Some y
  | None => match entry with
            | String _ rest => match_year rest
            | EmptyString => None
            end
  end.

(** Modelled from the spec: the value of a digit; the source is missing. *)
Definition digit_value (c : Ascii.ascii) : Z := Z.of_nat (nat_of_ascii c) - 48.
(** Modelled from the spec: the number a string of digits denotes, read left to
    right; the source is missing. *)
Fixpoint number_from (acc : Z) (s : string) : Z :=
  match s with
  | EmptyString => acc
  | String c rest => number_from (10 * acc + digit_value c) rest
  end.
(** Modelled from the spec: the year a matched string denotes, for the range
    test of 4.4; the source is missing. *)
Definition year_value (y : string) : Z := number_from 0 y.

(** Modelled from the spec: "accepted only if in range [1950, current_year +
    10] — values outside range are discarded (field left empty, warning
    recorded), never silently corrected"; the source is missing. An entry
    with no four digits is a gap like any other (section 7). *)
Definition plausible_year (current_year : Z) (y : Z) : bool :=
  (1950 <=? y)%Z && (y <=? current_year + 10)%Z.

(** Modelled from the spec: the graduation_year of an entry with its warnings:
    the matched digits when plausible, the empty string and a
    FIELD_EXTRACTION_GAP otherwise; the source is missing. *)
Definition graduation_year_of (current_year : Z) (entry : string)
    : string * list WarningKind :=
  match match_year entry with
  | Some y =>
      if plausible_year current_year (year_value y) then (y, [])
      else ("", [FIELD_EXTRACTION_GAP "graduation_year"])
  | None => ("", [FIELD_EXTRACTION_GAP "graduation_year"])
  end.

(** ** 4.1 TextNormalizer *)

(** Modelled from the spec: "a trailing hyphen followed by a line break is
    removed and lines joined when the following line starts lowercase"; the
    source (text_utils) is missing. [wrapped rest] looks past a hyphen. *)
Definition wrapped (rest : string) : bool :=
  match rest with
  | String nl (String c _) => Ascii.eqb nl "010" && is_lower c
  | _ => false
  end.
(** Modelled from the spec: the reversal of hyphenation at line wraps (4.1);
    the source is missing. *)
Fixpoint dehyphenate (s : string) : string :=
  match s with
  | EmptyString => EmptyString
  | String c rest =>
      if Ascii.eqb c "-" && wrapped rest
      then match rest with
           | String _ rest' => dehyphenate rest'
           | EmptyString => EmptyString
           end
      else String c (dehyphenate rest)
  end.

(** Modelled from the spec: "preserving line breaks ... while collapsing
    runs of whitespace": a run of blanks becomes one space, a line break
    stays; the source is missing. *)
Fixpoint collapse (after_blank : bool) (s : string) : string :=
  match s with
  | EmptyString => EmptyString
  | String c rest =>
      if is_blank c
      then if after_blank then collapse true rest else String " " (collapse true rest)
      else String c (collapse false rest)
  end.
(** Modelled from the spec: the normalized text of 4.1: dehyphenated, then
    white space collapsed; the source is missing. *)
Definition normalize (raw : string) : string := collapse false (dehyphenate raw).

(** Modelled from the spec: the fatal kinds of the taxonomy of section 7; the
    source (exceptions) is missing. *)
Inductive FatalKind := INVALID_INPUT | NOT_A_RESUME | UNEXPECTED.

(** Modelled from the spec: "Fails with INVALID_INPUT if the input is empty
    or contains no alphabetic characters after normalization"; the source is
    missing. *)
Definition TextNormalizer (raw : string) : FatalKind + string :=
  let text := normalize raw in
  if String.eqb raw "" || negb (some_char is_alpha text) then inl INVALID_INPUT
  else inr text.

(** ** Section 3: the data model *)

(** Modelled from the spec: Section.type of the data model (section 3); the
    source is missing. *)
Inductive SectionType := CONTACT | EDUCATION | EXPERIENCE | SKILLS | OTHER.

Global Instance SectionType_eq_dec : EqDecision SectionType.
Proof. solve_decision. Defined.

(** Modelled from the spec: the entity Section of the data model; offsets
    count lines, and the text is kept as the heading line (if the section
    has one) and the lines under it; the source (section_detector) is
    missing. *)
Record Span := mkSpan {
  span_type : SectionType;
  start_offset : nat;
  end_offset : nat;
  span_heading : option string;
  span_lines : list string
}.

(** Modelled from the spec: the pattern tiers of 4.7 (strict, loose, heuristic)
    and the flat high confidence of 4.8; the source is missing. *)
Inductive Tier := STRICT | LOOSE | HEURISTIC | FLAT_HIGH.
(** Modelled from the spec: the completeness classification of section 3; the
    source is missing. *)
Inductive Completeness := NONE | PARTIAL | FULL.

(** Modelled from the spec: the output schema of section 6, "absent data is
    represented as empty string/array"; the source (models) is missing. *)
Record Contact := mkContact {
  first_name : string; last_name : string; email : string;
  phone : string; city : string; state : string
}.
(** Modelled from the spec: EducationEntry (sections 3 and 6); the source is
    missing. *)
Record Education := mkEducation {
  degree : string; field_of_study : string; institution : string;
  graduation_year : string
}.
(** Modelled from the spec: ExperienceEntry (sections 3 and 6), a null end_date
    meaning "present"; the source is missing. *)
Record Experience := mkExperience {
  job_title : string; company : string; start_date : string;
  end_date : option string; description : list string
}.

(** Modelled from the spec: the "complete (possibly empty) value" the EXTRACTING
    stage hands to SCORING (4.9): the four categories and the tier of each
    field found; the source is missing. *)
Record Extracted := mkExtracted {
  x_contact : Contact;
  x_education : list Education;
  x_experience : list Experience;
  x_skills : list string;
  x_tiers : list (string * Tier)
}.

(** Modelled from the spec: ParseResult (section 3); the source is missing. *)
Record ParseResult := mkResult {
  contact : Contact;
  education : list Education;
  work_experience : list Experience;
  skills : list string;
  confidence : list (string * nat);          (* per field, in percent *)
  extraction_method : Method;
  warnings : list WarningKind;
  completeness : Completeness
}.

(** Modelled from the spec: the ordered, first-match-wins pattern tables of
    sections 4.2 to 4.6 and 9, whose concrete patterns and weights the
    specification leaves open; a matcher answers with the matched text. The
    extractor of 4.5 and the schema check of 4.8 are taken whole.
    [case_fold] is the case mapping under which the headings of 4.2 and the
    tokens of 4.6 are compared "case-insensitively", [stoplist] the test
    for a token of the stoplist of 4.6. *)
Record Patterns := mkPatterns {
  case_fold : string -> string;
  heading_rules : list ((string -> bool) * SectionType);
  email_rules : list ((string -> option string) * Tier);
  phone_rules : list ((string -> option string) * Tier);
  name_heuristic : list string -> option (string * string);
  city_state_rule : string -> option (string * string);
  entry_heading : string -> bool;
  degree_rules : list ((string -> option string) * Tier);
  field_of_study_rule : string -> option string;
  institution_heuristic : string -> option string;
  experience_extractor : list string -> list Experience * list (string * Tier) * list WarningKind;
  stoplist : string -> bool;
  bullet : Ascii.ascii -> bool;
  dictionary : gmap string string;
  tier_weight : Tier -> nat;
  schema_parse : string -> option Extracted
}.

(** Modelled from the spec: the configuration "passed as an explicit
    configuration value into the pipeline at construction time" (section 9);
    the source (config) is missing. The year of 4.4 is no part of it: it is
    what the clock shows when the pipeline is invoked, and the definitions
    below take it as [current_year]. *)
Record Config := mkConfig {
  patterns : Patterns
}.

(** Modelled from the spec: "Pattern tiers, evaluated in order, first match wins
    per field" (4.3, section 9); the source is missing. *)
Fixpoint first_match {T} (table : list ((string -> option string) * T)) (text : string)
    : option (string * T) :=
  match table with
  | [] => None
  | (matcher, target) :: rest =>
      match matcher text with
      | Some found => Some (found, target)
      | None => first_match rest text
      end
  end.

(** ** 4.2 SectionDetector *)

(** Modelled from the spec: "an ordered table of (heading pattern,
    Section.type) rules (case-insensitive ...)"; the source is missing. *)
Fixpoint heading_in (fold : string -> string)
    (rules : list ((string -> bool) * SectionType)) (line : string)
    : option SectionType :=
  match rules with
  | [] => None
  | (matches, ty) :: rest =>
      if matches (fold line) then Some ty else heading_in fold rest line
  end.
(** Modelled from the spec: the section type a heading line announces under the
    table of the configuration; the source is missing. *)
Definition heading_of (P : Patterns) : string -> option SectionType :=
  heading_in (case_fold P) (heading_rules P).

(** Modelled from the spec: "A matched heading line starts a new Section;
    all subsequent lines belong to it until the next heading match or end of
    document. Lines before the first recognized heading are assigned to
    CONTACT"; the source is missing. [acc] holds the lines under the heading
    of the open section, last first, and [start] its first line. *)
Fixpoint scan (P : Patterns) (cur : SectionType) (heading : option string) (start : nat)
    (acc : list string) (ls : list string) : list Span :=
  let stop := (start + length (option_list heading) + length acc)%nat in
  let close := mkSpan cur start stop heading (rev acc) in
  match ls with
  | [] => [close]
  | l :: rest =>
      match heading_of P l with
      | Some ty => close :: scan P ty (Some l) stop [] rest
      | None => scan P cur heading start (l :: acc) rest
      end
  end.

(** Modelled from the spec: "If zero headings are found anywhere, the
    detector emits a single OTHER section spanning the whole document and
    sets a SECTION_DETECTION_FAILURE warning"; the source is missing. *)
Definition SectionDetector (P : Patterns) (text : string) : list Span * list WarningKind :=
  let ls := lines text in
  if existsb (fun l => bool_decide (is_Some (heading_of P l))) ls
  then (scan P CONTACT None 0 [] ls, [])
  else ([mkSpan OTHER 0 (length ls) None ls], [SECTION_DETECTION_FAILURE]).

(** Modelled from the spec: the lines of the sections of one type, headings
    left out, which is what an extractor operates over; the source is
    missing. *)
Definition section_lines (ty : SectionType) (sections : list Span) : list string :=
  concat (span_lines <$> List.filter (fun s => bool_decide (span_type s = ty)) sections).

(** Modelled from the spec: "Operates over the CONTACT section (and OTHER, if
    CONTACT is empty)" (4.3); the source is missing. *)
Definition lines_for (ty : SectionType) (sections : list Span) : list string :=
  match section_lines ty sections with
  | [] => section_lines OTHER sections
  | ls => ls
  end.

(** ** The extractors *)

(** Modelled from the spec: "the corresponding field/entry is left empty, a
    warning is appended" (4.9): a field with the tier of the rule that
    matched, or empty with a FIELD_EXTRACTION_GAP; the source is missing. *)
Definition field_of (name : string) (m : option (string * Tier))
    : string * list (string * Tier) * list WarningKind :=
  match m with
  | Some (v, t) => (v, [(name, t)], [])
  | None => ("", [], [FIELD_EXTRACTION_GAP name])
  end.

(** Modelled from the spec: the ContactExtractor of section 4.3; the source
    (contact_extractor) is missing. *)
Definition ContactExtractor (P : Patterns) (sections : list Span)
    : Contact * list (string * Tier) * list WarningKind :=
  let ls := lines_for CONTACT sections in
  let text := unlines ls in
  let '(e, te, we) := field_of "email" (first_match (email_rules P) text) in
  let '(p, tp, wp) := field_of "phone" (first_match (phone_rules P) text) in
  let name := name_heuristic P ls in
  let '(fn, tf, wf) := field_of "first_name" ((fun n => (n.1, HEURISTIC)) <$> name) in
  let '(ln, tl, wl) := field_of "last_name" ((fun n => (n.2, HEURISTIC)) <$> name) in
  let place := city_state_rule P text in
  let '(c, tc, wc) := field_of "city" ((fun n => (n.1, LOOSE)) <$> place) in
  let '(s, ts, ws) := field_of "state" ((fun n => (n.2, LOOSE)) <$> place) in
  (mkContact fn ln e p c s, te ++ tp ++ tf ++ tl ++ tc ++ ts,
   we ++ wp ++ wf ++ wl ++ wc ++ ws)%list.

(** Modelled from the spec: "Splits the EDUCATION section into candidate
    entries at blank lines or lines matching a degree/institution heading
    pattern"; the source is missing. *)
Fixpoint split_entries (is_heading : string -> bool) (acc : list string) (ls : list string)
    : list (list string) :=
  let close := match acc with [] => [] | _ => [rev acc] end in
  match ls with
  | [] => close
  | l :: rest =>
      if String.eqb (trim l) "" then (close ++ split_entries is_heading [] rest)%list
      else if is_heading l then (close ++ split_entries is_heading [l] rest)%list
      else split_entries is_heading (l :: acc) rest
  end.

(** Modelled from the spec: the per-entry fields of section 4.4, with
    [graduation_year_of] for the year; the source is missing. *)
Definition education_entry (cfg : Config) (current_year : Z) (entry : list string)
    : Education * list (string * Tier) * list WarningKind :=
  let P := patterns cfg in
  let text := unlines entry in
  let '(d, td, wd) := field_of "degree" (first_match (degree_rules P) text) in
  let '(f, tf, wf) :=
    field_of "field_of_study" ((fun v => (v, LOOSE)) <$> field_of_study_rule P text) in
  let '(i, ti, wi) :=
    field_of "institution" ((fun v => (v, HEURISTIC)) <$> institution_heuristic P text) in
  let '(y, wy) := graduation_year_of current_year text in
  let ty := if String.eqb y "" then [] else [("graduation_year", STRICT)] in
  (mkEducation d f i y, td ++ tf ++ ti ++ ty, wd ++ wf ++ wi ++ wy)%list.

(** Modelled from the spec: the candidate entries of the EDUCATION section
    (4.4); the source is missing. *)
Definition candidate_entries (cfg : Config) (sections : list Span) : list (list string) :=
  split_entries (entry_heading (patterns cfg)) [] (section_lines EDUCATION sections).

(** Modelled from the spec: the EducationExtractor of section 4.4 over the
    entries of the EDUCATION section; the source is missing. *)
Definition EducationExtractor (cfg : Config) (current_year : Z) (sections : list Span)
    : list Education * list (string * Tier) * list WarningKind :=
  let entries := education_entry cfg current_year <$> candidate_entries cfg sections in
  ((fun r => r.1.1) <$> entries, concat ((fun r => r.1.2) <$> entries),
   concat ((fun r => r.2) <$> entries)).

(** Modelled from the spec: the EXTRACTING stage, each extractor run on its
    section; the source (extraction_pipeline) is missing. *)
Definition extract (cfg : Config) (current_year : Z) (sections : list Span)
    : Extracted * list WarningKind :=
  let P := patterns cfg in
  let '(c, tc, wc) := ContactExtractor P sections in
  let '(e, te, we) := EducationExtractor cfg current_year sections in
  let '(x, tx, wx) := experience_extractor P (section_lines EXPERIENCE sections) in
  let s := SkillsExtractor (case_fold P) (stoplist P) (bullet P) (dictionary P)
             (unlines (section_lines SKILLS sections)) in
  (mkExtracted c e x s (tc ++ te ++ tx), wc ++ we ++ wx)%list.

(** ** 4.7 ConfidenceScorer *)

(** Modelled from the spec: the contact category has "at least one non-empty
    field" (4.7); the source is missing. *)
Definition contact_has_data (c : Contact) : bool :=
  negb (String.eqb (first_name c) "") || negb (String.eqb (last_name c) "")
  || negb (String.eqb (email c) "") || negb (String.eqb (phone c) "")
  || negb (String.eqb (city c) "") || negb (String.eqb (state c) "").

(** Modelled from the spec: a list category has "at least one ... entry" (4.7);
    the source is missing. *)
Definition has_entries {A} (l : list A) : bool := (0 <? length l)%nat.

(** Modelled from the spec: "counting how many of the four top-level
    categories ... have at least one non-empty field/entry: 0 → NONE, 1–2 →
    PARTIAL, 3–4 → FULL"; the source is missing. *)
Definition classify (x : Extracted) : Completeness :=
  match Nat.b2n (contact_has_data (x_contact x)) + Nat.b2n (has_entries (x_education x))
        + Nat.b2n (has_entries (x_experience x)) + Nat.b2n (has_entries (x_skills x)) with
  | 0 => NONE
  | 1 | 2 => PARTIAL
  | _ => FULL
  end%nat.

(** Modelled from the spec: the "empty ParseResult" of 4.8, all strings and
    lists empty; the source is missing. *)
Definition empty_extracted : Extracted :=
  mkExtracted (mkContact "" "" "" "" "" "") [] [] [] [].

(** Modelled from the spec: the result object, with the per-field
    confidence read off the tier-weight table; the source is missing. *)
Definition result_of (P : Patterns) (method : Method) (x : Extracted)
    (ws : list WarningKind) : ParseResult :=
  {| contact := x_contact x; education := x_education x;
     work_experience := x_experience x; skills := x_skills x;
     confidence := (fun ft => (ft.1, tier_weight P ft.2)) <$> x_tiers x;
     extraction_method := method; warnings := ws; completeness := classify x |}.

(** ** 4.8 LLMExtractionAdapter *)

(** Modelled from the spec: what the inference collaborator produces, "a text
    completion or a transport error/timeout" (section 6); the source is
    missing. *)
Inductive Reply := Completion (text : string) | TimedOut.

(** Modelled from the spec: "all fields returned by a successful parse are
    assigned a flat high confidence" (4.8); the source (nlp_service) is
    missing. *)
Definition flat (x : Extracted) : Extracted :=
  mkExtracted (x_contact x) (x_education x) (x_experience x) (x_skills x)
    ((fun ft => (ft.1, FLAT_HIGH)) <$> x_tiers x).

(** Modelled from the spec: the LLMExtractionAdapter of 4.8: one corrective
    retry on a parse failure, an empty result with LLM_MALFORMED_RESPONSE on
    the second, an empty result with LLM_TIMEOUT on a timeout; a function of
    the collaborator's first reply and of its reply to the retry. The source
    (nlp_service) is missing. *)
Definition LLMExtractionAdapter (P : Patterns) (first retry : Reply)
    : Extracted * list WarningKind :=
  match first with
  | TimedOut => (empty_extracted, [LLM_TIMEOUT])
  | Completion c =>
      match schema_parse P c with
      | Some x => (flat x, [])
      | None =>
          match retry with
          | TimedOut => (empty_extracted, [LLM_TIMEOUT])
          | Completion c' =>
              match schema_parse P c' with
              | Some x => (flat x, [])
              | None => (empty_extracted, [LLM_MALFORMED_RESPONSE])
              end
          end
      end
  end.

(** ** 4.9 ExtractionPipeline *)

(** Modelled from the spec: "a resume must exhibit at least one such
    signal": an email, a phone, or a recognized section heading; the source
    is missing. *)
Definition resume_signal (P : Patterns) (text : string) : bool :=
  bool_decide (is_Some (first_match (email_rules P) text))
  || bool_decide (is_Some (first_match (phone_rules P) text))
  || existsb (fun l => bool_decide (is_Some (heading_of P l))) (lines text).

(** Modelled from the spec: the states of section 4.9, each with the
    complete value it hands to the next stage; the source is missing. *)
Inductive PipelineState :=
| INIT (raw : string)
| NORMALIZING (raw : string)
| SECTION_DETECTION (text : string)
| EXTRACTING (text : string) (sections : list Span) (ws : list WarningKind)
| SCORING (x : Extracted) (ws : list WarningKind)
| LLM_EXTRACTING (text : string)
| VALIDATING (r : ParseResult)
| DONE (r : ParseResult)
| FAILED (e : FatalKind).

(** Modelled from the spec: the transitions "INIT → NORMALIZING →
    {SECTION_DETECTION → EXTRACTING → SCORING} | LLM_EXTRACTING → VALIDATING
    → DONE", FAILED being reached from INIT or NORMALIZING only; the method
    is fixed for the whole run, and so is the year the clock shows,
    [current_year]; the source is missing. *)
Inductive step (cfg : Config) (current_year : Z) (method : Method)
    : PipelineState -> PipelineState -> Prop :=
| step_empty :
    step cfg current_year method (INIT "") (FAILED INVALID_INPUT)
| step_start raw :
    raw <> "" ->
    step cfg current_year method (INIT raw) (NORMALIZING raw)
| step_invalid raw e :
    TextNormalizer raw = inl e ->
    step cfg current_year method (NORMALIZING raw) (FAILED e)
| step_not_a_resume raw text :
    TextNormalizer raw = inr text ->
    resume_signal (patterns cfg) text = false ->
    step cfg current_year method (NORMALIZING raw) (FAILED NOT_A_RESUME)
| step_regex raw text :
    TextNormalizer raw = inr text ->
    resume_signal (patterns cfg) text = true ->
    method = regex ->
    step cfg current_year method (NORMALIZING raw) (SECTION_DETECTION text)
| step_llm raw text :
    TextNormalizer raw = inr text ->
    resume_signal (patterns cfg) text = true ->
    method = llm ->
    step cfg current_year method (NORMALIZING raw) (LLM_EXTRACTING text)
| step_sections text :
    step cfg current_year method (SECTION_DETECTION text)
      (EXTRACTING text (SectionDetector (patterns cfg) text).1
         (SectionDetector (patterns cfg) text).2)
| step_extract text sections ws :
    step cfg current_year method (EXTRACTING text sections ws)
      (SCORING (extract cfg current_year sections).1
         (ws ++ (extract cfg current_year sections).2)%list)
| step_score x ws :
    step cfg current_year method (SCORING x ws)
      (VALIDATING (result_of (patterns cfg) method x ws))
| step_llm_reply text first retry :
    method = llm ->
    step cfg current_year method (LLM_EXTRACTING text)
      (VALIDATING (result_of (patterns cfg) method
                     (LLMExtractionAdapter (patterns cfg) first retry).1
                     (LLMExtractionAdapter (patterns cfg) first retry).2))
| step_done r :
    step cfg current_year method (VALIDATING r) (DONE r).

(** Modelled from the spec: a pipeline invocation as a run of the state machine
    of 4.9, any number of transitions; the source is missing. *)
Definition reaches (cfg : Config) (current_year : Z) (method : Method)
    : relation PipelineState :=
  rtc (step cfg current_year method).

(** Modelled from the spec: the regex path "{SectionDetector → field extractors
    → ConfidenceScorer}" (section 2) as one function of the normalized text;
    the source is missing. *)
Definition regex_path (cfg : Config) (current_year : Z) (text : string) : ParseResult :=
  let sd := SectionDetector (patterns cfg) text in
  let ex := extract cfg current_year sd.1 in
  result_of (patterns cfg) regex ex.1 (sd.2 ++ ex.2)%list.


(** Modelled from the spec: the states in which a run ends, DONE and the
    "FAILED terminal state" (4.9); the source is missing. *)
Definition terminal (s : PipelineState) : Prop :=
  match s with DONE _ | FAILED _ => True | _ => False end.

(** Modelled from the spec: the states from SECTION_DETECTION and LLM_EXTRACTING
    on, in which an extractor or the LLM adapter runs or has run (4.9); the
    source is missing. *)
Definition past_normalization (s : PipelineState) : bool :=
  match s with
  | INIT _ | NORMALIZING _ | FAILED _ => false
  | _ => true
  end.

End Core.

(** A small pattern table, enough to run the pipeline on the end-to-end
    scenario of section 8. *)
Module CoreExample.

Import Core.

Definition no_bullet (c : Ascii.ascii) : bool := false.

(** The stoplist of the sample tables: the empty string and tokens of
    characters that are neither ASCII letters, digits nor white space. *)
Definition is_punct (c : Ascii.ascii) : bool :=
  negb (is_alpha c || is_digit c || Ascii.is_space c).
Definition stopped (token : string) : bool := all_chars is_punct token.

(** The case mapping of the sample tables: lowercasing of the letters A to
    Z. *)
Definition to_lower (c : Ascii.ascii) : Ascii.ascii :=
  if is_upper c then ascii_of_nat (nat_of_ascii c + 32) else c.
Fixpoint lower (s : string) : string :=
  match s with
  | EmptyString => EmptyString
  | String c rest => String (to_lower c) (lower rest)
  end.

Definition heading_is (name : string) (line : string) : bool :=
  String.eqb (trim line) name.

Definition line_with (p : string -> bool) (text : string) : option string :=
  List.find p (lines text).

Definition phone_like (l : string) : bool :=
  all_chars (fun c => is_digit c || Ascii.eqb c "-") l && (7 <=? String.length l)%nat.

Definition two_words (ls : list string) : option (string * string) :=
  match ls with
  | l :: _ =>
      match split_by (fun c => Ascii.eqb c " ") l with
      | [a; b] => Some (a, b)
      | _ => None
      end
  | [] => None
  end.

Definition first_line_as_title (ls : list string)
    : list Experience * list (string * Tier) * list WarningKind :=
  match ls with
  | l :: rest => ([mkExperience l "" "" None rest], [("job_title", HEURISTIC)],
                  [FIELD_EXTRACTION_GAP "company"])
  | [] => ([], [], [])
  end.

Definition weight (t : Tier) : nat :=
  match t with STRICT => 100 | LOOSE => 60 | HEURISTIC => 40 | FLAT_HIGH => 90 end.

Definition sample_patterns : Patterns :=
  {| case_fold := lower;
     heading_rules := [(heading_is "education", EDUCATION);
                       (heading_is "experience", EXPERIENCE);
                       (heading_is "work history", EXPERIENCE);
                       (heading_is "skills", SKILLS)];
     email_rules := [(line_with (fun l => includes l "@"), STRICT)];
     phone_rules := [(line_with phone_like, STRICT)];
     name_heuristic := two_words;
     city_state_rule := fun _ => None;
     entry_heading := fun _ => false;
     degree_rules := [(fun t => if String.prefix "BS " t then Some "BS" else None, STRICT)];
     field_of_study_rule := fun _ => None;
     institution_heuristic := fun _ => None;
     experience_extractor := first_line_as_title;
     stoplist := stopped;
     bullet := fun c => Ascii.eqb c "*";
     dictionary := ∅;
     tier_weight := weight;
     schema_parse := fun _ => None |}.

Definition sample_config : Config := {| patterns := sample_patterns |}.

(** The sample tables with the dictionary of the example of 4.6. *)
Definition with_dictionary : Patterns :=
  {| case_fold := lower;
     heading_rules := heading_rules sample_patterns;
     email_rules := email_rules sample_patterns;
     phone_rules := phone_rules sample_patterns;
     name_heuristic := name_heuristic sample_patterns;
     city_state_rule := city_state_rule sample_patterns;
     entry_heading := entry_heading sample_patterns;
     degree_rules := degree_rules sample_patterns;
     field_of_study_rule := field_of_study_rule sample_patterns;
     institution_heuristic := institution_heuristic sample_patterns;
     experience_extractor := experience_extractor sample_patterns;
     stoplist := stoplist sample_patterns;
     bullet := bullet sample_patterns;
     dictionary := {[ "js" := "JavaScript" ]};
     tier_weight := tier_weight sample_patterns;
     schema_parse := schema_parse sample_patterns |}.


Definition scenario : string :=
  "John Doe
john@example.com
555-123-4567
EDUCATION
BS Computer Science, MIT, 2020
EXPERIENCE
Software Engineer, Acme Inc, Jan 2021 - Present
- Built things
SKILLS
Python, Go, Python".

End CoreExample.

(** ** App.jsx: what is rendered, and the reset button *)
Module AppView.

Import App.

Inductive Screen := UploadScreen | LoadingScreen | SplitView.

(** The three returns of lines 111-220: the upload zone while there is
    neither a file nor data, else the spinner while loading, else the split
    view with [<PDFViewer file={pdfFile}>] and [<ResumeForm data={extractedData}>]. *)
Definition render (st : State) : Screen :=
  if negb (bool_decide (is_Some (pdfFile st)))
     && negb (bool_decide (is_Some (extractedData st)))
  then UploadScreen
  else if isLoading st then LoadingScreen
  else SplitView.

(** [handleReset], lines 105-109. *)
Definition handleReset (st : State) : State :=
  let st := setPdfFile None st in
  let st := setExtractedData None st in
  toast (ToastSuccess "Ready for new upload" None) st.

(** The state of [handleFileSelect] while it awaits [parseResume]: lines
    16-23 have run. *)
Definition pending (file : File) (st : State) : State :=
  let st := setPdfFile (Some file) st in
  let st := setIsLoading true st in
  toast (ToastLoading (loadingMessage (parsingMethod st))) st.

(** What the user does on the page; [Select] is a file handed to
    [handleFileSelect] by the upload zone, [Choose] the settings select. *)
Inductive Event :=
| Select (file : File)
| Reset
| Choose (m : Method).

Definition handle (parse : File -> Method -> Settled ParseResponse) (e : Event)
    (st : State) : State :=
  match e with
  | Select file => handleFileSelect parse file st
  | Reset => handleReset st
  | Choose m => setParsingMethod m st
  end.

Definition session (parse : File -> Method -> Settled ParseResponse) (es : list Event)
    (st : State) : State :=
  fold_left (fun st e => handle parse e st) es st.

(** A state at rest: nothing is loading, and the file and the data are
    there together or not at all. *)
Definition at_rest (st : State) : Prop :=
  isLoading st = false /\ (pdfFile st = None <-> extractedData st = None).

(** A server that knows the LLM endpoint only. *)
Definition llm_only_server (data : ParseResponse) (r : Request) : AxiosOutcome :=
  if String.eqb (url r) "http://localhost:8000/api/v1/resume/parse-llm"
  then Resolved data else RejectedResponse 404 (JObj [("detail", JStr "Not Found")]).

End AppView.

(** ** components/UploadZone.jsx: sequences of events *)
Module UploadZoneEvents.

Import UploadZone.

Inductive Event :=
| DragOver
| DragLeave
| Drop (files : list File)
| FileInput (files : list File)
| ToggleSettings.

(** Line 200: [setIsSettingsOpen(!isSettingsOpen)]. *)
Definition toggleSettings (st : State) : State * list File :=
  ({| isDragging := isDragging st; isSettingsOpen := negb (isSettingsOpen st) |}, []).

Definition handle (e : Event) (st : State) : State * list File :=
  match e with
  | DragOver => handleDragOver st
  | DragLeave => handleDragLeave st
  | Drop files => handleDrop files st
  | FileInput files => handleFileInput files st
  | ToggleSettings => toggleSettings st
  end.

(** The state after a sequence of events and the calls made to
    [onFileSelect], first to last. *)
Fixpoint run (es : list Event) (st : State) : State * list File :=
  match es with
  | [] => (st, [])
  | e :: rest =>
      let '(st1, calls1) := handle e st in
      let '(st2, calls2) := run rest st1 in
      (st2, (calls1 ++ calls2)%list)
  end.

Definition is_input (e : Event) : bool :=
  match e with FileInput _ => true | _ => false end.

Definition offers_file (e : Event) : bool :=
  match e with Drop _ | FileInput _ => true | _ => false end.

Definition is_drag (e : Event) : bool :=
  match e with DragOver | DragLeave | Drop _ => true | _ => false end.

Definition is_toggle (e : Event) : bool :=
  match e with ToggleSettings => true | _ => false end.

End UploadZoneEvents.

(** ** components/PDFViewer.jsx: what the control bar shows *)
Module PDFViewerView.

Import PDFViewer.

(** [Math.round(x)] for a finite [x]: the integer nearest to [x], a tie
    going up; computed exactly from the mantissa and exponent. *)
Definition Math_round (x : float) : option Z :=
  match Prim2SF x with
  | S754_zero _ => Some 0%Z
  | S754_finite s m e =>
      let n := if s then Z.neg m else Z.pos m in
      if (0 <=? e)%Z then Some (n * 2 ^ e)%Z
      else Some ((2 * n + 2 ^ (- e)) / 2 ^ (- e + 1))%Z
  | _ => None
  end.

(** Line 91: [{Math.round(scale * 100)}%], the number shown. *)
Definition zoom_percent (st : State) : option Z :=
  Math_round (scale st * 100)%float.

(** The two scale updates as functions of the previous scale. *)
Definition zoomed_in (prev : float) : float := Math_min (prev + 0.2) 2.0%float.
Definition zoomed_out (prev : float) : float := Math_max (prev - 0.2) 0.6%float.

End PDFViewerView.

(** ** components/ResumeForm.jsx: what the form shows of its state *)
Module ResumeFormView.

Import ResumeForm.

(** [a.join(sep)] on an array of strings: lines 332 and 355. *)
Definition join (sep : string) (l : list string) : string := String.concat sep l.

(** The array [updateSkills] builds from the text of the box, line 88. *)
Definition skillsArray (value : string) : list string :=
  List.filter JsString.nonempty (JsString.trim <$> JsString.split ","%char value).

(** The lines the description box hands to [updateExperience], line 333. *)
Definition descriptionLines (text : string) : list string :=
  JsString.split "010"%char text.

Fixpoint has_char (c : Ascii.ascii) (s : string) : bool :=
  match s with
  | EmptyString => false
  | String c' rest => Ascii.eqb c' c || has_char c rest
  end.

(** A skill as the extractor delivers it: not empty, no comma, no white
    space at either end. *)
Definition clean (s : string) : Prop :=
  s <> "" /\ has_char "," s = false /\ JsString.trim s = s.

(** The object or the array a value refers to. *)
Definition object_at (h : gmap loc obj) (v : val) : option (gmap string val) :=
  match v with
  | VRef l => match h !! l with Some (Obj fs) => Some fs | _ => None end
  | _ => None
  end.
Definition array_at (h : gmap loc obj) (v : val) : option (list (option val)) :=
  match v with
  | VRef l => match h !! l with Some (Arr es) => Some es | _ => None end
  | _ => None
  end.

(** [formData], [formData[key]] and the elements of [formData[key]]. *)
Definition form_fields (st : State) : option (gmap string val) :=
  object_at (heap st) (formData st).
Definition category (st : State) (key : string) : option val :=
  form_fields st ≫= fun fs => fs !! key.
Definition entries (st : State) (key : string) : option (list (option val)) :=
  category st key ≫= array_at (heap st).

(** An array of strings, and an array with its holes read as [undefined]. *)
Definition strings (l : list string) : list (option val) :=
  (fun s => Some (VStr s)) <$> l.
Definition dense (es : list (option val)) : list (option val) :=
  (fun e => Some (default VUndefined e)) <$> es.

(** The key of [formData] an edit replaces. *)
Definition target (e : Edit) : string :=
  match e with
  | EditContact _ _ => "contact"
  | EditEducation _ _ _ | AddEducation | RemoveEducation _ => "education"
  | EditExperience _ _ _ | EditDescription _ _ | AddExperience | RemoveExperience _ =>
      "work_experience"
  | EditSkills _ => "skills"
  end.

(** The form state is an object that has its four categories, none of them
    undefined, null or otherwise falsy. *)
Definition well_formed (st : State) : Prop :=
  exists fs, form_fields st = Some fs
    /\ forall key, key ∈ ["contact"; "education"; "work_experience"; "skills"] ->
         exists v, fs !! key = Some v /\ truthy_val v = true.

(** What [{...v}] copies, read off the heap: the value of [spread_obj]. *)
Definition own_props (h : gmap loc obj) (v : val) : gmap string val :=
  match v with
  | VRef l => match h !! l with
              | Some (Obj fs) => fs
              | Some (Arr es) => indexed es
              | None => ∅
              end
  | VStr s => indexed (Some <$> chars s)
  | _ => ∅
  end.

(** The elements [filter] keeps, holes left out. *)
Definition compact (es : list (option val)) : list (option val) :=
  (fun v : val => Some v) <$> omap id es.

(** The fields of a blank education entry, lines 8, 18 and 49. *)
Definition blank_education : gmap string val :=
  fields [("degree", VStr ""); ("field_of_study", VStr "");
          ("institution", VStr ""); ("graduation_year", VStr "")].

(** The fields of a blank work entry, lines 9, 19 and 75, with its description at [d]. *)
Definition blank_experience (d : val) : gmap string val :=
  fields [("job_title", VStr ""); ("company", VStr ""); ("start_date", VStr "");
          ("end_date", VStr ""); ("description", d)].


(** [m] never throws, and its result satisfies [Q]. *)
Definition returns {A} (m : JS A) (Q : A -> Prop) : Prop :=
  forall h, exists a h', m h = (Val a, h') /\ Q a.

Definition truthy_result (v : val) : Prop := truthy_val v = true.

(** With [fs] the fields of the form in [h0]: when [m] returns, it returns a
    new form object that has the fields [fs] with [key] replaced by a truthy
    value. *)
Definition replaces (h0 : gmap loc obj) (fs : gmap string val) (key : string)
    (m : JS val) : Prop :=
  forall h, h0 ⊆ h ->
    match m h with
    | (Val fd, h') =>
        exists l' v, fd = VRef l' /\ truthy_val v = true
                     /\ h' !! l' = Some (Obj (<[key := v]> fs))
    | (TypeError, _) => True
    end.

(** The controls of a list section, lines 194-196 and 271-273: [map] renders
    a row for every element of the array (not for a hole), and the remove
    button of a row only while the array has more than one slot. *)
Definition shown (st : State) (key : string) (i : nat) : bool :=
  match entries st key with
  | Some es => match es !! i with Some (Some _) => true | _ => false end
  | None => false
  end.

Definition more_than_one (st : State) (key : string) : bool :=
  match entries st key with
  | Some es => (1 <? length es)%nat
  | None => false
  end.

(** The edits the rendered form offers in a state. *)
Definition offered (st : State) (e : Edit) : bool :=
  match e with
  | EditContact _ _ | AddEducation | AddExperience | EditSkills _ => true
  | EditEducation i _ _ => shown st "education" i
  | RemoveEducation i => shown st "education" i && more_than_one st "education"
  | EditExperience i _ _ | EditDescription i _ => shown st "work_experience" i
  | RemoveExperience i =>
      shown st "work_experience" i && more_than_one st "work_experience"
  end.

(** An edit made through the rendered controls, and a sequence of them. *)
Definition ui_edit (e : Edit) (st : State) : State :=
  if offered st e then edit e st else st.

Definition ui_edits (es : list Edit) (st : State) : State :=
  fold_left (fun st e => ui_edit e st) es st.

(** The list under [key] is an array with at least one element and no
    hole. *)
Definition listed (st : State) (key : string) : Prop :=
  exists es, entries st key = Some es /\ es <> [] /\ Forall is_Some es.

(** A list the response leaves out, sets to null or delivers empty. *)
Definition no_entries (h : gmap loc obj) (v : option val) : Prop :=
  v = None \/ v = Some VNull \/ exists a, v = Some (VRef a) /\ h !! a = Some (Arr []).

(** The fields of a blank contact, line 7. *)
Definition blank_contact : gmap string val :=
  fields [("first_name", VStr ""); ("last_name", VStr ""); ("email", VStr "");
          ("phone", VStr ""); ("city", VStr ""); ("state", VStr "")].

End ResumeFormView.

(** The form of [ParsedExample] once mounted on the parsed data. *)
Module FormExample.

Import ResumeForm ParsedExample.

Definition mounted : State := mount parsed_data parsed_heap.

(** A response with a contact, an empty education list and nothing else. *)
Definition no_lists : gmap nat obj :=
  list_to_map
    [ (0, Obj (fields [("contact", VRef 1); ("education", VRef 2)]));
      (1, Obj (fields [("first_name", VStr "Ann")]));
      (2, Arr []) ].

End FormExample.

(* ===================================================================== *)
(** * Part II. Theorems                                                   *)
(* ===================================================================== *)

(** ** App.jsx: completeness messaging *)
Section Completeness.

Import AppExample.

Lemma truthy_js_or a b : truthy (js_or a b) = truthy a || truthy b.
Proof. unfold js_or. destruct (truthy a) eqn:E; simpl; [exact E | reflexivity]. Qed.

Lemma truthy_hasContact result :
  truthy (App.hasContact result) = key_contact result.
Proof.
  unfold App.hasContact, key_contact.
  rewrite !truthy_js_or. destruct (contact result) as [c|]; reflexivity.
Qed.

Lemma extractedCount_sum result :
  App.extractedCount result =
  Nat.b2n (key_contact result) + Nat.b2n (App.hasEducation result)
  + Nat.b2n (App.hasExperience result) + Nat.b2n (App.hasSkills result).
Proof.
  unfold App.extractedCount. rewrite truthy_hasContact.
  destruct (key_contact result), (App.hasEducation result),
    (App.hasExperience result), (App.hasSkills result); reflexivity.
Qed.

(** C1 at the failing input, a response whose only non-empty field is
    contact.last_name: one category is present in the claim's count, which
    classifies the response PARTIAL; the code counts none, takes the branch
    its comment calls "No data extracted at all" and says so in the toast,
    while the data it hands to the form holds the last name. *)
Lemma C1_last_name_only_is_NONE :
  Claimed.count only_last_name = 1
  /\ Claimed.classification only_last_name = App.PARTIAL
  /\ App.extractedCount only_last_name = 0
  /\ App.completeness only_last_name = App.NONE
  /\ (forall parse file st,
        parse file (App.parsingMethod st) = Returned only_last_name ->
        last (App.shown (App.handleFileSelect parse file st))
        = Some (App.ToastWarning "No data extracted" "Please fill in the form manually")
        /\ (App.extractedData (App.handleFileSelect parse file st) ≫= contact) ≫= last_name
           = Some "Doe").
Proof.
  repeat split; try reflexivity.
  - unfold App.handleFileSelect. cbn [App.parsingMethod App.setPdfFile App.setIsLoading App.toast].
    rewrite H. cbn. apply last_snoc.
  - unfold App.handleFileSelect. cbn [App.parsingMethod App.setPdfFile App.setIsLoading App.toast].
    by rewrite H.
Qed.

(** What the code computes: the classification is NONE for a count of 0,
    PARTIAL for 1 or 2, FULL for 3 or 4, where the count is over the four
    categories and contact counts exactly when first_name, email or phone is
    non-empty; education, work experience and skills count when they have an
    entry. *)
Lemma completeness_by_count (result : ParseResponse) :
  let n := Nat.b2n (key_contact result) + Nat.b2n (App.hasEducation result)
           + Nat.b2n (App.hasExperience result) + Nat.b2n (App.hasSkills result) in
  App.extractedCount result = n
  /\ n <= 4
  /\ (App.completeness result = App.NONE <-> n = 0)
  /\ (App.completeness result = App.PARTIAL <-> n = 1 \/ n = 2)
  /\ (App.completeness result = App.FULL <-> n = 3 \/ n = 4).
Proof.
  intros n. split; [apply extractedCount_sum|].
  unfold App.completeness. rewrite extractedCount_sum. fold n.
  assert (Hn : n <= 4).
  { unfold n. destruct (key_contact result), (App.hasEducation result),
      (App.hasExperience result), (App.hasSkills result); simpl; lia. }
  split; [exact Hn|].
  destruct n as [|[|[|[|[|k]]]]]; simpl; try lia;
    repeat split; intros; try discriminate; try lia; auto.
Qed.

End Completeness.

(** ** App.jsx and services/api.js: the method selector *)
Section MethodSelector.

Import AppExample.

Variable env : option string.
Variable server : Request -> AxiosOutcome.


(** The message shown while waiting does follow the selector. *)
Lemma loading_toast_follows_selector (file : File) (st : App.State)
    (parse : File -> Method -> Settled ParseResponse) :
  App.parsingMethod st = llm ->
  In (App.ToastLoading "Processing with AI... This may take a moment.")
     (App.shown (App.handleFileSelect parse file st)).
Proof.
  intros Hm. unfold App.handleFileSelect. simpl. rewrite Hm.
  destruct (parse file llm); simpl; rewrite !in_app_iff; simpl; tauto.
Qed.

(** The later revision of [parseResume] does what the claim says: the
    document travels with an endpoint that the selector alone decides, and
    the two selectors give two different endpoints. *)
Lemma parseResume_with_method_keeps_selector (file : File) (m : Method) :
  form (ApiWithMethod.request env file m) = [("file", file)]
  /\ url (ApiWithMethod.request env file m) = ApiWithMethod.endpoint env m
  /\ ApiWithMethod.endpoint env llm <> ApiWithMethod.endpoint env regex.
Proof.
  repeat split. unfold ApiWithMethod.endpoint. intros H.
  apply String.app_inj in H. discriminate H.
Qed.

Lemma handleFileSelect_passes_selector
    (parse : File -> Method -> Settled ParseResponse) (file : File) (st : App.State)
    (result : ParseResponse) :
  parse file (App.parsingMethod st) = Returned result ->
  App.extractedData (App.handleFileSelect parse file st) = Some result.
Proof. intros H. unfold App.handleFileSelect. simpl. rewrite H. reflexivity. Qed.

End MethodSelector.

(** ** App.jsx: a failed parse *)
Section FatalFailure.

Import AppExample.

Lemma handleFileSelect_thrown
    (parse : File -> Method -> Settled ParseResponse) (file : File) (st : App.State)
    (message : string) :
  parse file (App.parsingMethod st) = Thrown message ->
  App.handleFileSelect parse file st =
  {| App.pdfFile := None; App.extractedData := None; App.isLoading := false;
     App.parsingMethod := App.parsingMethod st;
     App.shown := (App.shown st
                   ++ [App.ToastLoading (App.loadingMessage (App.parsingMethod st))])
                  ++ [App.ToastError (App.errorTitle message) message] |}.
Proof.
  intros H. unfold App.handleFileSelect. simpl. rewrite H. reflexivity.
Qed.

(** What the client makes of a failure detail that is a string, when the
    status is neither 413 nor 500. *)
Lemma error_message_from_detail (status : Z) (data : Json) (detail : string) :
  property data "detail" = Some (JStr detail) ->
  detail <> "" -> status <> 413%Z -> status <> 500%Z ->
  Api.error_message status data =
  Some (if (status =? 400)%Z then "Invalid file: " +:+ detail else detail).
Proof.
  intros Hp Hd H413 H500. unfold Api.error_message, Api.detail_or_unknown.
  destruct data; try discriminate Hp. rewrite Hp. cbn [truthy_json].
  destruct (String.eqb_spec detail "") as [->|_]; [done|]. cbn [negb ToString].
  destruct (Z.eqb_spec status 400); [done|].
  destruct (Z.eqb_spec status 413); [done|].
  destruct (Z.eqb_spec status 422); [done|].
  destruct (Z.eqb_spec status 500); done.
Qed.

(** C3: when the parse request is rejected with a status and a failure
    detail (the abort-class failures come back as 4xx responses whose body
    is an object with the detail as a string), [parseResume] returns no data
    and throws; [handleFileSelect] leaves both the file and the extracted
    data null, and the last toast is an error toast whose message is the
    detail, prefixed by "Invalid file: " for status 400. *)
Theorem C3_fatal_failure_clears_and_explains
    (env : option string) (server : Request -> AxiosOutcome)
    (file : File) (st : App.State) (status : Z) (data : Json) (detail : string) :
  server (Api.request env file) = RejectedResponse status data ->
  property data "detail" = Some (JStr detail) ->
  detail <> "" -> status <> 413%Z -> status <> 500%Z ->
  let st' := App.handleFileSelect (App.call_parseResume env server) file st in
  let message := if (status =? 400)%Z then "Invalid file: " +:+ detail else detail in
  App.call_parseResume env server file (App.parsingMethod st) = Thrown message
  /\ App.pdfFile st' = None
  /\ App.extractedData st' = None
  /\ App.isLoading st' = false
  /\ last (App.shown st') = Some (App.ToastError (App.errorTitle message) message).
Proof.
  intros Hs Hp Hd H413 H500 st' message.
  assert (Hthrown : App.call_parseResume env server file (App.parsingMethod st)
                    = Thrown message).
  { unfold App.call_parseResume, Api.parseResume. rewrite Hs. simpl.
    by rewrite (error_message_from_detail status data detail). }
  split; [exact Hthrown|].
  subst st'. rewrite (handleFileSelect_thrown _ _ _ _ Hthrown).
  cbn [App.pdfFile App.extractedData App.isLoading App.shown].
  repeat split. apply last_snoc.
Qed.

Lemma C3_fatal_failure_witness :
  App.call_parseResume None not_a_resume_server resume_pdf regex
    = Thrown "This document doesn't appear to be a resume."
  /\ App.pdfFile (App.handleFileSelect (App.call_parseResume None not_a_resume_server)
                 resume_pdf App.initial) = None
  /\ App.extractedData (App.handleFileSelect (App.call_parseResume None not_a_resume_server)
                 resume_pdf App.initial) = None
  /\ App.isLoading (App.handleFileSelect (App.call_parseResume None not_a_resume_server)
                 resume_pdf App.initial) = false
  /\ last (App.shown (App.handleFileSelect (App.call_parseResume None not_a_resume_server)
                 resume_pdf App.initial))
     = Some (App.ToastError "Invalid Resume" "This document doesn't appear to be a resume.").
Proof.
  apply (C3_fatal_failure_clears_and_explains None not_a_resume_server resume_pdf
           App.initial 422
           (JObj [("detail", JStr "This document doesn't appear to be a resume.")])
           "This document doesn't appear to be a resume.");
    [reflexivity | reflexivity | discriminate | lia | lia].
Defined.

(** Every other way the request can fail clears the state as well. *)
Lemma any_failure_clears_state
    (parse : File -> Method -> Settled ParseResponse) (file : File) (st : App.State)
    (message : string) :
  parse file (App.parsingMethod st) = Thrown message ->
  App.pdfFile (App.handleFileSelect parse file st) = None
  /\ App.extractedData (App.handleFileSelect parse file st) = None.
Proof. intros H. by rewrite (handleFileSelect_thrown _ _ _ _ H). Qed.

End FatalFailure.

(** ** components/UploadZone.jsx: drop against file dialog *)
Section UploadZoneFacts.

(** C10: a drop calls [onFileSelect] (once, with the first file) exactly when
    there is a first file and its MIME type is the string 'application/pdf',
    and makes no call otherwise; the file dialog calls it with the first file
    of any non-empty list, whatever its type. *)
Theorem C10_drop_filters_input_does_not (files : list File) (st : UploadZone.State) :
  (UploadZone.handleDrop files st).2 =
    match files with
    | file0 :: _ =>
        if decide (file_type file0 = "application/pdf") then [file0] else []
    | [] => []
    end
  /\ (UploadZone.handleFileInput files st).2 =
    match files with
    | file0 :: _ => [file0]
    | [] => []
    end.
Proof.
  unfold UploadZone.handleDrop, UploadZone.handleFileInput.
  destruct files as [|file0 rest]; simpl; [done|].
  split; [|done].
  destruct (String.eqb_spec (file_type file0) "application/pdf") as [E|E];
    destruct (decide _); done.
Qed.

Lemma drop_of_word_document_is_ignored (st : UploadZone.State) :
  UploadZone.handleDrop [mkFile "cv.docx" "application/msword" 1000] st
    = (UploadZone.setIsDragging false st, [])
  /\ UploadZone.handleFileInput [mkFile "cv.docx" "application/msword" 1000] st
    = (st, [mkFile "cv.docx" "application/msword" 1000]).
Proof. split; reflexivity. Qed.

End UploadZoneFacts.

(** ** components/PDFViewer.jsx: page and zoom controls *)
Section PDFViewerFacts.

Import PDFViewer.

Local Ltac pick_scale :=
  vm_compute; repeat (first [left; reflexivity | right]); reflexivity.

Lemma zoomIn_reachable (x : float) :
  In x reachable_scales -> In (Math_min (x + 0.2) 2.0)%float reachable_scales.
Proof.
  unfold reachable_scales at 1. simpl. intros H.
  repeat (destruct H as [<-|H]; [pick_scale|]). destruct H.
Qed.

Lemma zoomOut_reachable (x : float) :
  In x reachable_scales -> In (Math_max (x - 0.2) 0.6)%float reachable_scales.
Proof.
  unfold reachable_scales at 1. simpl. intros H.
  repeat (destruct H as [<-|H]; [pick_scale|]). destruct H.
Qed.

Lemma reachable_in_range (x : float) :
  In x reachable_scales -> (0.6 <=? x)%float = true /\ (x <=? 2.0)%float = true.
Proof.
  unfold reachable_scales. simpl. intros H.
  repeat (destruct H as [<-|H]; [split; reflexivity|]). destruct H.
Qed.

Lemma control_scale_reachable (c : Control) (st : State) :
  In (scale st) reachable_scales -> In (scale (control c st)) reachable_scales.
Proof.
  intros H. destruct c;
    [exact H | exact H | exact (zoomIn_reachable _ H) | exact (zoomOut_reachable _ H)].
Qed.

Lemma click_scale_reachable (c : Control) (st : State) :
  In (scale st) reachable_scales -> In (scale (click c st)) reachable_scales.
Proof.
  unfold click. destruct (disabled c st); auto using control_scale_reachable.
Qed.

Lemma run_scale_reachable (cs : list Control) (st : State) :
  In (scale st) reachable_scales -> In (scale (run cs st)) reachable_scales.
Proof.
  revert st. induction cs as [|c cs IH]; intros st H; simpl; [exact H|].
  apply IH, control_scale_reachable, H.
Qed.

Lemma clicks_scale_reachable (cs : list Control) (st : State) :
  In (scale st) reachable_scales -> In (scale (clicks cs st)) reachable_scales.
Proof.
  revert st. induction cs as [|c cs IH]; intros st H; simpl; [exact H|].
  apply IH, click_scale_reachable, H.
Qed.

Lemma initial_scale_reachable : In (scale initial) reachable_scales.
Proof. pick_scale. Qed.

(** The handlers leave [numPages] alone. *)
Lemma control_numPages (c : Control) (st : State) :
  numPages (control c st) = numPages st.
Proof. destruct c; reflexivity. Qed.

Lemma run_numPages (cs : list Control) (st : State) :
  numPages (run cs st) = numPages st.
Proof.
  revert st. induction cs as [|c cs IH]; intros st; simpl; [done|].
  by rewrite IH, control_numPages.
Qed.

Lemma click_numPages (c : Control) (st : State) :
  numPages (click c st) = numPages st.
Proof. unfold click. destruct (disabled c st); [done|apply control_numPages]. Qed.

Lemma clicks_numPages (cs : list Control) (st : State) :
  numPages (clicks cs st) = numPages st.
Proof.
  revert st. induction cs as [|c cs IH]; intros st; simpl; [done|].
  by rewrite IH, click_numPages.
Qed.

(** Page bounds once the document has loaded. *)
Lemma control_page_bounds (n : Z) (c : Control) (st : State) :
  numPages st = Some n ->
  (1 <= pageNumber st <= n)%Z -> (1 <= pageNumber (control c st) <= n)%Z.
Proof.
  intros Hn Hp. destruct c; simpl; try rewrite Hn; simpl; lia.
Qed.

Lemma run_page_bounds (n : Z) (cs : list Control) (st : State) :
  numPages st = Some n ->
  (1 <= pageNumber st <= n)%Z -> (1 <= pageNumber (run cs st) <= n)%Z.
Proof.
  revert st. induction cs as [|c cs IH]; intros st Hn Hp; simpl; [exact Hp|].
  apply IH; [by rewrite control_numPages | by apply control_page_bounds].
Qed.

(** Before the document has loaded both page buttons are disabled. *)
Lemma click_before_load (c : Control) (st : State) :
  numPages st = None -> pageNumber st = 1%Z -> pageNumber (click c st) = 1%Z.
Proof.
  intros Hn Hp. unfold click. destruct c; simpl; rewrite ?Hn, ?Hp; simpl; try done.
  - destruct (scale st <=? 2.0)%float; destruct (2.0 <=? scale st)%float; done.
  - destruct (scale st <=? 0.6)%float; done.
Qed.

Lemma clicks_before_load (cs : list Control) (st : State) :
  numPages st = None -> pageNumber st = 1%Z -> pageNumber (clicks cs st) = 1%Z.
Proof.
  revert st. induction cs as [|c cs IH]; intros st Hn Hp; simpl; [exact Hp|].
  apply IH; [by rewrite click_numPages | by apply click_before_load].
Qed.

(** C9, as stated, fails: when [goToNextPage] fires while [numPages] is still
    null, [Math.min(1 + 1, null)] is 0 and the page number drops below 1. *)
Lemma C9_next_page_before_load :
  numPages initial = None
  /\ pageNumber (run [NextPage] initial) = 0%Z
  /\ ~ invariant (run [NextPage] initial).
Proof.
  repeat split. intros (_ & Hp & _). simpl in Hp. lia.
Qed.

(** C9, amended: from pageNumber = 1 and scale = 1.0, every sequence of the
    four control operations keeps scale within [0.6, 2.0]; once numPages has
    been loaded (with at least one page) every such sequence keeps pageNumber
    between 1 and numPages; and before it has loaded, every sequence of
    clicks on the four buttons leaves pageNumber at 1, because the buttons of
    both page operations are disabled then. *)
Theorem C9_viewer_invariant (n : Z) (before after cs : list Control) :
  (1 <= n)%Z ->
  scale_in_range (run cs initial)
  /\ pageNumber (clicks before initial) = 1%Z
  /\ scale_in_range (clicks before initial)
  /\ invariant (run after (onDocumentLoadSuccess n (clicks before initial))).
Proof.
  intros Hn.
  split; [apply reachable_in_range, run_scale_reachable, initial_scale_reachable|].
  assert (Hp : pageNumber (clicks before initial) = 1%Z)
    by (by apply clicks_before_load).
  split; [exact Hp|].
  split; [apply reachable_in_range, clicks_scale_reachable, initial_scale_reachable|].
  set (st := onDocumentLoadSuccess n (clicks before initial)).
  assert (Hb : (1 <= pageNumber (run after st) <= n)%Z).
  { apply run_page_bounds; [done|]. subst st. simpl. lia. }
  split; [|split].
  - apply reachable_in_range, run_scale_reachable. subst st. simpl.
    apply clicks_scale_reachable, initial_scale_reachable.
  - lia.
  - intros m Hm. rewrite run_numPages in Hm. subst st. simpl in Hm. injection Hm as <-. lia.
Qed.

Lemma C9_viewer_invariant_witness :
  (1 <= 3)%Z
  /\ scale_in_range (run [ZoomIn; ZoomIn; ZoomIn; ZoomIn; ZoomIn; ZoomIn; NextPage] initial)
  /\ pageNumber (clicks [NextPage; PrevPage; ZoomOut] initial) = 1%Z
  /\ scale_in_range (clicks [NextPage; PrevPage; ZoomOut] initial)
  /\ invariant (run [NextPage; NextPage; NextPage; NextPage; ZoomOut; ZoomOut; ZoomOut; PrevPage]
                  (onDocumentLoadSuccess 3 (clicks [NextPage; PrevPage; ZoomOut] initial))).
Proof.
  split; [lia|].
  apply (C9_viewer_invariant 3 [NextPage; PrevPage; ZoomOut]
           [NextPage; NextPage; NextPage; NextPage; ZoomOut; ZoomOut; ZoomOut; PrevPage]
           [ZoomIn; ZoomIn; ZoomIn; ZoomIn; ZoomIn; ZoomIn; NextPage]).
  lia.
Defined.

End PDFViewerFacts.

(** ** components/ResumeForm.jsx: the edit handlers leave the prop alone *)
Section ResumeFormFacts.

Import ResumeForm.

(** The heap at the moment the [data] prop is handed to the form: the parsed
    data and everything reachable from it live here. *)
Variable h0 : gmap loc obj.

Local Abbreviation preserves := (ResumeForm.preserves h0).
Local Abbreviation fresh_ref := (ResumeForm.fresh_ref h0).

Lemma preserves_ret {A} (a : A) (Q : A -> Prop) : Q a -> preserves (ret a) Q.
Proof. intros HQ h Hh. by split. Qed.

Lemma preserves_throw {A} (Q : A -> Prop) : preserves throw Q.
Proof. intros h Hh. by split. Qed.

Lemma preserves_bind {A B} (m : JS A) (k : A -> JS B) (Q : A -> Prop) (R : B -> Prop) :
  preserves m Q -> (forall a, Q a -> preserves (k a) R) -> preserves (bind m k) R.
Proof.
  intros Hm Hk h Hh. unfold bind. specialize (Hm h Hh).
  destruct (m h) as [[a|] h']; simpl in *; [|tauto].
  destruct Hm as [Hh' Ha]. exact (Hk a Ha h' Hh').
Qed.

Lemma preserves_weaken {A} (m : JS A) (Q Q' : A -> Prop) :
  preserves m Q -> (forall a, Q a -> Q' a) -> preserves m Q'.
Proof.
  intros Hm HQ h Hh. destruct (Hm h Hh) as [H1 H2]. split; [exact H1|].
  destruct (m h).1; auto.
Qed.

Lemma fresh_outside (h : gmap loc obj) : h0 ⊆ h -> h0 !! fresh (dom h) = None.
Proof.
  intros Hh. apply not_elem_of_dom. intros Hin.
  apply (is_fresh (dom h)). by apply (subseteq_dom h0 h Hh).
Qed.

Lemma preserves_new (o : obj) : preserves (new o) fresh_ref.
Proof.
  intros h Hh. unfold new. simpl. pose proof (fresh_outside h Hh) as Hf. split.
  - by apply insert_subseteq_r.
  - by exists (fresh (dom h)).
Qed.

Lemma preserves_deref (l : loc) : preserves (deref l) any.
Proof. intros h Hh. by split. Qed.

Lemma preserves_store (l : loc) (o : obj) :
  h0 !! l = None -> preserves (store l o) any.
Proof. intros Hl h Hh. split; [by apply insert_subseteq_r | done]. Qed.

Create HintDb frame.

Local Ltac frame_step :=
  lazymatch goal with
  | |- preserves (bind _ _) _ =>
      eapply preserves_bind; [solve [eauto with frame] | intros ? ?]
  | |- preserves (ret _) _ => apply preserves_ret
  | |- preserves throw _ => apply preserves_throw
  | |- preserves (match ?x with _ => _ end) _ => destruct x
  | |- preserves (if ?x then _ else _) _ => destruct x
  end.

Local Ltac frame := repeat frame_step; try solve [eauto with frame | done].

#[local] Hint Resolve preserves_new preserves_deref : frame.

Lemma preserves_new_any (o : obj) : preserves (new o) any.
Proof. eapply preserves_weaken; [apply preserves_new | done]. Qed.

Lemma preserves_get (v : val) (key : string) : preserves (get v key) any.
Proof. unfold get. destruct v; frame. Qed.
#[local] Hint Resolve preserves_get : frame.

Lemma preserves_get_opt (v : val) (key : string) : preserves (get_opt v key) any.
Proof. unfold get_opt. destruct v; frame. Qed.

Lemma preserves_length_gt_0 (v : val) : preserves (length_gt_0 v) any.
Proof. unfold length_gt_0. destruct v; frame. Qed.

Lemma preserves_spread_obj (v : val) : preserves (spread_obj v) any.
Proof. unfold spread_obj. destruct v; frame. Qed.

Lemma preserves_spread_arr (v : val) : preserves (spread_arr v) any.
Proof. unfold spread_arr. destruct v; frame. Qed.

Lemma preserves_index (a : val) (i : nat) : preserves (index a i) any.
Proof. unfold index. destruct a; frame. Qed.

(** The one assignment in place is safe on an array allocated by the
    handler itself. *)
Lemma preserves_index_set (a : val) (i : nat) (x : val) :
  fresh_ref a -> preserves (index_set a i x) any.
Proof.
  intros (l & -> & Hl). unfold index_set.
  eapply preserves_bind; [apply preserves_deref|]. intros o _.
  destruct o as [[fs|es]|]; [by apply preserves_store..|by apply preserves_ret].
Qed.

Lemma preserves_filter_other (a : val) (i : nat) : preserves (filter_other a i) any.
Proof.
  unfold filter_other. destruct a; frame.
  apply preserves_new_any.
Qed.

#[local] Hint Resolve preserves_get_opt preserves_length_gt_0 preserves_spread_obj
  preserves_spread_arr preserves_index preserves_index_set preserves_filter_other : frame.

Lemma preserves_default_contact : preserves default_contact any.
Proof. apply preserves_new_any. Qed.

Lemma preserves_default_education : preserves default_education any.
Proof. apply preserves_new_any. Qed.

Lemma preserves_default_experience : preserves default_experience any.
Proof. unfold default_experience. frame. apply preserves_new_any. Qed.

#[local] Hint Resolve preserves_default_contact preserves_default_education
  preserves_default_experience : frame.

Lemma preserves_or_else (x : val) (fallback : JS val) :
  preserves fallback any -> preserves (or_else x fallback) any.
Proof. intros H. unfold or_else. frame. Qed.

Lemma preserves_nonempty_or (x : val) (fallback : JS val) :
  preserves fallback any -> preserves (nonempty_or x fallback) any.
Proof. intros H. unfold nonempty_or. frame. Qed.

Lemma preserves_singleton (m : JS val) :
  preserves m any -> preserves (do x <- m; new (Arr [Some x])) any.
Proof. intros H. frame. apply preserves_new_any. Qed.

#[local] Hint Resolve preserves_or_else preserves_nonempty_or preserves_singleton
  preserves_new_any : frame.

Lemma preserves_form_of (data : val) : preserves (form_of data) any.
Proof. unfold form_of. frame. Qed.

Lemma preserves_with_field (fd : val) (key : string) (v : val) :
  preserves (with_field fd key v) any.
Proof. unfold with_field. frame. Qed.
#[local] Hint Resolve preserves_with_field : frame.

Lemma preserves_updateContact (field : string) (value fd : val) :
  preserves (updateContact field value fd) any.
Proof. unfold updateContact. frame. Qed.

Lemma preserves_updateEntry (key : string) (i : nat) (field : string) (value fd : val) :
  preserves (updateEntry key i field value fd) any.
Proof.
  unfold updateEntry.
  eapply preserves_bind; [apply preserves_get | intros old _].
  eapply preserves_bind; [apply preserves_spread_arr | intros es _].
  eapply preserves_bind; [apply preserves_new | intros newEntries Hfresh].
  frame.
Qed.

Lemma preserves_addEntry (key : string) (fresh_entry : JS val) (fd : val) :
  preserves fresh_entry any -> preserves (addEntry key fresh_entry fd) any.
Proof. intros H. unfold addEntry. frame. Qed.

Lemma preserves_removeEntry (key : string) (i : nat) (fd : val) :
  preserves (removeEntry key i fd) any.
Proof. unfold removeEntry. frame. Qed.

Lemma preserves_updateSkills (value : string) (fd : val) :
  preserves (updateSkills value fd) any.
Proof. unfold updateSkills. frame. Qed.

Lemma preserves_handler (e : Edit) (fd : val) : preserves (handler e fd) any.
Proof.
  destruct e; cbn [handler].
  - apply preserves_updateContact.
  - apply (preserves_updateEntry "education").
  - apply (preserves_addEntry "education"), preserves_default_education.
  - apply (preserves_removeEntry "education").
  - apply (preserves_updateEntry "work_experience").
  - eapply preserves_bind; [apply preserves_new_any|]. intros lines _.
    apply (preserves_updateEntry "work_experience").
  - apply (preserves_addEntry "work_experience"), preserves_default_experience.
  - apply (preserves_removeEntry "work_experience").
  - apply preserves_updateSkills.
Qed.

Lemma setFormData_frame (body : JS val) (st : State) :
  preserves body any -> h0 ⊆ heap st -> h0 ⊆ heap (setFormData body st).
Proof.
  intros Hb Hst. unfold setFormData. destruct (Hb (heap st) Hst) as [H _].
  destruct (body (heap st)) as [[fd|] h]; exact H.
Qed.

Lemma mount_frame (data : val) : h0 ⊆ heap (mount data h0).
Proof.
  unfold mount.
  assert (H : h0 ⊆ heap (setFormData (form_of data) {| heap := h0; formData := VUndefined |}))
    by (apply setFormData_frame; [apply preserves_form_of | done]).
  destruct (truthy_val data); [|exact H].
  apply setFormData_frame; [apply preserves_form_of | exact H].
Qed.

Lemma edits_frame (es : list Edit) (st : State) :
  h0 ⊆ heap st -> h0 ⊆ heap (edits es st).
Proof.
  revert st. induction es as [|e es IH]; intros st Hst; simpl; [exact Hst|].
  apply IH. unfold edit. apply setFormData_frame; [apply preserves_handler | exact Hst].
Qed.

End ResumeFormFacts.

(** C8: whatever edits the form makes, in any number and order, every
    object that existed when the data prop was handed over (the parsed data
    and all it refers to) is still in the heap with the same content; the
    handlers only build new objects and arrays. *)
Theorem C8_edits_leave_data_unchanged
    (h0 : gmap nat ResumeForm.obj) (data : ResumeForm.val)
    (es : list ResumeForm.Edit) (l : nat) (o : ResumeForm.obj) :
  h0 !! l = Some o ->
  ResumeForm.heap (ResumeForm.edits es (ResumeForm.mount data h0)) !! l = Some o.
Proof.
  intros H. eapply lookup_weaken; [exact H|].
  apply edits_frame, mount_frame.
Qed.

Lemma C8_edits_leave_data_unchanged_witness :
  ParsedExample.parsed_heap !! 2 = Some (ResumeForm.Arr [Some (ResumeForm.VRef 3)])
  /\ ResumeForm.heap (ResumeForm.edits ParsedExample.session
        (ResumeForm.mount ParsedExample.parsed_data ParsedExample.parsed_heap)) !! 2
     = Some (ResumeForm.Arr [Some (ResumeForm.VRef 3)]).
Proof.
  split; [reflexivity|].
  apply (C8_edits_leave_data_unchanged ParsedExample.parsed_heap ParsedExample.parsed_data
           ParsedExample.session 2 (ResumeForm.Arr [Some (ResumeForm.VRef 3)])).
  reflexivity.
Defined.

Section ResumeFormExamples.

Import ResumeForm ParsedExample.

(** The form state shares its arrays with the prop: after mounting,
    [formData.education] is the very array [data.education]. *)
Example mount_aliases_data :
  let st := mount parsed_data parsed_heap in
  read st (formData st) "education" = Val (VRef 2)
  /\ read st parsed_data "education" = Val (VRef 2).
Proof. vm_compute. done. Qed.

(** The edit is visible through [formData] and not through [data]. *)
Example edit_degree_copies :
  let st := edit (EditEducation 0 "degree" "MS") (mount parsed_data parsed_heap) in
  (exists a e, read st (formData st) "education" = Val a
               /\ a <> VRef 2
               /\ read_at st a 0 = Val e
               /\ read st e "degree" = Val (VStr "MS"))
  /\ read_at st (VRef 2) 0 = Val (VRef 3)
  /\ read st (VRef 3) "degree" = Val (VStr "BS").
Proof.
  vm_compute. split; [|done].
  eexists _, _. split; [reflexivity|]. split; [discriminate|]. split; reflexivity.
Qed.

End ResumeFormExamples.

(** ** Core: SkillsExtractor *)
Section SkillsFacts.

Import Core CoreExample.

Variable fold : string -> string.

Lemma dedupe_fresh (seen : gset string) (tokens : list string) (u : string) :
  u ∈ dedupe fold seen tokens -> fold u ∉ seen.
Proof.
  revert seen. induction tokens as [|t rest IH]; intros seen; simpl.
  - by intros ?%elem_of_nil.
  - destruct (decide (fold t ∈ seen)) as [Hin|Hout]; [apply IH|].
    intros [->|Hu]%elem_of_cons; [exact Hout|].
    apply IH in Hu. set_solver.
Qed.

Lemma dedupe_NoDup (seen : gset string) (tokens : list string) :
  NoDup (fold <$> dedupe fold seen tokens).
Proof.
  revert seen. induction tokens as [|t rest IH]; intros seen; simpl.
  - constructor.
  - destruct (decide (fold t ∈ seen)); [apply IH|].
    rewrite fmap_cons. apply NoDup_cons. split; [|apply IH].
    intros (u & Hk & Hu)%list_elem_of_fmap.
    apply dedupe_fresh in Hu. rewrite <- Hk in Hu. set_solver.
Qed.

Lemma dedupe_sublist (seen : gset string) (tokens : list string) :
  dedupe fold seen tokens `sublist_of` tokens.
Proof.
  revert seen. induction tokens as [|t rest IH]; intros seen; simpl; [constructor|].
  destruct (decide (fold t ∈ seen)); [apply sublist_cons, IH | apply sublist_skip, IH].
Qed.

Lemma dedupe_covers (seen : gset string) (tokens : list string) (t : string) :
  t ∈ tokens -> fold t ∈ seen \/ fold t ∈ fold <$> dedupe fold seen tokens.
Proof.
  revert seen. induction tokens as [|t' rest IH]; intros seen; simpl.
  - by intros ?%elem_of_nil.
  - intros [->|Ht]%elem_of_cons.
    + destruct (decide (fold t' ∈ seen)); [by left|].
      right. rewrite fmap_cons. apply list_elem_of_here.
    + destruct (decide (fold t' ∈ seen)) as [Hin|Hout]; [by apply IH|].
      destruct (IH ({[fold t']} ∪ seen) Ht) as [H|H].
      * apply elem_of_union in H as [->%elem_of_singleton|H]; [|by left].
        right. rewrite fmap_cons. apply list_elem_of_here.
      * right. rewrite fmap_cons. by apply list_elem_of_further.
Qed.

Lemma dedupe_first_seen (seen : gset string) (tokens : list string) (u : string) :
  u ∈ dedupe fold seen tokens ->
  exists pre post, tokens = (pre ++ u :: post)%list /\ fold u ∉ fold <$> pre.
Proof.
  revert seen. induction tokens as [|t rest IH]; intros seen; simpl.
  - by intros ?%elem_of_nil.
  - destruct (decide (fold t ∈ seen)) as [Hin|Hout].
    + intros Hu. pose proof (dedupe_fresh _ _ _ Hu) as Hf.
      destruct (IH _ Hu) as (pre & post & -> & Hpre).
      exists (t :: pre), post. split; [done|].
      rewrite fmap_cons. apply not_elem_of_cons. split; [|exact Hpre].
      intros E. rewrite E in Hf. contradiction.
    + intros [->|Hu]%elem_of_cons.
      * exists [], rest. split; [done|]. apply not_elem_of_nil.
      * pose proof (dedupe_fresh _ _ _ Hu) as Hf.
        destruct (IH _ Hu) as (pre & post & -> & Hpre).
        exists (t :: pre), post. split; [done|].
        rewrite fmap_cons. apply not_elem_of_cons. split; [|exact Hpre].
        intros E. rewrite E in Hf. set_solver.
Qed.

Lemma NoDup_fmap_injective {A B} (f : A -> B) (l : list A) :
  NoDup (f <$> l) -> forall x y, x ∈ l -> y ∈ l -> f x = f y -> x = y.
Proof.
  induction l as [|a l IH]; [by intros _ x y ?%elem_of_nil|].
  rewrite fmap_cons. intros [Ha Hl]%NoDup_cons x y Hx Hy E.
  apply elem_of_cons in Hx as [->|Hx], Hy as [->|Hy]; [done| | |by apply IH].
  - destruct Ha. rewrite E. by apply list_elem_of_fmap_2.
  - destruct Ha. rewrite <- E. by apply list_elem_of_fmap_2.
Qed.

Lemma canonical_off (token : string) : canonical fold ∅ token = token.
Proof. unfold canonical. by rewrite lookup_empty. Qed.

(** C7, amended: the deduplicated token sequence holds no two entries with
    the same folded form; it is a subsequence of the token stream (the
    entries keep their casing and their order), every token is represented,
    and each entry is the first token of the stream with its folded form.
    The output is that sequence put through the canonicalization, which
    comes after deduplication: it is free of case-insensitive duplicates
    exactly when the dictionary sends no two of the kept tokens to forms
    that fold alike, and it is the deduplicated sequence itself when the
    dictionary is empty. *)
Theorem C7_skills_unique_first_seen
    (stopped : string -> bool) (is_bullet : Ascii.ascii -> bool)
    (dictionary : gmap string string) (section : string) :
  let tokens := skill_tokens stopped is_bullet section in
  let kept := dedupe fold ∅ tokens in
  let out := SkillsExtractor fold stopped is_bullet dictionary section in
  NoDup (fold <$> kept)
  /\ kept `sublist_of` tokens
  /\ (forall t, t ∈ tokens -> fold t ∈ fold <$> kept)
  /\ (forall u, u ∈ kept ->
        exists pre post, tokens = (pre ++ u :: post)%list /\ fold u ∉ fold <$> pre)
  /\ out = canonical fold dictionary <$> kept
  /\ (NoDup (fold <$> out) <->
      forall t u, t ∈ kept -> u ∈ kept ->
        fold (canonical fold dictionary t) = fold (canonical fold dictionary u) -> t = u)
  /\ (dictionary = ∅ -> out = kept).
Proof.
  intros tokens kept out.
  assert (Hk : NoDup (fold <$> kept)) by apply dedupe_NoDup.
  split; [exact Hk|]. split; [apply dedupe_sublist|]. split.
  { intros t Ht. destruct (dedupe_covers ∅ tokens t Ht) as [H|H]; [set_solver|exact H]. }
  split; [apply dedupe_first_seen|]. split; [done|]. split.
  - unfold out, SkillsExtractor. fold tokens. fold kept.
    rewrite <- list_fmap_compose. split.
    + intros H t u Ht Hu E. by apply (NoDup_fmap_injective _ _ H t u).
    + intros H. apply NoDup_fmap_2_strong; [exact H | by eapply NoDup_fmap_1].
  - intros ->. unfold out, SkillsExtractor. fold tokens. fold kept.
    rewrite <- (list_fmap_id kept) at 2. apply list_fmap_ext.
    intros _ t _. apply canonical_off.
Qed.

End SkillsFacts.

Section SkillsExamples.

Import Core CoreExample.

(** C7, as stated, fails where the optional canonicalization is in use: the
    tokens JS and JavaScript both survive deduplication, and the dictionary
    of the example of section 4.6 then maps JS to JavaScript, so the output
    holds JavaScript twice. *)
Lemma C7_canonicalization_brings_duplicates :
  SkillsExtractor lower stopped no_bullet {[ "js" := "JavaScript" ]} "JS, JavaScript, Go"
  = ["JavaScript"; "JavaScript"; "Go"]
  /\ ~ NoDup (lower <$> SkillsExtractor lower stopped no_bullet {[ "js" := "JavaScript" ]}
                          "JS, JavaScript, Go").
Proof.
  assert (E : SkillsExtractor lower stopped no_bullet {[ "js" := "JavaScript" ]} "JS, JavaScript, Go"
              = ["JavaScript"; "JavaScript"; "Go"]) by (vm_compute; reflexivity).
  split; [exact E|]. rewrite E.
  intros [Hn _]%NoDup_cons. apply Hn. apply list_elem_of_here.
Qed.

Example skills_of_end_to_end_scenario :
  SkillsExtractor lower stopped no_bullet ∅ "Python, Go, Python" = ["Python"; "Go"].
Proof. vm_compute. reflexivity. Qed.

Example skills_first_casing_wins :
  SkillsExtractor lower stopped no_bullet ∅ "python, PYTHON , --, Go
go,Rust" = ["python"; "Go"; "Rust"].
Proof. vm_compute. reflexivity. Qed.

(** Canonicalization that merges nothing leaves the output free of
    duplicates. *)
Example skills_canonical_form :
  SkillsExtractor lower stopped no_bullet {[ "js" := "JavaScript" ]} "js, Go, JS"
  = ["JavaScript"; "Go"].
Proof. vm_compute. reflexivity. Qed.

(** The same through the whole regex path: the skills of the ParseResult
    hold JavaScript twice. *)
Example skills_of_result_with_dictionary :
  skills (regex_path {| patterns := with_dictionary |} 2026 "ann@example.com
SKILLS
JS, JavaScript, Go") = ["JavaScript"; "JavaScript"; "Go"].
Proof. vm_compute. reflexivity. Qed.

End SkillsExamples.

(** ** Core: graduation year *)
Section GraduationYearFacts.

Import Core CoreExample.

Lemma four_digits_shape (s y : string) :
  four_digits s = Some y ->
  String.length y = 4 /\ all_chars is_digit y = true /\ String.prefix y s = true.
Proof.
  unfold four_digits.
  destruct s as [|a [|b [|c [|d rest]]]]; try discriminate.
  destruct (is_digit a) eqn:Ha, (is_digit b) eqn:Hb, (is_digit c) eqn:Hc,
    (is_digit d) eqn:Hd; simpl; try discriminate.
  intros [= <-]. simpl. rewrite Ha, Hb, Hc, Hd.
  repeat split. destruct (ascii_dec a a), (ascii_dec b b), (ascii_dec c c), (ascii_dec d d);
    try done. by destruct rest.
Qed.

Lemma match_year_cons (c : Ascii.ascii) (rest : string) :
  match_year (String c rest) =
  match four_digits (String c rest) with
  | Some y => Some y
  | None => match_year rest
  end.
Proof. reflexivity. Qed.

(** The match is four digits standing in the entry. *)
Lemma match_year_shape (entry y : string) :
  match_year entry = Some y ->
  String.length y = 4 /\ all_chars is_digit y = true
  /\ exists before after, entry = before +:+ y +:+ after.
Proof.
  induction entry as [|c rest IH].
  - discriminate.
  - rewrite match_year_cons.
    destruct (four_digits (String c rest)) as [y'|] eqn:E.
    + intros [= ->]. destruct (four_digits_shape _ _ E) as (Hl & Hd & Hp).
      repeat split; [done..|]. exists "".
      revert Hp. generalize (String c rest). clear.
      induction y as [|a y IH]; intros s Hp.
      * by exists s.
      * destruct s as [|b s]; [done|]. simpl in Hp.
        destruct (ascii_dec a b) as [->|]; [|done].
        destruct (IH s Hp) as (after & ->). by exists after.
    + intros H. destruct (IH H) as (Hl & Hd & before & after & ->).
      repeat split; [done..|]. by exists (String c before), after.
Qed.

Lemma graduation_year_of_cases (current_year : Z) (entry y : string) :
  match_year entry = Some y ->
  graduation_year_of current_year entry =
  if decide (1950 <= year_value y <= current_year + 10)%Z then (y, [])
  else ("", [FIELD_EXTRACTION_GAP "graduation_year"]).
Proof.
  intros Hm. unfold graduation_year_of, plausible_year. rewrite Hm.
  destruct (Z.leb_spec 1950 (year_value y)), (Z.leb_spec (year_value y) (current_year + 10));
    simpl; destruct (decide _); try done; lia.
Qed.

(** The entry takes its year, and its warning for the year, from
    [graduation_year_of]. *)
Lemma education_entry_year (cfg : Config) (current_year : Z) (entry : list string) :
  graduation_year (education_entry cfg current_year entry).1.1
    = (graduation_year_of current_year (unlines entry)).1
  /\ (FIELD_EXTRACTION_GAP "graduation_year" ∈ (education_entry cfg current_year entry).2 <->
      FIELD_EXTRACTION_GAP "graduation_year"
        ∈ (graduation_year_of current_year (unlines entry)).2).
Proof.
  unfold education_entry.
  destruct (first_match (degree_rules (patterns cfg)) (unlines entry)) as [[d t]|];
    destruct (field_of_study_rule (patterns cfg) (unlines entry));
    destruct (institution_heuristic (patterns cfg) (unlines entry));
    destruct (graduation_year_of current_year (unlines entry)) as [y wy];
    simpl; (split; [done|]); rewrite ?elem_of_cons;
    (split; [intros H; repeat (destruct H as [H|H]; [discriminate H|]); exact H | tauto]).
Qed.

(** C6: for every education entry, a matched four-digit year is the value
    of graduation_year exactly when it lies in [1950, current_year + 10]; a
    matched year outside the range leaves the field empty and records a
    warning for the field; the field never holds anything but the matched
    digits or the empty string. *)
Theorem C6_graduation_year_in_range_or_empty
    (cfg : Config) (current_year : Z) (entry : list string) (y : string) :
  match_year (unlines entry) = Some y ->
  let e := education_entry cfg current_year entry in
  ((1950 <= year_value y <= current_year + 10)%Z ->
     graduation_year e.1.1 = y /\ FIELD_EXTRACTION_GAP "graduation_year" ∉ e.2)
  /\ (~ (1950 <= year_value y <= current_year + 10)%Z ->
     graduation_year e.1.1 = "" /\ FIELD_EXTRACTION_GAP "graduation_year" ∈ e.2)
  /\ (graduation_year e.1.1 = y \/ graduation_year e.1.1 = "").
Proof.
  intros Hm e. destruct (education_entry_year cfg current_year entry) as [Hy Hw].
  fold e in Hy, Hw. rewrite Hy, Hw.
  rewrite (graduation_year_of_cases _ _ _ Hm).
  destruct (decide _) as [Hin|Hout]; simpl.
  - split; [intros _; split; [done | apply not_elem_of_nil]|].
    split; [tauto | by left].
  - split; [tauto|].
    split; [intros _; split; [done | apply list_elem_of_here] | by right].
Qed.

Lemma C6_graduation_year_witness :
  match_year (unlines ["BS Computer Science, MIT, 2020"]) = Some "2020"
  /\ ((1950 <= year_value "2020" <= 2026 + 10)%Z ->
       graduation_year
         (education_entry sample_config 2026 ["BS Computer Science, MIT, 2020"]).1.1 = "2020"
       /\ FIELD_EXTRACTION_GAP "graduation_year"
            ∉ (education_entry sample_config 2026 ["BS Computer Science, MIT, 2020"]).2)
  /\ (~ (1950 <= year_value "2020" <= 2026 + 10)%Z ->
       graduation_year
         (education_entry sample_config 2026 ["BS Computer Science, MIT, 2020"]).1.1 = ""
       /\ FIELD_EXTRACTION_GAP "graduation_year"
            ∈ (education_entry sample_config 2026 ["BS Computer Science, MIT, 2020"]).2)
  /\ (graduation_year
        (education_entry sample_config 2026 ["BS Computer Science, MIT, 2020"]).1.1 = "2020"
      \/ graduation_year
           (education_entry sample_config 2026 ["BS Computer Science, MIT, 2020"]).1.1 = "").
Proof.
  split; [reflexivity|].
  apply (C6_graduation_year_in_range_or_empty sample_config 2026
           ["BS Computer Science, MIT, 2020"] "2020").
  reflexivity.
Defined.

Example year_too_early_is_dropped :
  graduation_year_of 2026 "B.A. History, Oxford, 1890"
  = ("", [FIELD_EXTRACTION_GAP "graduation_year"]).
Proof. reflexivity. Qed.

Example year_too_late_is_dropped :
  graduation_year_of 2026 "PhD Physics, expected 2037"
  = ("", [FIELD_EXTRACTION_GAP "graduation_year"])
  /\ graduation_year_of 2026 "PhD Physics, expected 2036" = ("2036", []).
Proof. split; reflexivity. Qed.

End GraduationYearFacts.

(** ** Core: the pipeline as a transition system *)
Section PipelineFacts.

Import Core.

Variable cfg : Config.





Section OneInvocation.

Variable current_year : Z.

Lemma terminal_stuck (method : Method) (s s' : PipelineState) :
  terminal s -> ~ step cfg current_year method s s'.
Proof. intros Ht Hs. destruct Hs; exact Ht. Qed.

(** Under the regex method every state has at most one successor. *)
Lemma step_regex_deterministic (s s1 s2 : PipelineState) :
  step cfg current_year regex s s1 -> step cfg current_year regex s s2 -> s1 = s2.
Proof.
  intros H1 H2.
  destruct H1; inversion H2; subst; try congruence.
Qed.

Lemma reaches_regex_unique (s t1 t2 : PipelineState) :
  reaches cfg current_year regex s t1 -> reaches cfg current_year regex s t2 ->
  terminal t1 -> terminal t2 -> t1 = t2.
Proof.
  intros H1. revert t2. induction H1 as [s|s s' t1 Hstep Hrest IH]; intros t2 H2 Ht1 Ht2.
  - inversion H2 as [|? s'' ? Hstep' ?]; subst; [done|].
    by destruct (terminal_stuck regex s s'').
  - inversion H2 as [|? s'' ? Hstep' Hrest']; subst.
    + by destruct (terminal_stuck regex t2 s').
    + rewrite (step_regex_deterministic _ _ _ Hstep' Hstep) in Hrest'. by apply IH.
Qed.

(** The regex path always completes, with [regex_path] as its result. *)
Lemma regex_path_reaches (text : string) :
  reaches cfg current_year regex (SECTION_DETECTION text)
    (DONE (regex_path cfg current_year text)).
Proof.
  eapply rtc_l; [apply step_sections|].
  eapply rtc_l; [apply step_extract|].
  eapply rtc_l; [apply step_score|].
  eapply rtc_l; [apply step_done|].
  apply rtc_refl.
Qed.

Lemma regex_path_result (text : string) (r : ParseResult) :
  reaches cfg current_year regex (SECTION_DETECTION text) (DONE r) ->
  r = regex_path cfg current_year text.
Proof.
  intros Hr.
  pose proof (reaches_regex_unique _ _ _ Hr (regex_path_reaches text) I I) as E.
  by injection E.
Qed.

(** The whole pipeline under the regex method has one outcome per input and
    year. *)
Lemma pipeline_regex_outcome_unique (raw : string) (t1 t2 : PipelineState) :
  reaches cfg current_year regex (INIT raw) t1 ->
  reaches cfg current_year regex (INIT raw) t2 ->
  terminal t1 -> terminal t2 -> t1 = t2.
Proof. apply reaches_regex_unique. Qed.

(** Normalization brings in no letter. *)
Lemma blank_not_alpha (c : Ascii.ascii) : Ascii.is_space c = true -> is_alpha c = false.
Proof. destruct c as [[] [] [] [] [] [] [] []]; simpl; done. Qed.

Lemma collapse_letters (after_blank : bool) (s : string) :
  some_char is_alpha (collapse after_blank s) = some_char is_alpha s.
Proof.
  revert after_blank. induction s as [|c rest IH]; intros after_blank; simpl; [done|].
  destruct (is_blank c) eqn:Hb.
  - assert (Hc : is_alpha c = false).
    { apply blank_not_alpha. unfold is_blank in Hb. by apply andb_true_iff in Hb as [? _]. }
    rewrite Hc. destruct after_blank; simpl; apply IH.
  - simpl. by rewrite IH.
Qed.

Lemma dehyphenate_letters (s : string) :
  some_char is_alpha (dehyphenate s) = true -> some_char is_alpha s = true.
Proof.
  enough (H : (some_char is_alpha (dehyphenate s) = true -> some_char is_alpha s = true)
              /\ forall c, some_char is_alpha (dehyphenate (String c s)) = true ->
                           some_char is_alpha (String c s) = true) by apply H.
  induction s as [|a s IH].
  - split; [done|]. intros c. simpl. by rewrite andb_false_r.
  - destruct IH as [IH1 IH2]. split; [apply IH2|]. intros c.
    change (dehyphenate (String c (String a s))) with
      (if Ascii.eqb c "-" && wrapped (String a s) then dehyphenate s
       else String c (dehyphenate (String a s))).
    destruct (Ascii.eqb c "-" && wrapped (String a s)).
    + intros H%IH1. simpl. rewrite H. by rewrite !orb_true_r.
    + change (some_char is_alpha (String c ?x)) with (is_alpha c || some_char is_alpha x).
      intros [Hc|H]%orb_true_iff.
      * simpl. by rewrite Hc.
      * apply IH2 in H. simpl in *. rewrite H. by rewrite orb_true_r.
Qed.

Lemma whitespace_has_no_letter (raw : string) :
  all_chars Ascii.is_space raw = true -> some_char is_alpha raw = false.
Proof.
  induction raw as [|c rest IH]; simpl; [done|].
  intros [Hc Hr]%andb_true_iff. by rewrite (blank_not_alpha c Hc), IH.
Qed.

Lemma blank_input_has_no_letter (raw : string) :
  all_chars Ascii.is_space raw = true \/ some_char is_alpha (normalize raw) = false ->
  some_char is_alpha (normalize raw) = false.
Proof.
  intros [Hw|H]; [|exact H].
  apply whitespace_has_no_letter in Hw.
  destruct (some_char is_alpha (normalize raw)) eqn:E; [|done].
  unfold normalize in E. rewrite collapse_letters in E.
  apply dehyphenate_letters in E. congruence.
Qed.

Lemma TextNormalizer_invalid (raw : string) :
  some_char is_alpha (normalize raw) = false -> TextNormalizer raw = inl INVALID_INPUT.
Proof. intros H. unfold TextNormalizer. rewrite H. by rewrite orb_true_r. Qed.

(** C5: an input that is empty or all white space, or more generally one
    whose normalized text has no letter, makes the pipeline fail with
    INVALID_INPUT, whatever the method; and a run on it only ever visits
    INIT, NORMALIZING and that failure, never a stage in which a section
    detector, an extractor or the LLM adapter runs. *)
Theorem C5_blank_input_fails_before_extraction (method : Method) (raw : string) :
  all_chars Ascii.is_space raw = true \/ some_char is_alpha (normalize raw) = false ->
  reaches cfg current_year method (INIT raw) (FAILED INVALID_INPUT)
  /\ (forall s, reaches cfg current_year method (INIT raw) s ->
        (s = INIT raw \/ s = NORMALIZING raw \/ s = FAILED INVALID_INPUT)
        /\ past_normalization s = false).
Proof.
  intros H%blank_input_has_no_letter%TextNormalizer_invalid. split.
  - destruct (decide (raw = "")) as [->|Hne].
    + eapply rtc_l; [apply step_empty | apply rtc_refl].
    + eapply rtc_l; [by apply step_start|].
      eapply rtc_l; [by apply step_invalid | apply rtc_refl].
  - assert (Hclosed : forall s s',
      s = INIT raw \/ s = NORMALIZING raw \/ s = FAILED INVALID_INPUT ->
      step cfg current_year method s s' ->
      s' = INIT raw \/ s' = NORMALIZING raw \/ s' = FAILED INVALID_INPUT).
    { intros s s' [-> | [-> | ->]] Hs; inversion Hs as [| | ? e He | | | | | | | |]; subst;
        auto; try congruence.
      right; right. f_equal. congruence. }
    assert (Hall : forall s s',
      reaches cfg current_year method s s' ->
      s = INIT raw \/ s = NORMALIZING raw \/ s = FAILED INVALID_INPUT ->
      s' = INIT raw \/ s' = NORMALIZING raw \/ s' = FAILED INVALID_INPUT).
    { intros s s' Hr. induction Hr as [|s s1 s2 Hs _ IH]; [done|].
      intros Hin. apply IH. by apply (Hclosed s). }
    intros s Hr. pose proof (Hall _ _ Hr (or_introl eq_refl)) as Hs.
    split; [exact Hs|]. by destruct Hs as [-> | [-> | ->]].
Qed.

End OneInvocation.


(** In one and the same year the hypothesis on the matched years holds of
    itself. *)
Lemma regex_path_same_year (text : string) (current_year : Z) (r1 r2 : ParseResult) :
  reaches cfg current_year regex (SECTION_DETECTION text) (DONE r1) ->
  reaches cfg current_year regex (SECTION_DETECTION text) (DONE r2) ->
  r1 = r2.
Proof.
  intros H1 H2.
  by rewrite (regex_path_result _ _ _ H1), (regex_path_result _ _ _ H2).
Qed.

End PipelineFacts.

Section PipelineWitnesses.

Import Core CoreExample.


End PipelineWitnesses.



Lemma C5_blank_input_witness :
  (Core.all_chars Ascii.is_space "   
	 " = true
   \/ Core.some_char Core.is_alpha (Core.normalize "   
	 ") = false)
  /\ Core.reaches CoreExample.sample_config 2026 llm (Core.INIT "   
	 ") (Core.FAILED Core.INVALID_INPUT)
  /\ (forall s, Core.reaches CoreExample.sample_config 2026 llm (Core.INIT "   
	 ") s ->
        (s = Core.INIT "   
	 " \/ s = Core.NORMALIZING "   
	 " \/ s = Core.FAILED Core.INVALID_INPUT)
        /\ Core.past_normalization s = false).
Proof.
  split; [left; reflexivity|].
  apply (C5_blank_input_fails_before_extraction CoreExample.sample_config 2026 llm).
  left; reflexivity.
Defined.

Section PipelineExamples.

Import Core CoreExample.

(** The end-to-end scenario of section 8 under the sample tables. *)
Example scenario_result :
  let r := regex_path sample_config 2026 scenario in
  email (contact r) = "john@example.com"
  /\ phone (contact r) = "555-123-4567"
  /\ graduation_year <$> education r = ["2020"]
  /\ skills r = ["Python"; "Go"]
  /\ completeness r = FULL.
Proof. vm_compute. done. Qed.

(** Digits alone are no resume text: INVALID_INPUT although the input is
    not white space. *)
Example digits_only_is_invalid : TextNormalizer "12345 678" = inl INVALID_INPUT.
Proof. reflexivity. Qed.

(** The LLM path is not a function of the text: the reply of the
    collaborator decides. *)
Example llm_path_depends_on_reply :
  exists r1 r2,
    reaches sample_config 2026 llm (LLM_EXTRACTING scenario) (DONE r1)
    /\ reaches sample_config 2026 llm (LLM_EXTRACTING scenario) (DONE r2)
    /\ warnings r1 = [LLM_TIMEOUT]
    /\ warnings r2 = [LLM_MALFORMED_RESPONSE]
    /\ completeness r1 = NONE.
Proof.
  eexists _, _. split; [|split].
  - eapply rtc_l; [apply (step_llm_reply _ _ _ _ TimedOut TimedOut); reflexivity|].
    eapply rtc_l; [apply step_done | apply rtc_refl].
  - eapply rtc_l;
      [apply (step_llm_reply _ _ _ _ (Completion "not json") (Completion "{")); reflexivity|].
    eapply rtc_l; [apply step_done | apply rtc_refl].
  - vm_compute. done.
Qed.

End PipelineExamples.

(* ===================================================================== *)
(** * Part III. Further properties of the calling layer                   *)
(* ===================================================================== *)

(** ** services/api.js *)
Section ApiFacts.

Lemma app_nonempty_l (a b : string) : a <> "" -> a +:+ b <> "".
Proof. by destruct a. Qed.

Lemma app_nonempty_r (a b : string) : b <> "" -> a +:+ b <> "".
Proof. intros Hb. destruct a; [exact Hb | done]. Qed.

Lemma digits_nonempty (k : nat) (s : Z) : (1 <= k)%nat -> JsNumber.digits k s <> "".
Proof. destruct k as [|k]; [lia|]. intros _. simpl. by apply app_nonempty_r. Qed.

Lemma shortest_from (fuel : nat) (m e n : Z) (k : nat) :
  (k <= (JsNumber.shortest fuel m e n k).1)%nat.
Proof.
  revert k. induction fuel as [|fuel IH]; intros k; cbn [JsNumber.shortest].
  - destruct (JsNumber.rounds_to _ _ _), (JsNumber.rounds_to _ _ _);
      repeat (destruct (JsNumber.qlt _ _)); try destruct (Z.even _); simpl; lia.
  - destruct (JsNumber.rounds_to _ _ _), (JsNumber.rounds_to _ _ _);
      repeat (destruct (JsNumber.qlt _ _)); try destruct (Z.even _); simpl; try lia.
    specialize (IH (S k)). lia.
Qed.

Lemma layout_nonempty (k : nat) (s n : Z) : (1 <= k)%nat -> JsNumber.layout k s n <> "".
Proof.
  intros Hk. pose proof (digits_nonempty k s Hk) as Hd. unfold JsNumber.layout.
  destruct (_ && _); [by apply app_nonempty_l|].
  destruct (_ && _); [by apply app_nonempty_r, app_nonempty_l|].
  destruct (_ && _); [by apply app_nonempty_l|].
  destruct (k =? 1)%nat; [by apply app_nonempty_l|].
  by apply app_nonempty_r, app_nonempty_l.
Qed.

(** A number always has a string form. *)
Lemma toString_nonempty (x : float) : JsNumber.toString x <> "".
Proof.
  assert (H : forall m e, JsNumber.positive_toString m e <> "").
  { intros m e. unfold JsNumber.positive_toString.
    pose proof (shortest_from 17 m e
                  (JsNumber.decade 640 (JsNumber.qmul (m, 1%Z) (JsNumber.pow 2 e)) (-324)) 1)
      as Hk.
    destruct (JsNumber.shortest _ _ _ _ _) as [k s]. simpl in Hk.
    destruct (_ =? _)%Z; by apply layout_nonempty. }
  unfold JsNumber.toString.
  destruct (Prim2SF x) as [[]|[]| |[] m e]; try done; try apply H.
Qed.

(** A truthy value whose string form is empty is an array. *)
Lemma empty_text_of_array (d : Json) :
  truthy_json d = true -> ToString d = Some "" -> exists elements, d = JArr elements.
Proof.
  destruct d as [|[]|x|s|elements|fields]; try done.
  - intros _ [= H]. by destruct (toString_nonempty x).
  - cbn [truthy_json ToString]. intros Hs [= ->]. done.
  - eauto.
  - cbn [ToString]. by destruct (own_property _ _).
Qed.

Lemma detail_or_unknown_truthy (data : Json) :
  truthy_json (Api.detail_or_unknown data) = true.
Proof.
  unfold Api.detail_or_unknown. destruct (property data "detail") as [d|]; [|done].
  by destruct (truthy_json d) eqn:E.
Qed.

Lemma detail_or_unknown_array (data : Json) (elements : list Json) :
  Api.detail_or_unknown data = JArr elements ->
  property data "detail" = Some (JArr elements).
Proof.
  unfold Api.detail_or_unknown. destruct (property data "detail") as [d|]; [|done].
  destruct (truthy_json d); [by intros -> | done].
Qed.

Lemma detail_or_unknown_not_text (data : Json) :
  ToString (Api.detail_or_unknown data) = None ->
  exists d, property data "detail" = Some d /\ ToString d = None.
Proof.
  unfold Api.detail_or_unknown. destruct (property data "detail") as [d|]; [|done].
  destruct (truthy_json d); [eauto | done].
Qed.

(** The message of the [Error] is empty only for a detail that is an array;
    no message at all means a null body or a detail without a string form. *)
Lemma error_message_cases (status : Z) (data : Json) :
  match Api.error_message status data with
  | Some message =>
      message = "" -> exists elements, property data "detail" = Some (JArr elements)
  | None =>
      data = JNull \/ exists d, property data "detail" = Some d /\ ToString d = None
  end.
Proof.
  assert (Htext : match ToString (Api.detail_or_unknown data) with
                  | Some message =>
                      message = "" ->
                      exists elements, property data "detail" = Some (JArr elements)
                  | None => exists d, property data "detail" = Some d /\ ToString d = None
                  end).
  { destruct (ToString (Api.detail_or_unknown data)) as [text|] eqn:E.
    - intros ->. destruct (empty_text_of_array _ (detail_or_unknown_truthy data) E)
        as [elements H]. exists elements. by apply detail_or_unknown_array.
    - by apply detail_or_unknown_not_text. }
  unfold Api.error_message.
  destruct data as [|b|x|s|elements|fields]; [by left|..];
    (destruct (status =? 400)%Z;
      [destruct (ToString _); [simpl; by intros ?%app_nonempty_l | by right] |];
     destruct (status =? 413)%Z; [done|];
     destruct (status =? 422)%Z; [destruct (ToString _); [exact Htext | by right] |];
     destruct (status =? 500)%Z; [done|];
     destruct (ToString _); [exact Htext | by right]).
Qed.

(** X1: [parseResume] returns [response.data] exactly when the request
    resolved (null when the body was null); in every other case it throws.
    The message of the [Error] it throws is empty only when the detail of
    the error response is an array (the string form of [[]] is empty); and
    what it throws is a TypeError of the engine, not an [Error] of its own,
    only when the error body is null or its detail has no string form. *)
Theorem X1_parseResume_returns_or_explains
    (env : option string) (server : Request -> AxiosOutcome) (file : File) :
  match Api.parseResume env server file with
  | Returned data => server (Api.request env file) = Resolved data
  | ReturnedNull => server (Api.request env file) = ResolvedNull
  | Thrown message =>
      (forall data, server (Api.request env file) <> Resolved data)
      /\ server (Api.request env file) <> ResolvedNull
      /\ (message = "" ->
          exists status body elements,
            server (Api.request env file) = RejectedResponse status body
            /\ property body "detail" = Some (JArr elements))
  | ThrownTypeError =>
      exists status body,
        server (Api.request env file) = RejectedResponse status body
        /\ (body = JNull
            \/ exists d, property body "detail" = Some d /\ ToString d = None)
  end.
Proof.
  unfold Api.parseResume.
  destruct (server (Api.request env file)) as [data| |status body|code|]; simpl; try done.
  pose proof (error_message_cases status body) as H.
  destruct (Api.error_message status body) as [message|]; simpl.
  - split; [done|]. split; [done|]. intros E. destruct (H E) as [elements He]. eauto.
  - eauto.
Qed.

(** X2: for an error response whose body is not null and has no [detail],
    or a falsy one (null, false, 0, the empty string), the message is
    "Unknown error occurred" (after "Invalid file: " for status 400),
    unless the status is 413 or 500. *)
Theorem X2_missing_detail_falls_back (status : Z) (data : Json) :
  data <> JNull ->
  (property data "detail" = None
   \/ exists d, property data "detail" = Some d /\ truthy_json d = false) ->
  status <> 413%Z -> status <> 500%Z ->
  Api.error_message status data =
  Some (if (status =? 400)%Z then "Invalid file: Unknown error occurred"
        else "Unknown error occurred").
Proof.
  intros Hn Hd H413 H500.
  assert (E : Api.detail_or_unknown data = JStr "Unknown error occurred").
  { unfold Api.detail_or_unknown. destruct Hd as [-> | (d & -> & ->)]; done. }
  unfold Api.error_message. rewrite E. destruct data; try done;
    (destruct (Z.eqb_spec status 400); [done|];
     destruct (Z.eqb_spec status 413); [done|];
     destruct (Z.eqb_spec status 422); [done|];
     destruct (Z.eqb_spec status 500); done).
Qed.

Lemma X2_missing_detail_witness :
  JObj [("detail", JStr "")] <> JNull
  /\ (property (JObj [("detail", JStr "")]) "detail" = None
      \/ exists d, property (JObj [("detail", JStr "")]) "detail" = Some d
                   /\ truthy_json d = false)
  /\ Api.error_message 404 (JObj [("detail", JStr "")]) = Some "Unknown error occurred".
Proof.
  split; [discriminate|]. split; [right; by exists (JStr "")|].
  apply (X2_missing_detail_falls_back 404 (JObj [("detail", JStr "")]));
    [discriminate | right; by exists (JStr "") | lia | lia].
Defined.

(** What the fallback does not cover. A null body raises a TypeError inside
    the [catch] block; an empty list as detail gives an [Error] with an
    empty message; the list of validation errors of a 422 reads
    "[object Object]". *)
Example error_message_edge_cases :
  Api.error_message 422 JNull = None
  /\ Api.error_message 422 (JObj [("detail", JArr [])]) = Some ""
  /\ Api.error_message 422
       (JObj [("detail", JArr [JObj [("loc", JArr [JStr "body"; JStr "file"]);
                                     ("msg", JStr "Field required")]])])
     = Some "[object Object]"
  /\ Api.error_message 400 (JObj [("detail", JNum 12.5)]) = Some "Invalid file: 12.5".
Proof. vm_compute. done. Qed.

(** [Number::toString] on sample doubles. *)
Example toString_samples :
  JsNumber.toString <$> [1; 100; 1.5; 0.1; (0.1 + 0.2); 1e21; 1e20; 1e-6; 1e-7; 5e-324;
                         1.7976931348623157e308; 1e23; 9007199254740992; (-2.5);
                         123.456; 0.5; 0; 72057594037927936]%float
  = ["1"; "100"; "1.5"; "0.1"; "0.30000000000000004"; "1e+21"; "100000000000000000000";
     "0.000001"; "1e-7"; "5e-324"; "1.7976931348623157e+308"; "1e+23";
     "9007199254740992"; "-2.5"; "123.456"; "0.5"; "0"; "72057594037927940"].
Proof. vm_compute. reflexivity. Qed.

(** X3: the later revision of [parseResume] settles every outcome as the
    first one does, except a request that was aborted on its timeout; and
    for the default method it posts the same form to the same endpoint. *)
Theorem X3_revisions_agree (o : AxiosOutcome) (env : option string) (file : File) :
  o <> RejectedRequest (Some "ECONNABORTED") ->
  ApiWithMethod.settle o = Api.settle o
  /\ url (ApiWithMethod.request env file regex) = url (Api.request env file)
  /\ form (ApiWithMethod.request env file regex) = form (Api.request env file)
  /\ content_type (ApiWithMethod.request env file regex)
     = content_type (Api.request env file).
Proof.
  intros Ho. split; [|done].
  destruct o as [| | |code|]; simpl; try done.
  destruct (bool_decide_reflect (code = Some "ECONNABORTED")) as [->|]; done.
Qed.

Lemma X3_revisions_agree_witness :
  RejectedRequest None <> RejectedRequest (Some "ECONNABORTED")
  /\ ApiWithMethod.settle (RejectedRequest None) = Api.settle (RejectedRequest None)
  /\ url (ApiWithMethod.request None AppExample.resume_pdf regex)
     = url (Api.request None AppExample.resume_pdf)
  /\ form (ApiWithMethod.request None AppExample.resume_pdf regex)
     = form (Api.request None AppExample.resume_pdf)
  /\ content_type (ApiWithMethod.request None AppExample.resume_pdf regex)
     = content_type (Api.request None AppExample.resume_pdf).
Proof.
  split; [discriminate|].
  apply (X3_revisions_agree (RejectedRequest None) None AppExample.resume_pdf).
  discriminate.
Defined.

End ApiFacts.

(** ** App.jsx: screens and sessions *)
Section AppViewFacts.

Import App AppView.

Variable parse : File -> Method -> Settled ParseResponse.

Lemma handle_at_rest (e : Event) (st : State) : at_rest st -> at_rest (handle parse e st).
Proof.
  intros [Hl Hd]. destruct e as [file| |m]; simpl.
  - unfold handleFileSelect. simpl.
    destruct (parse file (parsingMethod st)); simpl; split; try done.
  - by split.
  - by split.
Qed.

Lemma session_at_rest (es : list Event) (st : State) :
  at_rest st -> at_rest (session parse es st).
Proof.
  revert st. induction es as [|e es IH]; intros st H; simpl; [exact H|].
  apply IH, handle_at_rest, H.
Qed.

(** X4: after any sequence of file selections, resets and method choices,
    whatever the parse requests returned, the page is not left on the
    spinner, and when it shows the split view both the PDF file and the
    parsed data are there for the viewer and the form. *)
Theorem X4_session_never_half_loaded (es : list Event) :
  let st := session parse es initial in
  render st <> LoadingScreen
  /\ (render st = SplitView ->
      exists file data, pdfFile st = Some file /\ extractedData st = Some data)
  /\ (render st = UploadScreen -> pdfFile st = None /\ extractedData st = None).
Proof.
  intros st.
  assert (H : at_rest st) by (apply session_at_rest; by split).
  destruct H as [Hl Hd]. unfold render. rewrite Hl.
  destruct (pdfFile st) as [file|] eqn:Ef, (extractedData st) as [data|] eqn:Ed; simpl.
  - split; [done|]. split; [eauto | done].
  - destruct Hd as [_ Hd]. by specialize (Hd eq_refl).
  - destruct Hd as [Hd _]. by specialize (Hd eq_refl).
  - split; [done|]. by split.
Qed.

(** X5: while [handleFileSelect] is waiting the spinner shows; once it has
    finished the split view shows if the parse returned an object, and the
    upload zone if it threw or returned null (line 30 then throws inside
    [try], and the [catch] block clears the state); the reset button always
    leads back to the upload zone. *)
Theorem X5_screen_follows_outcome (file : File) (st : State) :
  render (pending file st) = LoadingScreen
  /\ render (handleFileSelect parse file st) =
       match parse file (parsingMethod st) with
       | Returned _ => SplitView
       | ReturnedNull | Thrown _ | ThrownTypeError => UploadScreen
       end
  /\ render (handleReset st) = UploadScreen
  /\ shown (pending file st) `prefix_of` shown (handleFileSelect parse file st).
Proof.
  repeat split.
  - unfold handleFileSelect. simpl. by destruct (parse file (parsingMethod st)).
  - unfold handleFileSelect. simpl.
    destruct (parse file (parsingMethod st)); simpl; by eexists.
Qed.

End AppViewFacts.

Section MethodHonoured.

Import App AppView.

(** X6: with the later revision of [parseResume], the method chosen in the
    settings is the one that is used: the data put in the form is the answer
    of the server to the request for that method's endpoint. *)
Theorem X6_chosen_method_is_used
    (env : option string) (server : Request -> AxiosOutcome)
    (file : File) (st : State) (m : Method) (data : ParseResponse) :
  server (ApiWithMethod.request env file m) = Resolved data ->
  let st' := handleFileSelect (call_parseResume_with_method env server) file
               (setParsingMethod m st) in
  extractedData st' = Some data
  /\ pdfFile st' = Some file
  /\ render st' = SplitView
  /\ url (ApiWithMethod.request env file m) = ApiWithMethod.endpoint env m.
Proof.
  intros Hs. unfold handleFileSelect, call_parseResume_with_method, ApiWithMethod.parseResume.
  simpl. rewrite Hs. by simpl.
Qed.

Lemma X6_chosen_method_witness :
  llm_only_server AppExample.only_last_name
    (ApiWithMethod.request None AppExample.resume_pdf llm)
  = Resolved AppExample.only_last_name
  /\ extractedData
       (handleFileSelect
          (call_parseResume_with_method None (llm_only_server AppExample.only_last_name))
          AppExample.resume_pdf (setParsingMethod llm initial))
     = Some AppExample.only_last_name
  /\ pdfFile
       (handleFileSelect
          (call_parseResume_with_method None (llm_only_server AppExample.only_last_name))
          AppExample.resume_pdf (setParsingMethod llm initial))
     = Some AppExample.resume_pdf
  /\ render
       (handleFileSelect
          (call_parseResume_with_method None (llm_only_server AppExample.only_last_name))
          AppExample.resume_pdf (setParsingMethod llm initial))
     = SplitView
  /\ url (ApiWithMethod.request None AppExample.resume_pdf llm)
     = ApiWithMethod.endpoint None llm.
Proof.
  split; [reflexivity|].
  apply (X6_chosen_method_is_used None (llm_only_server AppExample.only_last_name)
           AppExample.resume_pdf initial llm AppExample.only_last_name).
  reflexivity.
Defined.

End MethodHonoured.

(** ** components/UploadZone.jsx: sequences of events *)
Section UploadZoneSequences.

Import UploadZone UploadZoneEvents.

Lemma run_cons (e : Event) (es : list Event) (st : State) :
  run (e :: es) st =
  ((run es (handle e st).1).1, ((handle e st).2 ++ (run es (handle e st).1).2)%list).
Proof.
  simpl. destruct (handle e st) as [st1 calls1]. simpl.
  by destruct (run es st1) as [st2 calls2].
Qed.

Lemma drop_calls_pdf (files : list File) (st : State) :
  Forall (fun f => file_type f = "application/pdf") (handleDrop files st).2.
Proof.
  unfold handleDrop. destruct (files !! 0) as [file0|]; simpl; [|constructor].
  destruct (0 <? length files)%nat; simpl; [|constructor].
  destruct (String.eqb_spec (file_type file0) "application/pdf"); simpl;
    repeat constructor; done.
Qed.

(** X7: as long as the file dialog is not used, every file that reaches
    [onFileSelect], over any sequence of drag, drop and settings events, has
    the MIME type 'application/pdf'. *)
Theorem X7_drops_only_pass_pdf (es : list Event) (st : State) :
  existsb is_input es = false ->
  Forall (fun f => file_type f = "application/pdf") (run es st).2.
Proof.
  revert st. induction es as [|e es IH]; intros st Hes; [constructor|].
  simpl in Hes. apply orb_false_iff in Hes as [He Hes].
  rewrite run_cons. simpl. apply Forall_app. split; [|by apply IH].
  destruct e; simpl; try constructor; [apply drop_calls_pdf | discriminate].
Qed.

Lemma X7_drops_only_pass_pdf_witness :
  existsb is_input
    [DragOver; Drop [mkFile "a.png" "image/png" 10]; DragOver; ToggleSettings;
     Drop [mkFile "cv.pdf" "application/pdf" 20; mkFile "b.txt" "text/plain" 1]] = false
  /\ Forall (fun f => file_type f = "application/pdf")
       (run [DragOver; Drop [mkFile "a.png" "image/png" 10]; DragOver; ToggleSettings;
             Drop [mkFile "cv.pdf" "application/pdf" 20; mkFile "b.txt" "text/plain" 1]]
          (UploadZone.mkState false false)).2.
Proof.
  split; [reflexivity|].
  apply (X7_drops_only_pass_pdf
           [DragOver; Drop [mkFile "a.png" "image/png" 10]; DragOver; ToggleSettings;
            Drop [mkFile "cv.pdf" "application/pdf" 20; mkFile "b.txt" "text/plain" 1]]
           (UploadZone.mkState false false)).
  reflexivity.
Defined.

Lemma handle_isDragging (e : Event) (st : State) :
  isDragging (handle e st).1 =
  match e with
  | DragOver => true
  | DragLeave | Drop _ => false
  | _ => isDragging st
  end.
Proof.
  destruct e as [| |files|files|]; simpl; try done.
  - unfold handleDrop. destruct (files !! 0); [|done].
    by destruct ((0 <? length files)%nat && _).
  - unfold handleFileInput. destruct (files !! 0); [|done].
    by destruct (0 <? length files)%nat.
Qed.

Lemma handle_isSettingsOpen (e : Event) (st : State) :
  isSettingsOpen (handle e st).1 =
  match e with
  | ToggleSettings => negb (isSettingsOpen st)
  | _ => isSettingsOpen st
  end.
Proof.
  destruct e as [| |files|files|]; simpl; try done.
  - unfold handleDrop. destruct (files !! 0); [|done].
    by destruct ((0 <? length files)%nat && _).
  - unfold handleFileInput. destruct (files !! 0); [|done].
    by destruct (0 <? length files)%nat.
Qed.

(** X8: after any sequence of events the drop zone is highlighted exactly
    when the most recent drag event was a dragover (a drop or a dragleave
    clears it, the file dialog and the settings button leave it alone), and
    the settings panel is open exactly when it was toggled an odd number of
    times. *)
Theorem X8_highlight_follows_last_drag (es : list Event) (st : State) :
  isDragging (run es st).1 =
    match last (List.filter is_drag es) with
    | Some DragOver => true
    | Some _ => false
    | None => isDragging st
    end
  /\ isSettingsOpen (run es st).1 =
    xorb (isSettingsOpen st)
         (Nat.odd (length (List.filter is_toggle es))).
Proof.
  revert st. induction es as [|e es IH]; intros st.
  - simpl. split; [done|]. by rewrite xorb_false_r.
  - rewrite run_cons. cbn [fst].
    destruct (IH (handle e st).1) as [IH1 IH2]. rewrite IH1, IH2.
    rewrite handle_isDragging, handle_isSettingsOpen. split.
    + destruct e; simpl; rewrite ?last_cons;
        destruct (last (List.filter is_drag es)) as [[]|]; done.
    + destruct e; simpl; try done.
      rewrite Nat.odd_succ, <- Nat.negb_odd.
      by destruct (isSettingsOpen st), (Nat.odd _).
Qed.

End UploadZoneSequences.

(** ** components/PDFViewer.jsx: the control bar *)
Section PDFViewerViewFacts.

Import PDFViewer PDFViewerView.

Local Ltac each_scale H tac :=
  unfold reachable_scales in H; simpl in H;
  repeat (destruct H as [<-|H]; [tac|]); destruct H.

Lemma loaded_run_invariant (n : Z) (before cs : list Control) :
  (1 <= n)%Z ->
  let st := run cs (onDocumentLoadSuccess n (clicks before initial)) in
  numPages st = Some n /\ (1 <= pageNumber st <= n)%Z /\ In (scale st) reachable_scales.
Proof.
  intros Hn st. subst st. split; [by rewrite run_numPages|]. split.
  - apply run_page_bounds; [done|]. simpl.
    rewrite clicks_before_load; [lia|done..].
  - apply run_scale_reachable. simpl.
    apply clicks_scale_reachable, initial_scale_reachable.
Qed.

Lemma disabled_is_noop (n : Z) (c : Control) (st : State) :
  numPages st = Some n -> (1 <= pageNumber st <= n)%Z ->
  In (scale st) reachable_scales ->
  disabled c st = true -> control c st = st.
Proof.
  intros Hn Hp Hs Hd. destruct st as [np p s]. simpl in *. subst np.
  destruct c; simpl in *.
  - apply Z.leb_le in Hd. unfold goToPrevPage, setPageNumber. simpl. f_equal. lia.
  - apply Z.geb_le in Hd. unfold goToNextPage, setPageNumber. simpl. f_equal. lia.
  - unfold zoomIn, setScale. simpl. f_equal.
    each_scale Hs ltac:(first [discriminate Hd | reflexivity]).
  - unfold zoomOut, setScale. simpl. f_equal.
    each_scale Hs ltac:(first [discriminate Hd | reflexivity]).
Qed.

(** X9: once the document has loaded (with at least one page), a button is
    disabled only where its handler would change nothing; so a sequence of
    clicks has the same effect as running the handlers unguarded. *)
Theorem X9_guards_redundant_after_load (n : Z) (before cs : list Control) :
  (1 <= n)%Z ->
  clicks cs (onDocumentLoadSuccess n (clicks before initial))
  = run cs (onDocumentLoadSuccess n (clicks before initial)).
Proof.
  intros Hn. set (st0 := onDocumentLoadSuccess n (clicks before initial)).
  induction cs as [|c cs IH] using rev_ind; [done|].
  unfold clicks, run in *. rewrite !fold_left_app. simpl.
  fold (clicks cs st0) (run cs st0) in *. rewrite IH.
  destruct (loaded_run_invariant n before cs Hn) as (H1 & H2 & H3).
  fold st0 in H1, H2, H3.
  unfold click. destruct (disabled c (run cs st0)) eqn:Hd; [|done].
  symmetry. by apply (disabled_is_noop n).
Qed.

Lemma X9_guards_redundant_witness :
  (1 <= 2)%Z
  /\ clicks [NextPage; NextPage; ZoomOut; ZoomOut; ZoomOut; PrevPage; PrevPage]
       (onDocumentLoadSuccess 2 (clicks [NextPage; ZoomIn] initial))
     = run [NextPage; NextPage; ZoomOut; ZoomOut; ZoomOut; PrevPage; PrevPage]
         (onDocumentLoadSuccess 2 (clicks [NextPage; ZoomIn] initial)).
Proof.
  split; [lia|].
  apply (X9_guards_redundant_after_load 2 [NextPage; ZoomIn]
           [NextPage; NextPage; ZoomOut; ZoomOut; ZoomOut; PrevPage; PrevPage]).
  lia.
Defined.

(** X10: whatever the sequence of control operations, the zoom shown in the
    control bar, [Math.round(scale * 100)], is one of 60, 80, ..., 200: the
    rounding errors of the repeated steps of 0.2 never show. *)
Theorem X10_zoom_label_is_a_multiple_of_20 (cs : list Control) :
  exists k : Z, (3 <= k <= 10)%Z /\ zoom_percent (run cs initial) = Some (20 * k)%Z.
Proof.
  pose proof (run_scale_reachable cs initial initial_scale_reachable) as Hs.
  unfold zoom_percent. generalize dependent (scale (run cs initial)). intros s Hs.
  each_scale Hs ltac:(
    first [ exists 3%Z; split; [lia | vm_compute; reflexivity]
          | exists 4%Z; split; [lia | vm_compute; reflexivity]
          | exists 5%Z; split; [lia | vm_compute; reflexivity]
          | exists 6%Z; split; [lia | vm_compute; reflexivity]
          | exists 7%Z; split; [lia | vm_compute; reflexivity]
          | exists 8%Z; split; [lia | vm_compute; reflexivity]
          | exists 9%Z; split; [lia | vm_compute; reflexivity]
          | exists 10%Z; split; [lia | vm_compute; reflexivity] ]).
Qed.

Lemma run_zoom_in (k : nat) (st : State) :
  scale (run (replicate k ZoomIn) st) = Nat.iter k zoomed_in (scale st).
Proof.
  revert st. induction k as [|k IH]; intros st; [done|].
  simpl. rewrite IH. clear. simpl. generalize (scale st). intros s.
  induction k as [|k IH]; simpl; [done|]. by rewrite IH.
Qed.

Lemma run_zoom_out (k : nat) (st : State) :
  scale (run (replicate k ZoomOut) st) = Nat.iter k zoomed_out (scale st).
Proof.
  revert st. induction k as [|k IH]; intros st; [done|].
  simpl. rewrite IH. clear. simpl. generalize (scale st). intros s.
  induction k as [|k IH]; simpl; [done|]. by rewrite IH.
Qed.

(** X11: from any state the controls can reach, eight zoom-in steps end at
    the scale 2.0 exactly, where the zoom-in button is disabled, and eight
    zoom-out steps end at 0.6 exactly, where the zoom-out button is. *)
Theorem X11_eight_steps_reach_the_limits (cs : list Control) :
  let up := run (replicate 8 ZoomIn) (run cs initial) in
  let down := run (replicate 8 ZoomOut) (run cs initial) in
  scale up = 2.0%float /\ disabled ZoomIn up = true
  /\ scale down = 0.6%float /\ disabled ZoomOut down = true.
Proof.
  intros up down.
  pose proof (run_scale_reachable cs initial initial_scale_reachable) as Hs.
  assert (Hup : scale up = 2.0%float).
  { unfold up. rewrite run_zoom_in. revert Hs.
    generalize (scale (run cs initial)). intros s Hs.
    each_scale Hs ltac:(vm_compute; reflexivity). }
  assert (Hdown : scale down = 0.6%float).
  { unfold down. rewrite run_zoom_out. revert Hs.
    generalize (scale (run cs initial)). intros s Hs.
    each_scale Hs ltac:(vm_compute; reflexivity). }
  repeat split; [done | | done |].
  - change (disabled ZoomIn up) with (2.0 <=? scale up)%float. by rewrite Hup.
  - change (disabled ZoomOut down) with (scale down <=? 0.6)%float. by rewrite Hdown.
Qed.

(** Seven steps are not always enough, and the label can read 200 while the
    zoom-in button is still enabled. *)
Remark seven_steps_fall_short :
  let st := run (replicate 7 ZoomIn) (run (replicate 2 ZoomOut) initial) in
  zoom_percent st = Some 200%Z /\ disabled ZoomIn st = false.
Proof. vm_compute. done. Qed.

Lemma run_next_page (n : Z) (k : nat) (st : State) :
  numPages st = Some n -> (pageNumber st <= n)%Z ->
  pageNumber (run (replicate k NextPage) st) = Z.min (pageNumber st + Z.of_nat k) n.
Proof.
  revert st. induction k as [|k IH]; intros st Hn Hp.
  - simpl. lia.
  - cbn [replicate run fold_left]. fold (run (replicate k NextPage) (control NextPage st)).
    rewrite Nat2Z.inj_succ.
    assert (E : pageNumber (control NextPage st) = Z.min (pageNumber st + 1) n)
      by (cbn; by rewrite Hn).
    rewrite IH; [rewrite E; lia | by rewrite control_numPages | rewrite E; lia].
Qed.

Lemma run_prev_page (k : nat) (st : State) :
  (1 <= pageNumber st)%Z ->
  pageNumber (run (replicate k PrevPage) st) = Z.max (pageNumber st - Z.of_nat k) 1.
Proof.
  revert st. induction k as [|k IH]; intros st Hp.
  - simpl. lia.
  - cbn [replicate run fold_left]. fold (run (replicate k PrevPage) (control PrevPage st)).
    rewrite Nat2Z.inj_succ.
    assert (E : pageNumber (control PrevPage st) = Z.max (pageNumber st - 1) 1) by done.
    rewrite IH; rewrite E; lia.
Qed.

(** X12: once a document of [n] pages has loaded, [k] steps forward from
    page [p] lead to page [min (p + k) n] and [k] steps back to page
    [max (p - k) 1]; so every page from 1 to [n] can be reached and none
    outside. *)
Theorem X12_page_steps (n : Z) (cs : list Control) (k : nat) :
  (1 <= n)%Z ->
  let st := run cs (onDocumentLoadSuccess n initial) in
  pageNumber (run (replicate k NextPage) st) = Z.min (pageNumber st + Z.of_nat k) n
  /\ pageNumber (run (replicate k PrevPage) st) = Z.max (pageNumber st - Z.of_nat k) 1.
Proof.
  intros Hn st.
  assert (H : numPages st = Some n /\ (1 <= pageNumber st <= n)%Z
              /\ In (scale st) reachable_scales)
    by exact (loaded_run_invariant n [] cs Hn).
  destruct H as (H1 & H2 & _).
  split; [apply run_next_page; [done | lia] | apply run_prev_page; lia].
Qed.

Lemma X12_page_steps_witness :
  (1 <= 5)%Z
  /\ pageNumber (run (replicate 2 NextPage)
                   (run [NextPage; ZoomIn; NextPage] (onDocumentLoadSuccess 5 initial)))
     = Z.min (pageNumber (run [NextPage; ZoomIn; NextPage] (onDocumentLoadSuccess 5 initial))
              + Z.of_nat 2) 5
  /\ pageNumber (run (replicate 2 PrevPage)
                   (run [NextPage; ZoomIn; NextPage] (onDocumentLoadSuccess 5 initial)))
     = Z.max (pageNumber (run [NextPage; ZoomIn; NextPage] (onDocumentLoadSuccess 5 initial))
              - Z.of_nat 2) 1.
Proof.
  split; [lia|].
  apply (X12_page_steps 5 [NextPage; ZoomIn; NextPage] 2). lia.
Defined.

End PDFViewerViewFacts.


(** ** ResumeForm.jsx: the text boxes *)
Section FormTextFacts.

Import ResumeForm ResumeFormView.

Lemma split_nonempty (sep : Ascii.ascii) (s : string) : JsString.split sep s <> [].
Proof.
  destruct s as [|c rest]; simpl; [done|].
  destruct (Ascii.eqb c sep); [done|]. by destruct (JsString.split sep rest).
Qed.

Lemma split_cons_sep (sep : Ascii.ascii) (s : string) :
  JsString.split sep (String sep s) = "" :: JsString.split sep s.
Proof. simpl. by rewrite Ascii.eqb_refl. Qed.

Lemma split_cons_other (sep c : Ascii.ascii) (s : string) :
  c <> sep ->
  JsString.split sep (String c s) =
  match JsString.split sep s with
  | tok :: toks => String c tok :: toks
  | [] => [String c ""]
  end.
Proof. intros H. simpl. by destruct (Ascii.eqb_spec c sep). Qed.

Lemma join_cons_char (sep : string) (c : Ascii.ascii) (tok : string) (toks : list string) :
  join sep (String c tok :: toks) = String c (join sep (tok :: toks)).
Proof. by destruct toks. Qed.

Lemma join_cons_empty (sep : Ascii.ascii) (tok : string) (toks : list string) :
  join (String sep "") ("" :: tok :: toks) = String sep (join (String sep "") (tok :: toks)).
Proof. done. Qed.

Lemma join_split (sep : Ascii.ascii) (s : string) :
  join (String sep "") (JsString.split sep s) = s.
Proof.
  induction s as [|c rest IH]; [done|].
  pose proof (split_nonempty sep rest) as Hn.
  destruct (Ascii.eqb_spec c sep) as [->|Hne].
  - rewrite split_cons_sep.
    destruct (JsString.split sep rest) as [|tok toks]; [done|].
    by rewrite join_cons_empty, IH.
  - rewrite split_cons_other by done.
    destruct (JsString.split sep rest) as [|tok toks]; [done|].
    by rewrite join_cons_char, IH.
Qed.

Lemma join_cons_cons (sep a b : string) (l : list string) :
  join sep (a :: b :: l) = a +:+ sep +:+ join sep (b :: l).
Proof. done. Qed.

Lemma split_plain (sep : Ascii.ascii) (s : string) :
  has_char sep s = false -> JsString.split sep s = [s].
Proof.
  induction s as [|c rest IH]; [done|]. simpl.
  intros [Hc Hr]%orb_false_iff. rewrite Hc, (IH Hr). done.
Qed.

Lemma split_app_sep (sep : Ascii.ascii) (a rest : string) :
  has_char sep a = false ->
  JsString.split sep (a +:+ String sep rest) = a :: JsString.split sep rest.
Proof.
  induction a as [|c a IH]; intros Ha.
  - simpl. by rewrite Ascii.eqb_refl.
  - simpl in Ha. apply orb_false_iff in Ha as [Hc Ha].
    change (String c a +:+ String sep rest) with (String c (a +:+ String sep rest)).
    cbn [JsString.split]. rewrite Hc, (IH Ha). done.
Qed.

Lemma split_join (sep : Ascii.ascii) (l : list string) :
  l <> [] -> Forall (fun s => has_char sep s = false) l ->
  JsString.split sep (join (String sep "") l) = l.
Proof.
  intros Hne Hall. induction Hall as [|a l Ha Hl IH]; [done|].
  destruct l as [|b l].
  - simpl. by apply split_plain.
  - rewrite join_cons_cons. change (String sep "" +:+ ?x) with (String sep x).
    rewrite split_app_sep by done. by rewrite IH.
Qed.

Lemma split_snoc_sep (sep : Ascii.ascii) (s : string) :
  JsString.split sep (s +:+ String sep "") = (JsString.split sep s ++ [""])%list.
Proof.
  induction s as [|c s IH].
  - simpl. by rewrite Ascii.eqb_refl.
  - change (String c s +:+ String sep "") with (String c (s +:+ String sep "")).
    cbn [JsString.split]. rewrite IH.
    destruct (Ascii.eqb c sep); [done|].
    pose proof (split_nonempty sep s) as Hn.
    by destruct (JsString.split sep s).
Qed.

Lemma trim_clean (s : string) : clean s -> JsString.trim s = s.
Proof. by intros (_ & _ & H). Qed.

Lemma trim_space (s : string) : JsString.trim (String " " s) = JsString.trim s.
Proof. done. Qed.

Lemma skills_split (l : list string) :
  Forall clean l ->
  JsString.split "," (join ", " l) =
  match l with [] => [""] | a :: rest => a :: (String " " <$> rest) end.
Proof.
  intros Hall. induction Hall as [|a l Ha Hl IH]; [done|].
  destruct l as [|b l].
  - simpl. apply split_plain, Ha.
  - rewrite join_cons_cons. change (", " +:+ ?x) with (String "," (String " " x)).
    rewrite split_app_sep by apply Ha.
    rewrite split_cons_other by done. rewrite IH. done.
Qed.

Lemma skills_round_trip (l : list string) :
  Forall clean l -> skillsArray (join ", " l) = l.
Proof.
  intros Hall. unfold skillsArray. rewrite skills_split by done.
  destruct Hall as [|a l Ha Hl]; [done|].
  rewrite fmap_cons, trim_clean by done.
  assert (E : JsString.trim <$> (String " " <$> l) = l).
  { induction Hl as [|b l Hb Hl IH]; [done|].
    rewrite !fmap_cons, trim_space, trim_clean, IH; done. }
  rewrite E. cbn [List.filter].
  assert (Hn : forall s, clean s -> JsString.nonempty s = true).
  { intros s (Hs & _). unfold JsString.nonempty. by destruct (String.eqb_spec s ""). }
  rewrite (Hn a Ha). f_equal.
  clear E Ha. induction Hl as [|b l Hb Hl IH]; [done|].
  cbn [List.filter]. by rewrite (Hn b Hb), IH.
Qed.

Lemma trailing_comma_dropped (value : string) :
  skillsArray (value +:+ ",") = skillsArray value.
Proof.
  unfold skillsArray. rewrite split_snoc_sep, fmap_app, List.filter_app. simpl.
  by rewrite app_nil_r.
Qed.

End FormTextFacts.

(** ** ResumeForm.jsx: what the handlers build *)
Section FormHeapFacts.
Import ResumeForm ResumeFormView.

Lemma spread_obj_run (v : val) (h : gmap loc obj) :
  spread_obj v h = (Val (own_props h v), h).
Proof. by destruct v. Qed.

Lemma fresh_lookup (h : gmap loc obj) : h !! fresh (dom h) = None.
Proof. apply not_elem_of_dom, is_fresh. Qed.

Lemma fresh_ne (h : gmap loc obj) (l : loc) (o : obj) : h !! l = Some o -> fresh (dom h) <> l.
Proof. intros H E. rewrite <- E, fresh_lookup in H. done. Qed.

Lemma lookup_alloc (h : gmap loc obj) (l : loc) (o o' : obj) :
  h !! l = Some o -> <[fresh (dom h) := o']> h !! l = Some o.
Proof. intros H. rewrite lookup_insert_ne; [done|]. by eapply fresh_ne. Qed.

Lemma with_field_run (h : gmap loc obj) (l : loc) (fs : gmap string val) (key : string) (v : val) :
  h !! l = Some (Obj fs) ->
  with_field (VRef l) key v h =
  (Val (VRef (fresh (dom h))), <[fresh (dom h) := Obj (<[key := v]> fs)]> h).
Proof. intros H. unfold with_field, bind. rewrite spread_obj_run. simpl. by rewrite H. Qed.

Lemma get_run (h : gmap loc obj) (l : loc) (fs : gmap string val) (key : string) :
  h !! l = Some (Obj fs) ->
  get (VRef l) key h = (Val (default VUndefined (fs !! key)), h).
Proof. intros H. unfold get, bind, deref, ret. by rewrite H. Qed.

Lemma updateEntry_run (h : gmap loc obj) (l a : loc) (fs : gmap string val)
    (key : string) (es : list (option val)) (i : nat) (f : string) (v : val) :
  h !! l = Some (Obj fs) -> fs !! key = Some (VRef a) -> h !! a = Some (Arr es) ->
  let l1 := fresh (dom h) in
  let h1 := <[l1 := Arr (dense es)]> h in
  let entry := default VUndefined (mjoin (dense es !! i)) in
  let l2 := fresh (dom h1) in
  let h2 := <[l2 := Obj (<[f := v]> (own_props h1 entry))]> h1 in
  let h3 := <[l1 := Arr (write (dense es) i (VRef l2))]> h2 in
  let l3 := fresh (dom h3) in
  updateEntry key i f v (VRef l) h
  = (Val (VRef l3), <[l3 := Obj (<[key := VRef l1]> fs)]> h3).
Proof.
  intros Hl Hk Ha l1 h1 entry l2 h2 h3 l3.
  unfold updateEntry, bind. rewrite (get_run _ _ _ _ Hl), Hk. simpl.
  unfold bind, deref, ret. rewrite Ha. simpl. fold (dense es). fold l1 h1.
  unfold index, bind, deref, ret.
  assert (H11 : h1 !! l1 = Some (Arr (dense es))) by apply lookup_insert_eq.
  rewrite H11. fold entry. rewrite spread_obj_run. simpl. fold l2 h2.
  unfold index_set, bind, deref, store.
  assert (H21 : h2 !! l1 = Some (Arr (dense es))).
  { unfold h2, l2. by apply lookup_alloc. }
  rewrite H21. fold h3.
  assert (H3l : h3 !! l = Some (Obj fs)).
  { unfold h3. rewrite lookup_insert_ne by (by eapply fresh_ne).
    unfold h2, l2. apply lookup_alloc. unfold h1, l1. by apply lookup_alloc. }
  by rewrite (with_field_run _ _ _ _ _ H3l).
Qed.


(** Observation-form lemmas. *)

Lemma form_fields_inv (st : State) (fs : gmap string val) :
  form_fields st = Some fs ->
  exists l, formData st = VRef l /\ heap st !! l = Some (Obj fs).
Proof.
  unfold form_fields, object_at. destruct (formData st) as [| | | | |l]; try done.
  destruct (heap st !! l) as [[fs'|]|] eqn:E; try done. intros [= ->]. eauto.
Qed.

Lemma array_at_inv (h : gmap loc obj) (v : val) (es : list (option val)) :
  array_at h v = Some es -> exists a, v = VRef a /\ h !! a = Some (Arr es).
Proof.
  unfold array_at. destruct v as [| | | | |a]; try done.
  destruct (h !! a) as [[|es']|] eqn:E; try done. intros [= ->]. eauto.
Qed.

Lemma entries_inv (st : State) (key : string) (es : list (option val)) :
  entries st key = Some es ->
  exists fs a, form_fields st = Some fs /\ fs !! key = Some a
               /\ array_at (heap st) a = Some es.
Proof.
  unfold entries, category. destruct (form_fields st) as [fs|]; [|done]. simpl.
  destruct (fs !! key) as [a|] eqn:E; [|done]. simpl. eauto.
Qed.

Lemma write_length (es : list (option val)) (i : nat) (x : val) :
  length (write es i x) = Nat.max (length es) (S i).
Proof.
  unfold write. destruct (Nat.ltb_spec i (length es)).
  - rewrite length_insert. lia.
  - rewrite !length_app, length_replicate. simpl. lia.
Qed.



Lemma dense_length (es : list (option val)) : length (dense es) = length es.
Proof. apply length_fmap. Qed.



(** Well-formedness. *)

Lemma returns_ret {A} (a : A) (Q : A -> Prop) : Q a -> returns (ret a) Q.
Proof. intros H h. by exists a, h. Qed.

Lemma returns_bind {A B} (m : JS A) (k : A -> JS B) (P : A -> Prop) (Q : B -> Prop) :
  returns m P -> (forall a, P a -> returns (k a) Q) -> returns (bind m k) Q.
Proof.
  intros Hm Hk h. destruct (Hm h) as (a & h' & E & Ha).
  destruct (Hk a Ha h') as (b & h'' & E' & Hb).
  exists b, h''. unfold bind. by rewrite E.
Qed.

Lemma returns_new (o : obj) : returns (new o) truthy_result.
Proof. intros h. by eexists _, _. Qed.

Lemma returns_get_opt (v : val) (key : string) : returns (get_opt v key) any.
Proof.
  intros h. destruct v; try (by eexists _, _).
Qed.

Lemma returns_length_gt_0 (v : val) : truthy_val v = true -> returns (length_gt_0 v) any.
Proof.
  intros Hv h. destruct v; try done; by eexists _, _.
Qed.

Lemma returns_or_else (x : val) (fallback : JS val) :
  returns fallback truthy_result -> returns (or_else x fallback) truthy_result.
Proof.
  intros Hf. unfold or_else. destruct (truthy_val x) eqn:E; [by apply returns_ret | done].
Qed.

Lemma returns_nonempty_or (x : val) (fallback : JS val) :
  returns fallback truthy_result -> returns (nonempty_or x fallback) truthy_result.
Proof.
  intros Hf. unfold nonempty_or. destruct (truthy_val x) eqn:E; [|done].
  eapply returns_bind; [by apply returns_length_gt_0|].
  intros [] _; [by apply returns_ret | done].
Qed.

Lemma returns_default_experience : returns default_experience truthy_result.
Proof.
  unfold default_experience. eapply returns_bind; [apply returns_new|].
  intros d _. apply returns_new.
Qed.

Lemma returns_singleton (m : JS val) :
  returns m truthy_result -> returns (do x <- m; new (Arr [Some x])) truthy_result.
Proof. intros H. eapply returns_bind; [exact H|]. intros x _. apply returns_new. Qed.

Lemma fields4 (c e w s : val) (key : string) :
  key ∈ ["contact"; "education"; "work_experience"; "skills"] ->
  truthy_val c = true -> truthy_val e = true -> truthy_val w = true -> truthy_val s = true ->
  exists v, fields [("contact", c); ("education", e); ("work_experience", w); ("skills", s)]
              !! key = Some v /\ truthy_val v = true.
Proof.
  intros Hk Hc He Hw Hs. unfold fields. simpl.
  repeat (apply elem_of_cons in Hk as [->|Hk]; [simplify_map_eq; eauto|]).
  by apply elem_of_nil in Hk.
Qed.

Lemma form_of_well_formed (data : val) (st : State) :
  well_formed (setFormData (form_of data) st).
Proof.
  unfold setFormData, form_of.
  destruct (returns_get_opt data "contact" (heap st)) as (c0 & h1 & E1 & _).
  unfold bind at 1. rewrite E1.
  destruct (returns_or_else c0 default_contact (returns_new _) h1) as (c & h2 & E2 & Hc).
  unfold bind at 1. rewrite E2.
  destruct (returns_get_opt data "education" h2) as (e0 & h3 & E3 & _).
  unfold bind at 1. rewrite E3.
  destruct (returns_nonempty_or e0 _ (returns_singleton default_education (returns_new _)) h3)
    as (e & h4 & E4 & He).
  unfold bind at 1. rewrite E4.
  destruct (returns_get_opt data "work_experience" h4) as (w0 & h5 & E5 & _).
  unfold bind at 1. rewrite E5.
  destruct (returns_nonempty_or w0 _ (returns_singleton default_experience returns_default_experience) h5)
    as (w & h6 & E6 & Hw).
  unfold bind at 1. rewrite E6.
  destruct (returns_get_opt data "skills" h6) as (s0 & h7 & E7 & _).
  unfold bind at 1. rewrite E7.
  destruct (returns_or_else s0 _ (returns_new (Arr [])) h7) as (s & h8 & E8 & Hs).
  unfold bind at 1. rewrite E8. unfold new.
  eexists. split.
  - unfold form_fields, object_at. simpl. by rewrite lookup_insert_eq.
  - intros key Hk. by apply fields4.
Qed.

Lemma mount_well_formed (data : val) (h : gmap loc obj) : well_formed (mount data h).
Proof.
  unfold mount. destruct (truthy_val data); apply form_of_well_formed.
Qed.

Lemma replaces_bind {A} (h0 : gmap loc obj) (fs : gmap string val) (key : string)
    (m : JS A) (k : A -> JS val) (P : A -> Prop) :
  preserves h0 m P -> (forall a, P a -> replaces h0 fs key (k a)) ->
  replaces h0 fs key (bind m k).
Proof.
  intros Hm Hk h Hh. unfold bind. destruct (Hm h Hh) as [Hh' Ha].
  destruct (m h) as [[a|] h']; simpl in *; [|done]. by apply Hk.
Qed.

Lemma replaces_with_field (h0 : gmap loc obj) (fs : gmap string val) (key : string)
    (l : loc) (v : val) :
  h0 !! l = Some (Obj fs) -> truthy_val v = true ->
  replaces h0 fs key (with_field (VRef l) key v).
Proof.
  intros Hl Hv h Hh.
  rewrite (with_field_run h l fs key v) by (by eapply lookup_weaken).
  exists (fresh (dom h)), v. by rewrite lookup_insert_eq.
Qed.

Lemma fresh_ref_truthy (h0 : gmap loc obj) (v : val) : fresh_ref h0 v -> truthy_val v = true.
Proof. by intros (l & -> & _). Qed.

Lemma preserves_filter_other_fresh (h0 : gmap loc obj) (a : val) (i : nat) :
  preserves h0 (filter_other a i) (fresh_ref h0).
Proof.
  unfold filter_other. destruct a as [| | | | |l]; try apply preserves_throw.
  eapply preserves_bind; [apply preserves_deref|]. intros o _.
  destruct o as [[|es]|]; try apply preserves_throw. apply preserves_new.
Qed.

Lemma replaces_handler (h0 : gmap loc obj) (fs : gmap string val) (l : loc) (e : Edit) :
  h0 !! l = Some (Obj fs) -> replaces h0 fs (target e) (handler e (VRef l)).
Proof.
  intros Hl.
  assert (Hentry : forall key i f v, key = key ->
            replaces h0 fs key (updateEntry key i f v (VRef l))).
  { intros key i f v _. unfold updateEntry.
    eapply replaces_bind; [apply preserves_get | intros old _].
    eapply replaces_bind; [apply preserves_spread_arr | intros es _].
    eapply replaces_bind; [apply preserves_new | intros newEntries Hn].
    eapply replaces_bind; [apply preserves_index | intros entry _].
    eapply replaces_bind; [apply preserves_spread_obj | intros ef _].
    eapply replaces_bind; [apply preserves_new | intros entry' _].
    eapply replaces_bind; [by apply preserves_index_set | intros _ _].
    apply replaces_with_field; [done | by eapply fresh_ref_truthy]. }
  assert (Hadd : forall key fe, preserves h0 fe any ->
            replaces h0 fs key (addEntry key fe (VRef l))).
  { intros key fe Hfe. unfold addEntry.
    eapply replaces_bind; [apply preserves_get | intros old _].
    eapply replaces_bind; [apply preserves_spread_arr | intros es _].
    eapply replaces_bind; [exact Hfe | intros x _].
    eapply replaces_bind; [apply preserves_new | intros entries Hn].
    apply replaces_with_field; [done | by eapply fresh_ref_truthy]. }
  assert (Hrem : forall key i, replaces h0 fs key (removeEntry key i (VRef l))).
  { intros key i. unfold removeEntry.
    eapply replaces_bind; [apply preserves_get | intros old _].
    eapply replaces_bind; [apply preserves_filter_other_fresh | intros entries Hn].
    apply replaces_with_field; [done | by eapply fresh_ref_truthy]. }
  destruct e; cbn [handler target].
  - unfold updateContact.
    eapply replaces_bind; [apply preserves_get | intros old _].
    eapply replaces_bind; [apply preserves_spread_obj | intros c _].
    eapply replaces_bind; [apply preserves_new | intros contact Hn].
    apply replaces_with_field; [done | by eapply fresh_ref_truthy].
  - by apply Hentry.
  - apply Hadd, preserves_default_education.
  - apply Hrem.
  - by apply Hentry.
  - eapply replaces_bind; [apply preserves_new_any | intros lines _]. by apply Hentry.
  - apply Hadd, preserves_default_experience.
  - apply Hrem.
  - unfold updateSkills.
    eapply replaces_bind; [apply preserves_new | intros a Hn].
    apply replaces_with_field; [done | by eapply fresh_ref_truthy].
Qed.

(** The fields of the form after an edit: those before, with at most the
    target category replaced by a truthy value. *)
Lemma edit_fields (e : Edit) (st : State) (fs : gmap string val) :
  form_fields st = Some fs ->
  form_fields (edit e st) = Some fs
  \/ exists v, truthy_val v = true /\ form_fields (edit e st) = Some (<[target e := v]> fs).
Proof.
  intros Hf. destruct (form_fields_inv _ _ Hf) as (l & Hfd & Hl).
  unfold edit, setFormData. rewrite Hfd.
  pose proof (replaces_handler (heap st) fs l e Hl (heap st) (reflexivity _)) as Hr.
  pose proof (preserves_handler (heap st) e (VRef l) (heap st) (reflexivity _)) as [Hp _].
  destruct (handler e (VRef l) (heap st)) as [[fd|] h'].
  - right. destruct Hr as (l' & v & -> & Hv & Hl'). exists v. split; [done|].
    unfold form_fields, object_at. simpl. by rewrite Hl'.
  - left. unfold form_fields, object_at. simpl in *.
    by rewrite (lookup_weaken _ _ _ _ Hl Hp).
Qed.

Lemma edit_well_formed (e : Edit) (st : State) : well_formed st -> well_formed (edit e st).
Proof.
  intros (fs & Hf & Hk). destruct (edit_fields e st fs Hf) as [H|(v & Hv & H)].
  - by exists fs.
  - exists (<[target e := v]> fs). split; [done|]. intros key Hin.
    destruct (decide (key = target e)) as [->|Hne].
    + exists v. by rewrite lookup_insert_eq.
    + rewrite lookup_insert_ne by done. by apply Hk.
Qed.

(** The other handlers. *)

Lemma installed (h1 : gmap loc obj) (fs : gmap string val) (key : string) (v : val) :
  let st' := {| heap := <[fresh (dom h1) := Obj (<[key := v]> fs)]> h1;
                formData := VRef (fresh (dom h1)) |} in
  category st' key = Some v
  /\ forall l o, h1 !! l = Some o -> heap st' !! l = Some o.
Proof.
  split.
  - unfold category, form_fields, object_at. simpl. rewrite lookup_insert_eq. simpl.
    by rewrite lookup_insert_eq.
  - intros l o Hl. simpl. by apply lookup_alloc.
Qed.


Lemma updateSkills_run (h : gmap loc obj) (l : loc) (fs : gmap string val) (value : string) :
  h !! l = Some (Obj fs) ->
  let l1 := fresh (dom h) in
  let h1 := <[l1 := Arr (strings (skillsArray value))]> h in
  updateSkills value (VRef l) h
  = (Val (VRef (fresh (dom h1))), <[fresh (dom h1) := Obj (<["skills" := VRef l1]> fs)]> h1).
Proof.
  intros Hl l1 h1. unfold updateSkills, bind. simpl.
  apply with_field_run. by apply lookup_alloc.
Qed.

Lemma spread_arr_run (h : gmap loc obj) (a : loc) (es : list (option val)) :
  h !! a = Some (Arr es) -> spread_arr (VRef a) h = (Val (dense es), h).
Proof. intros Ha. unfold spread_arr, bind, deref. by rewrite Ha. Qed.

Lemma addEntry_run (h hx : gmap loc obj) (l a : loc) (fs : gmap string val)
    (key : string) (es : list (option val)) (fresh_entry : JS val) (x : val) :
  h !! l = Some (Obj fs) -> fs !! key = Some (VRef a) -> h !! a = Some (Arr es) ->
  fresh_entry h = (Val x, hx) -> h ⊆ hx ->
  let l1 := fresh (dom hx) in
  let h1 := <[l1 := Arr (dense es ++ [Some x])%list]> hx in
  addEntry key fresh_entry (VRef l) h
  = (Val (VRef (fresh (dom h1))), <[fresh (dom h1) := Obj (<[key := VRef l1]> fs)]> h1).
Proof.
  intros Hl Hk Ha Hx Hsub l1 h1. unfold addEntry, bind.
  rewrite (get_run _ _ _ _ Hl), Hk. cbn [default id]. rewrite (spread_arr_run _ _ _ Ha), Hx.
  unfold new. fold l1 h1. apply with_field_run. apply lookup_alloc.
  by eapply lookup_weaken.
Qed.

Lemma filter_above (es : list (option val)) (i k : nat) :
  i < k ->
  omap (fun '(j, e) => if bool_decide (j = i) then None
                       else (fun v : val => Some v) <$> e)
       (imap (fun n => pair (k + n)) es)
  = compact es.
Proof.
  revert k. induction es as [|e es IH]; intros k Hk; [done|].
  cbn [imap omap list_omap]. rewrite bool_decide_eq_false_2 by lia.
  rewrite (imap_ext _ (fun n => pair (S k + n)) es)
    by (intros; simpl; f_equal; lia).
  rewrite (IH (S k)) by lia.
  unfold compact. by destruct e.
Qed.

Lemma filter_delete (es : list (option val)) (i k : nat) :
  omap (fun '(j, e) => if bool_decide (j = k + i) then None
                       else (fun v : val => Some v) <$> e)
       (imap (fun n => pair (k + n)) es)
  = compact (delete i es).
Proof.
  revert i k. induction es as [|e es IH]; intros i k; [by destruct i|].
  cbn [imap omap list_omap]. destruct i as [|i].
  - rewrite bool_decide_eq_true_2 by lia. simpl.
    rewrite (imap_ext _ (fun n => pair (S k + n)) es) by (intros; simpl; f_equal; lia).
    apply filter_above. lia.
  - rewrite bool_decide_eq_false_2 by lia.
    rewrite (imap_ext _ (fun n => pair (S k + n)) es) by (intros; simpl; f_equal; lia).
    replace (k + S i) with (S k + i) by lia. rewrite IH.
    unfold compact. simpl. by destruct e.
Qed.

Lemma filter_other_delete (es : list (option val)) (i : nat) :
  omap (fun '(j, e) => if bool_decide (j = i) then None
                       else (fun v : val => Some v) <$> e)
       (imap pair es)
  = compact (delete i es).
Proof. exact (filter_delete es i 0). Qed.

Lemma removeEntry_run (h : gmap loc obj) (l a : loc) (fs : gmap string val)
    (key : string) (es : list (option val)) (i : nat) :
  h !! l = Some (Obj fs) -> fs !! key = Some (VRef a) -> h !! a = Some (Arr es) ->
  let l1 := fresh (dom h) in
  let h1 := <[l1 := Arr (compact (delete i es))]> h in
  removeEntry key i (VRef l) h
  = (Val (VRef (fresh (dom h1))), <[fresh (dom h1) := Obj (<[key := VRef l1]> fs)]> h1).
Proof.
  intros Hl Hk Ha l1 h1. unfold removeEntry, bind.
  rewrite (get_run _ _ _ _ Hl), Hk. simpl. unfold bind, deref. rewrite Ha.
  unfold new. rewrite filter_other_delete. fold l1 h1.
  apply with_field_run. by apply lookup_alloc.
Qed.

Lemma entries_installed (h1 : gmap loc obj) (fs : gmap string val) (key : string)
    (l1 : loc) (es : list (option val)) :
  h1 !! l1 = Some (Arr es) ->
  entries {| heap := <[fresh (dom h1) := Obj (<[key := VRef l1]> fs)]> h1;
             formData := VRef (fresh (dom h1)) |} key = Some es.
Proof.
  intros H1. destruct (installed h1 fs key (VRef l1)) as [Hc Hh].
  unfold entries. rewrite Hc. cbn [mbind option_bind]. unfold array_at.
  by rewrite (Hh _ _ H1).
Qed.

Lemma removeEntry_spec (st : State) (key : string) (es : list (option val)) (i : nat) :
  entries st key = Some es ->
  entries (setFormData (removeEntry key i (formData st)) st) key
  = Some (compact (delete i es)).
Proof.
  intros He.
  destruct (entries_inv _ _ _ He) as (fs & a & Hf & Hk & Ha).
  destruct (form_fields_inv _ _ Hf) as (l & Hfd & Hl).
  destruct (array_at_inv _ _ _ Ha) as (a' & -> & Ha').
  unfold setFormData. rewrite Hfd, (removeEntry_run _ _ _ _ _ _ i Hl Hk Ha').
  cbv zeta. apply entries_installed, lookup_insert_eq.
Qed.

Lemma addEntry_spec (st : State) (key : string) (es : list (option val))
    (fresh_entry : JS val) (x : val) (hx : gmap loc obj) :
  entries st key = Some es ->
  fresh_entry (heap st) = (Val x, hx) -> heap st ⊆ hx ->
  let st' := setFormData (addEntry key fresh_entry (formData st)) st in
  entries st' key = Some (dense es ++ [Some x])%list
  /\ forall l o, hx !! l = Some o -> heap st' !! l = Some o.
Proof.
  intros He Hx Hsub st'.
  destruct (entries_inv _ _ _ He) as (fs & a & Hf & Hk & Ha).
  destruct (form_fields_inv _ _ Hf) as (l & Hfd & Hl).
  destruct (array_at_inv _ _ _ Ha) as (a' & -> & Ha').
  unfold st', setFormData.
  rewrite Hfd, (addEntry_run _ _ _ _ _ _ _ _ _ Hl Hk Ha' Hx Hsub). cbv zeta. split.
  - apply entries_installed, lookup_insert_eq.
  - intros l' o Ho. simpl. apply lookup_alloc. by apply lookup_alloc.
Qed.

Lemma compact_dense_snoc (es : list (option val)) (x : val) :
  compact (delete (length es) (dense es ++ [Some x])%list) = dense es.
Proof.
  unfold compact, dense. induction es as [|e es IH]; [done|].
  cbn. f_equal. exact IH.
Qed.


Lemma alloc_none (h : gmap loc obj) (l : loc) (o : obj) :
  <[fresh (dom h) := o]> h !! l = None -> h !! l = None.
Proof.
  intros H. destruct (h !! l) as [o'|] eqn:E; [|done].
  by rewrite (lookup_alloc _ _ _ _ E) in H.
Qed.

Lemma alloc_subseteq (h : gmap loc obj) (o : obj) : h ⊆ <[fresh (dom h) := o]> h.
Proof. apply insert_subseteq, fresh_lookup. Qed.

Lemma well_formed_edits (es : list Edit) (st : State) :
  well_formed st -> well_formed (edits es st).
Proof.
  revert st. induction es as [|e es IH]; intros st Hst; [done|].
  simpl. by apply IH, edit_well_formed.
Qed.

Lemma reachable_fields (data : val) (h : gmap loc obj) (es : list Edit) :
  exists l fs, formData (edits es (mount data h)) = VRef l
               /\ heap (edits es (mount data h)) !! l = Some (Obj fs)
               /\ is_Some (fs !! "contact").
Proof.
  destruct (well_formed_edits es _ (mount_well_formed data h)) as (fs & Hf & Hk).
  destruct (form_fields_inv _ _ Hf) as (l & Hfd & Hl).
  destruct (Hk "contact") as (c & Hc & _); [set_solver|].
  exists l, fs. by rewrite Hc.
Qed.


Lemma entries_alloc (st : State) (key : string) (es : list (option val)) (o : obj) :
  entries st key = Some es ->
  entries {| heap := <[fresh (dom (heap st)) := o]> (heap st); formData := formData st |}
    key = Some es.
Proof.
  intros He.
  destruct (entries_inv _ _ _ He) as (fs & a & Hf & Hk & Ha).
  destruct (form_fields_inv _ _ Hf) as (l & Hfd & Hl).
  destruct (array_at_inv _ _ _ Ha) as (a' & -> & Ha').
  unfold entries, category, form_fields, object_at. cbn [heap formData]. rewrite Hfd.
  rewrite (lookup_alloc _ _ _ _ Hl). cbn [mbind option_bind]. rewrite Hk.
  cbn [mbind option_bind]. unfold array_at. by rewrite (lookup_alloc _ _ _ _ Ha').
Qed.

(** X13: after mounting on any data and after any sequence of edits,
    whether a handler threw or not, the form state is an object that has
    its four categories (contact, education, work_experience, skills), each
    of them truthy: the render never reads a field of undefined. *)
Theorem X13_form_keeps_its_four_categories (data : val) (h : gmap loc obj)
    (es : list Edit) :
  well_formed (edits es (mount data h)).
Proof. apply well_formed_edits, mount_well_formed. Qed.

(** X14: an edit replaces the category it is for and no other: under
    every other key the form still holds the very value it held before the
    edit. *)
Theorem X14_edit_replaces_only_its_category (data : val) (h : gmap loc obj)
    (es : list Edit) (e : Edit) (k : string) :
  k <> target e ->
  category (edit e (edits es (mount data h))) k = category (edits es (mount data h)) k.
Proof.
  intros Hk.
  destruct (well_formed_edits es _ (mount_well_formed data h)) as (fs & Hf & _).
  unfold category. destruct (edit_fields e _ fs Hf) as [H|(v & _ & H)]; rewrite H, Hf.
  - done.
  - simpl. by rewrite lookup_insert_ne.
Qed.

Lemma X14_edit_replaces_only_its_category_witness :
  "contact" <> target (EditSkills "Go")
  /\ category (edit (EditSkills "Go")
                 (edits [AddEducation] (mount ParsedExample.parsed_data ParsedExample.parsed_heap)))
       "contact"
     = category (edits [AddEducation]
                   (mount ParsedExample.parsed_data ParsedExample.parsed_heap)) "contact".
Proof.
  split; [discriminate|].
  apply (X14_edit_replaces_only_its_category ParsedExample.parsed_data
           ParsedExample.parsed_heap [AddEducation] (EditSkills "Go") "contact").
  discriminate.
Defined.





(** X17: removing row [i] of the education or of the work list leaves the
    elements at the other positions, in order; an index outside the list
    removes nothing, and holes are not kept. *)
Theorem X17_remove_deletes_one_entry (st : State) (e : Edit) (i : nat)
    (es : list (option val)) :
  e = RemoveEducation i \/ e = RemoveExperience i ->
  entries st (target e) = Some es ->
  entries (edit e st) (target e) = Some (compact (delete i es)).
Proof.
  intros [-> | ->] He.
  - exact (removeEntry_spec st "education" es i He).
  - exact (removeEntry_spec st "work_experience" es i He).
Qed.

Lemma X17_remove_deletes_one_entry_witness :
  (RemoveExperience 0 = RemoveEducation 0 \/ RemoveExperience 0 = RemoveExperience 0)
  /\ entries FormExample.mounted (target (RemoveExperience 0)) = Some [Some (VRef 5)]
  /\ entries (edit (RemoveExperience 0) FormExample.mounted) (target (RemoveExperience 0))
     = Some (compact (delete 0 [Some (VRef 5)])).
Proof.
  split; [by right|]. split; [by vm_compute|].
  apply (X17_remove_deletes_one_entry FormExample.mounted (RemoveExperience 0) 0
           [Some (VRef 5)]).
  - by right.
  - by vm_compute.
Defined.

Lemma addEducation_spec (st : State) (es : list (option val)) :
  entries st "education" = Some es ->
  exists l,
    entries (edit AddEducation st) "education" = Some (dense es ++ [Some (VRef l)])%list
    /\ heap st !! l = None
    /\ object_at (heap (edit AddEducation st)) (VRef l) = Some blank_education.
Proof.
  intros He. set (l := fresh (dom (heap st))).
  destruct (addEntry_spec st "education" es default_education (VRef l)
              (<[l := Obj blank_education]> (heap st)) He eq_refl (alloc_subseteq _ _))
    as [H1 H2].
  exists l. split; [exact H1|]. split; [apply fresh_lookup|].
  unfold object_at.
  change (edit AddEducation st)
    with (setFormData (addEntry "education" default_education (formData st)) st).
  by rewrite (H2 l _ (lookup_insert_eq _ _ _)).
Qed.

Lemma addExperience_spec (st : State) (es : list (option val)) :
  entries st "work_experience" = Some es ->
  exists l d,
    entries (edit AddExperience st) "work_experience"
    = Some (dense es ++ [Some (VRef l)])%list
    /\ heap st !! l = None /\ heap st !! d = None
    /\ object_at (heap (edit AddExperience st)) (VRef l) = Some (blank_experience (VRef d))
    /\ array_at (heap (edit AddExperience st)) (VRef d) = Some [].
Proof.
  intros He. set (d := fresh (dom (heap st))).
  set (h1 := <[d := Arr []]> (heap st)).
  set (l := fresh (dom h1)).
  assert (Hsub : heap st ⊆ <[l := Obj (blank_experience (VRef d))]> h1).
  { etrans; [apply alloc_subseteq | apply alloc_subseteq]. }
  destruct (addEntry_spec st "work_experience" es default_experience (VRef l)
              (<[l := Obj (blank_experience (VRef d))]> h1) He eq_refl Hsub)
    as [H1 H2].
  change (setFormData (addEntry "work_experience" default_experience (formData st)) st)
    with (edit AddExperience st) in H1, H2.
  exists l, d. split; [exact H1|]. split; [|split; [|split]].
  - eapply alloc_none. apply fresh_lookup.
  - apply fresh_lookup.
  - unfold object_at. by rewrite (H2 l _ (lookup_insert_eq _ _ _)).
  - unfold array_at.
    assert (Hd : <[l := Obj (blank_experience (VRef d))]> h1 !! d = Some (Arr [])).
    { apply lookup_alloc. apply lookup_insert_eq. }
    by rewrite (H2 d _ Hd).
Qed.

(** X18: Add, in the education section, appends one new entry at the end
    of the list, with its four fields empty strings. *)
Theorem X18_add_education_appends_a_blank_entry (st : State) (es : list (option val)) :
  entries st "education" = Some es ->
  exists l,
    entries (edit AddEducation st) "education" = Some (dense es ++ [Some (VRef l)])%list
    /\ heap st !! l = None
    /\ object_at (heap (edit AddEducation st)) (VRef l) = Some blank_education.
Proof. apply addEducation_spec. Qed.

Lemma X18_add_education_witness :
  entries FormExample.mounted "education" = Some [Some (VRef 3)]
  /\ exists l,
       entries (edit AddEducation FormExample.mounted) "education"
       = Some (dense [Some (VRef 3)] ++ [Some (VRef l)])%list
       /\ heap FormExample.mounted !! l = None
       /\ object_at (heap (edit AddEducation FormExample.mounted)) (VRef l)
          = Some blank_education.
Proof.
  split; [by vm_compute|].
  apply (X18_add_education_appends_a_blank_entry FormExample.mounted [Some (VRef 3)]).
  by vm_compute.
Defined.

(** X19: Add, in the work section, appends one new entry at the end of
    the list, with its text fields empty and a description that is a new
    empty array. *)
Theorem X19_add_experience_appends_a_blank_entry (st : State) (es : list (option val)) :
  entries st "work_experience" = Some es ->
  exists l d,
    entries (edit AddExperience st) "work_experience"
    = Some (dense es ++ [Some (VRef l)])%list
    /\ heap st !! l = None /\ heap st !! d = None
    /\ object_at (heap (edit AddExperience st)) (VRef l) = Some (blank_experience (VRef d))
    /\ array_at (heap (edit AddExperience st)) (VRef d) = Some [].
Proof. apply addExperience_spec. Qed.

Lemma X19_add_experience_witness :
  entries FormExample.mounted "work_experience" = Some [Some (VRef 5)]
  /\ exists l d,
       entries (edit AddExperience FormExample.mounted) "work_experience"
       = Some (dense [Some (VRef 5)] ++ [Some (VRef l)])%list
       /\ heap FormExample.mounted !! l = None /\ heap FormExample.mounted !! d = None
       /\ object_at (heap (edit AddExperience FormExample.mounted)) (VRef l)
          = Some (blank_experience (VRef d))
       /\ array_at (heap (edit AddExperience FormExample.mounted)) (VRef d) = Some [].
Proof.
  split; [by vm_compute|].
  apply (X19_add_experience_appends_a_blank_entry FormExample.mounted [Some (VRef 5)]).
  by vm_compute.
Defined.

(** X20: adding an entry and then removing the row just added gives back
    the list there was (its holes read as undefined). *)
Theorem X20_remove_undoes_add (st : State) (add remove : Edit) (es : list (option val)) :
  (add = AddEducation /\ remove = RemoveEducation (length es))
  \/ (add = AddExperience /\ remove = RemoveExperience (length es)) ->
  entries st (target add) = Some es ->
  entries (edit remove (edit add st)) (target add) = Some (dense es).
Proof.
  intros [[-> ->] | [-> ->]] He.
  - destruct (addEducation_spec st es He) as (l & H & _).
    rewrite <- (compact_dense_snoc es (VRef l)).
    exact (removeEntry_spec _ "education" _ (length es) H).
  - destruct (addExperience_spec st es He) as (l & d & H & _).
    rewrite <- (compact_dense_snoc es (VRef l)).
    exact (removeEntry_spec _ "work_experience" _ (length es) H).
Qed.

Lemma X20_remove_undoes_add_witness :
  ((AddEducation = AddEducation
    /\ RemoveEducation 1 = RemoveEducation (length [Some (VRef 3)]))
   \/ (AddEducation = AddExperience
       /\ RemoveEducation 1 = RemoveExperience (length [Some (VRef 3)])))
  /\ entries FormExample.mounted (target AddEducation) = Some [Some (VRef 3)]
  /\ entries (edit (RemoveEducation 1) (edit AddEducation FormExample.mounted))
       (target AddEducation)
     = Some (dense [Some (VRef 3)]).
Proof.
  split; [by left|]. split; [by vm_compute|].
  apply (X20_remove_undoes_add FormExample.mounted AddEducation (RemoveEducation 1)
           [Some (VRef 3)]).
  - by left.
  - by vm_compute.
Defined.

Lemma skills_stored (data : val) (h : gmap loc obj) (es : list Edit) (value : string) :
  entries (edit (EditSkills value) (edits es (mount data h))) "skills"
  = Some (strings (skillsArray value)).
Proof.
  destruct (reachable_fields data h es) as (l & fs & Hfd & Hl & _).
  unfold edit, setFormData. cbn [handler].
  rewrite Hfd, (updateSkills_run _ _ _ value Hl). cbv zeta.
  apply entries_installed, lookup_insert_eq.
Qed.

(** [trim] strips the white space beyond ASCII as well: a no-break space
    before a skill, a line separator after it. *)
Example trim_strips_unicode_space :
  JsString.trim (String (ascii_of_nat 194) (String (ascii_of_nat 160) "C")) = "C"
  /\ JsString.trim ("Go" +:+ String (ascii_of_nat 226) (String (ascii_of_nat 128)
                                   (String (ascii_of_nat 168) " "))) = "Go"
  /\ JsString.trim " C++ 	" = "C++".
Proof. vm_compute. done. Qed.

(** X21: the skills box round-trips. When every skill is clean (not
    empty, no comma, no white space at either end), typing the text the
    box shows for the list, [join(', ')], stores that very list. *)
Theorem X21_skills_text_round_trip (data : val) (h : gmap loc obj) (es : list Edit)
    (l : list string) :
  Forall clean l ->
  entries (edit (EditSkills (join ", " l)) (edits es (mount data h))) "skills"
  = Some (strings l).
Proof. intros Hl. by rewrite skills_stored, skills_round_trip. Qed.

Lemma X21_skills_text_round_trip_witness :
  Forall clean ["Python"; "Go"]
  /\ entries (edit (EditSkills (join ", " ["Python"; "Go"]))
                (edits [AddEducation]
                   (mount ParsedExample.parsed_data ParsedExample.parsed_heap))) "skills"
     = Some (strings ["Python"; "Go"]).
Proof.
  assert (H : Forall clean ["Python"; "Go"]).
  { repeat constructor; try discriminate; reflexivity. }
  split; [exact H|].
  apply (X21_skills_text_round_trip ParsedExample.parsed_data ParsedExample.parsed_heap
           [AddEducation] ["Python"; "Go"] H).
Defined.

(** X22: a comma typed at the end of the skills text is dropped: the
    edit gives the same state as without it, so the controlled box shows
    the text without the comma. *)
Theorem X22_trailing_comma_is_dropped (st : State) (value : string) :
  edit (EditSkills (value +:+ ",")) st = edit (EditSkills value) st
  /\ join ", " (skillsArray (value +:+ ",")) = join ", " (skillsArray value).
Proof.
  assert (H : skillsArray (value +:+ ",") = skillsArray value)
    by apply trailing_comma_dropped.
  split; [|by rewrite H].
  unfold edit. cbn [handler]. unfold updateSkills. fold (skillsArray (value +:+ ",")).
  fold (skillsArray value). by rewrite H.
Qed.

(** X23: the description box shows what was typed: joining with line
    breaks the lines [split] made of a text gives the text back. *)
Theorem X23_description_shows_what_was_typed (text : string) :
  join (String "010" "") (descriptionLines text) = text.
Proof. apply join_split. Qed.

(** X24: conversely, description lines that contain no line break, one
    line at least, come back from the text the box shows for them. An
    empty list does not: its text is empty and splits into one empty line. *)
Theorem X24_description_lines_survive (lines : list string) :
  lines <> [] -> Forall (fun s => has_char "010" s = false) lines ->
  descriptionLines (join (String "010" "") lines) = lines.
Proof. apply split_join. Qed.

Lemma X24_description_lines_survive_witness :
  ["Built things"; "Led a team"] <> []
  /\ Forall (fun s => has_char "010" s = false) ["Built things"; "Led a team"]
  /\ descriptionLines (join (String "010" "") ["Built things"; "Led a team"])
     = ["Built things"; "Led a team"].
Proof.
  assert (H : Forall (fun s => has_char "010" s = false) ["Built things"; "Led a team"]).
  { repeat constructor. }
  split; [discriminate|]. split; [exact H|].
  apply (X24_description_lines_survive ["Built things"; "Led a team"]); [discriminate | exact H].
Defined.

Remark empty_description_gains_a_line :
  descriptionLines (join (String "010" "") []) = [""].
Proof. reflexivity. Qed.





(** The rendered controls. *)

Lemma updateEntry_entries (st : State) (key : string) (es : list (option val))
    (i : nat) (f : string) (v : val) :
  entries st key = Some es ->
  exists l, entries (setFormData (updateEntry key i f v (formData st)) st) key
            = Some (write (dense es) i (VRef l)).
Proof.
  intros He.
  destruct (entries_inv _ _ _ He) as (fs & a & Hf & Hk & Ha).
  destruct (form_fields_inv _ _ Hf) as (l & Hfd & Hl).
  destruct (array_at_inv _ _ _ Ha) as (a' & -> & Ha').
  unfold setFormData. rewrite Hfd, (updateEntry_run _ _ _ _ _ _ i f v Hl Hk Ha').
  cbv zeta. eexists. apply entries_installed, lookup_insert_eq.
Qed.

Lemma entries_other (e : Edit) (st : State) (key : string) (es : list (option val)) :
  key <> target e -> entries st key = Some es -> entries (edit e st) key = Some es.
Proof.
  intros Hne He. destruct (entries_inv _ _ _ He) as (fs & a & Hf & Hk & Ha).
  destruct (array_at_inv _ _ _ Ha) as (a' & -> & Ha').
  assert (Hsub : heap st ⊆ heap (edit e st))
    by (apply setFormData_frame; [apply preserves_handler | done]).
  assert (Hcat : category (edit e st) key = Some (VRef a')).
  { unfold category.
    destruct (edit_fields e st fs Hf) as [H|(v & _ & H)]; rewrite H; cbn [mbind option_bind].
    - exact Hk.
    - by rewrite lookup_insert_ne. }
  unfold entries. rewrite Hcat. cbn [mbind option_bind]. unfold array_at.
  by rewrite (lookup_weaken _ _ _ _ Ha' Hsub).
Qed.

Lemma shown_lookup (st : State) (key : string) (es : list (option val)) (i : nat) :
  entries st key = Some es -> shown st key i = true -> i < length es.
Proof.
  intros He. unfold shown. rewrite He. destruct (es !! i) as [e|] eqn:E; [|done].
  intros _. by eapply lookup_lt_Some.
Qed.

Lemma dense_all (es : list (option val)) : Forall is_Some (dense es).
Proof. unfold dense. apply Forall_fmap, Forall_true. by eexists. Qed.

Lemma compact_all (es : list (option val)) : Forall is_Some (compact es).
Proof. unfold compact. apply Forall_fmap, Forall_true. by eexists. Qed.

Lemma compact_length (es : list (option val)) :
  Forall is_Some es -> length (compact es) = length es.
Proof.
  unfold compact. rewrite length_fmap.
  induction 1 as [|e es [v ->] _ IH]; [done|]. cbn. f_equal. exact IH.
Qed.

Lemma nonempty_length {A} (l : list A) : 0 < length l -> l <> [].
Proof. by destruct l; [simpl; lia|]. Qed.

Lemma listed_write (es : list (option val)) (i : nat) (x : val) :
  i < length es ->
  write (dense es) i x <> [] /\ Forall is_Some (write (dense es) i x).
Proof.
  intros Hi. split.
  - apply nonempty_length. rewrite write_length, dense_length. lia.
  - unfold write. rewrite dense_length.
    destruct (Nat.ltb_spec i (length es)); [|lia].
    apply Forall_insert; [apply dense_all | by eexists].
Qed.

Lemma listed_add (es : list (option val)) (x : val) :
  (dense es ++ [Some x])%list <> [] /\ Forall is_Some (dense es ++ [Some x])%list.
Proof.
  split; [by destruct (dense es)|].
  apply Forall_app. split; [apply dense_all|]. by repeat constructor.
Qed.

Lemma listed_remove (es : list (option val)) (i : nat) :
  Forall is_Some es -> i < length es -> 1 < length es ->
  compact (delete i es) <> [] /\ Forall is_Some (compact (delete i es)).
Proof.
  intros Hall Hi Hlen. split; [|apply compact_all].
  apply nonempty_length. rewrite compact_length by (by apply Forall_delete).
  rewrite length_delete by (by apply lookup_lt_is_Some). lia.
Qed.

Lemma ui_edit_listed (e : Edit) (st : State) (key : string) :
  key = "education" \/ key = "work_experience" ->
  listed st key -> listed (ui_edit e st) key.
Proof.
  intros Hkey (es & He & Hne & Hall). unfold ui_edit.
  destruct (offered st e) eqn:Ho; [|by exists es].
  destruct (decide (key = target e)) as [->|Hk];
    [|exists es; split; [by apply entries_other | done]].
  destruct e; cbn [target] in *; cbn [offered] in Ho.
  - by destruct Hkey.
  - destruct (updateEntry_entries st "education" es i field (VStr value) He) as [l Hl].
    eexists. split; [exact Hl|].
    apply listed_write. by eapply shown_lookup.
  - destruct (addEducation_spec st es He) as (l & Hl & _).
    eexists. split; [exact Hl|]. apply listed_add.
  - apply andb_true_iff in Ho as [Hs Hm].
    eexists. split; [exact (removeEntry_spec st "education" es i He)|].
    apply listed_remove; [done | by eapply shown_lookup |].
    unfold more_than_one in Hm. rewrite He in Hm. by apply Nat.ltb_lt.
  - destruct (updateEntry_entries st "work_experience" es i field (VStr value) He) as [l Hl].
    eexists. split; [exact Hl|].
    apply listed_write. by eapply shown_lookup.
  - set (d := fresh (dom (heap st))).
    set (lines := Arr (strings (descriptionLines text))).
    set (st0 := {| heap := <[d := lines]> (heap st); formData := formData st |}).
    destruct (updateEntry_entries st0 "work_experience" es i "description" (VRef d)
                (entries_alloc st _ es lines He)) as [l Hl].
    eexists. split; [exact Hl|].
    apply listed_write. by eapply shown_lookup.
  - destruct (addExperience_spec st es He) as (l & d & Hl & _).
    eexists. split; [exact Hl|]. apply listed_add.
  - apply andb_true_iff in Ho as [Hs Hm].
    eexists. split; [exact (removeEntry_spec st "work_experience" es i He)|].
    apply listed_remove; [done | by eapply shown_lookup |].
    unfold more_than_one in Hm. rewrite He in Hm. by apply Nat.ltb_lt.
  - by destruct Hkey.
Qed.

(** X26: through the rendered controls the education and the work list
    never run empty and never get a hole: a list that has an element and
    no hole stays so under every sequence of edits the form offers (the
    remove button is only rendered while the list has more than one row). *)
Theorem X26_lists_never_run_empty (st : State) (key : string) (es : list Edit) :
  key = "education" \/ key = "work_experience" ->
  listed st key -> listed (ui_edits es st) key.
Proof.
  intros Hkey. revert st. induction es as [|e es IH]; intros st Hst; [done|].
  simpl. by apply IH, ui_edit_listed.
Qed.

Lemma mounted_education_listed : listed FormExample.mounted "education".
Proof.
  exists [Some (VRef 3)]. split; [by vm_compute|]. split; [done|].
  repeat constructor. by eexists.
Qed.

Lemma X26_lists_never_run_empty_witness :
  ("education" = "education" \/ "education" = "work_experience")
  /\ listed FormExample.mounted "education"
  /\ listed (ui_edits [RemoveEducation 0; AddEducation; RemoveEducation 0; RemoveEducation 0]
               FormExample.mounted) "education".
Proof.
  split; [by left|]. split; [exact mounted_education_listed|].
  apply (X26_lists_never_run_empty FormExample.mounted "education"
           [RemoveEducation 0; AddEducation; RemoveEducation 0; RemoveEducation 0]).
  - by left.
  - exact mounted_education_listed.
Defined.

(** Mounting without data. *)

Lemma form_of_falsy (data : val) (h : gmap loc obj) :
  truthy_val data = false -> form_of data h = form_of VUndefined h.
Proof. intros H. destruct data; try reflexivity; discriminate. Qed.

(** X27: mounted without data (null, undefined or any falsy value) the
    form is blank: a contact with empty fields, one blank education entry,
    one blank work entry with an empty description, and no skills. *)
Theorem X27_missing_data_gives_a_blank_form (data : val) (h : gmap loc obj) :
  truthy_val data = false ->
  exists c e w d,
    category (mount data h) "contact" = Some (VRef c)
    /\ object_at (heap (mount data h)) (VRef c) = Some blank_contact
    /\ entries (mount data h) "education" = Some [Some (VRef e)]
    /\ object_at (heap (mount data h)) (VRef e) = Some blank_education
    /\ entries (mount data h) "work_experience" = Some [Some (VRef w)]
    /\ object_at (heap (mount data h)) (VRef w) = Some (blank_experience (VRef d))
    /\ array_at (heap (mount data h)) (VRef d) = Some []
    /\ entries (mount data h) "skills" = Some [].
Proof.
  intros Hd. unfold mount. rewrite Hd. unfold setFormData. cbn [heap formData].
  rewrite (form_of_falsy data h Hd).
  set (l1 := fresh (dom h)). set (h1 := <[l1 := Obj blank_contact]> h).
  set (l2 := fresh (dom h1)). set (h2 := <[l2 := Obj blank_education]> h1).
  set (l3 := fresh (dom h2)). set (h3 := <[l3 := Arr [Some (VRef l2)]]> h2).
  set (l4 := fresh (dom h3)). set (h4 := <[l4 := Arr []]> h3).
  set (l5 := fresh (dom h4)). set (h5 := <[l5 := Obj (blank_experience (VRef l4))]> h4).
  set (l6 := fresh (dom h5)). set (h6 := <[l6 := Arr [Some (VRef l5)]]> h5).
  set (l7 := fresh (dom h6)). set (h7 := <[l7 := Arr []]> h6).
  set (fs := fields [("contact", VRef l1); ("education", VRef l3);
                     ("work_experience", VRef l6); ("skills", VRef l7)]).
  change (form_of VUndefined h)
    with (Val (VRef (fresh (dom h7))), <[fresh (dom h7) := Obj fs]> h7).
  cbv iota beta.
  set (st := {| heap := <[fresh (dom h7) := Obj fs]> h7; formData := VRef (fresh (dom h7)) |}).
  assert (Hin : forall l o, h7 !! l = Some o -> heap st !! l = Some o)
    by (intros; by apply lookup_alloc).
  assert (H7 : h7 !! l7 = Some (Arr [])) by apply lookup_insert_eq.
  assert (H6 : h7 !! l6 = Some (Arr [Some (VRef l5)]))
    by (apply lookup_alloc, lookup_insert_eq).
  assert (H5 : h7 !! l5 = Some (Obj (blank_experience (VRef l4))))
    by (do 2 apply lookup_alloc; apply lookup_insert_eq).
  assert (H4 : h7 !! l4 = Some (Arr []))
    by (do 3 apply lookup_alloc; apply lookup_insert_eq).
  assert (H3 : h7 !! l3 = Some (Arr [Some (VRef l2)]))
    by (do 4 apply lookup_alloc; apply lookup_insert_eq).
  assert (H2 : h7 !! l2 = Some (Obj blank_education))
    by (do 5 apply lookup_alloc; apply lookup_insert_eq).
  assert (H1 : h7 !! l1 = Some (Obj blank_contact))
    by (do 6 apply lookup_alloc; apply lookup_insert_eq).
  assert (Hf : form_fields st = Some fs).
  { unfold form_fields, object_at, st. cbn [heap formData]. by rewrite lookup_insert_eq. }
  assert (Hcat : forall key v, fs !! key = Some v -> category st key = Some v).
  { intros key v Hv. unfold category. by rewrite Hf. }
  assert (Hent : forall key a es, fs !! key = Some (VRef a) -> h7 !! a = Some (Arr es) ->
                   entries st key = Some es).
  { intros key a es Hv Ha. unfold entries. rewrite (Hcat _ _ Hv). cbn [mbind option_bind].
    unfold array_at. by rewrite (Hin _ _ Ha). }
  exists l1, l2, l5, l4. repeat split.
  - by apply Hcat.
  - unfold object_at. by rewrite (Hin _ _ H1).
  - by apply (Hent "education" l3).
  - unfold object_at. by rewrite (Hin _ _ H2).
  - by apply (Hent "work_experience" l6).
  - unfold object_at. by rewrite (Hin _ _ H5).
  - unfold array_at. by rewrite (Hin _ _ H4).
  - by apply (Hent "skills" l7).
Qed.

Lemma X27_missing_data_witness :
  truthy_val VNull = false
  /\ exists c e w d,
       category (mount VNull ∅) "contact" = Some (VRef c)
       /\ object_at (heap (mount VNull ∅)) (VRef c) = Some blank_contact
       /\ entries (mount VNull ∅) "education" = Some [Some (VRef e)]
       /\ object_at (heap (mount VNull ∅)) (VRef e) = Some blank_education
       /\ entries (mount VNull ∅) "work_experience" = Some [Some (VRef w)]
       /\ object_at (heap (mount VNull ∅)) (VRef w) = Some (blank_experience (VRef d))
       /\ array_at (heap (mount VNull ∅)) (VRef d) = Some []
       /\ entries (mount VNull ∅) "skills" = Some [].
Proof.
  split; [reflexivity|].
  apply (X27_missing_data_gives_a_blank_form VNull ∅). reflexivity.
Defined.


(** Mounting on parsed data. *)

Lemma returns_on {A} (m : JS A) (Q : A -> Prop) (h : gmap loc obj) :
  returns m Q -> preserves h m any ->
  exists a h', m h = (Val a, h') /\ h ⊆ h' /\ Q a.
Proof.
  intros Hr Hp. destruct (Hr h) as (a & h' & E & Ha).
  destruct (Hp h (reflexivity _)) as [Hsub _]. rewrite E in Hsub.
  by exists a, h'.
Qed.

Lemma form_of_spec (st : State) (l : loc) (fs : gmap string val) :
  heap st !! l = Some (Obj fs) ->
  exists c e w s h2 h4 h6 h8,
    heap st ⊆ h2 /\ h2 ⊆ h4 /\ h4 ⊆ h6 /\ h6 ⊆ h8
    /\ nonempty_or (default VUndefined (fs !! "education"))
         (do x <- default_education; new (Arr [Some x])) h2 = (Val e, h4)
    /\ nonempty_or (default VUndefined (fs !! "work_experience"))
         (do x <- default_experience; new (Arr [Some x])) h4 = (Val w, h6)
    /\ setFormData (form_of (VRef l)) st
       = {| heap := <[fresh (dom h8) :=
                        Obj (fields [("contact", c); ("education", e);
                                     ("work_experience", w); ("skills", s)])]> h8;
            formData := VRef (fresh (dom h8)) |}.
Proof.
  intros Hl.
  destruct (returns_on (or_else (default VUndefined (fs !! "contact")) default_contact)
              truthy_result (heap st))
    as (c & h2 & E2 & S2 & _).
  { apply returns_or_else, returns_new. }
  { apply preserves_or_else, preserves_default_contact. }
  destruct (returns_on (nonempty_or (default VUndefined (fs !! "education"))
                    (do x <- default_education; new (Arr [Some x])))
              truthy_result h2)
    as (e & h4 & E4 & S4 & _).
  { apply returns_nonempty_or, (returns_singleton default_education), returns_new. }
  { apply preserves_nonempty_or, preserves_singleton, preserves_default_education. }
  destruct (returns_on (nonempty_or (default VUndefined (fs !! "work_experience"))
                    (do x <- default_experience; new (Arr [Some x])))
              truthy_result h4)
    as (w & h6 & E6 & S6 & _).
  { apply returns_nonempty_or, (returns_singleton default_experience),
      returns_default_experience. }
  { apply preserves_nonempty_or, preserves_singleton, preserves_default_experience. }
  destruct (returns_on (or_else (default VUndefined (fs !! "skills")) (new (Arr [])))
              truthy_result h6)
    as (s & h8 & E8 & S8 & _).
  { apply returns_or_else, returns_new. }
  { apply preserves_or_else, preserves_new_any. }
  exists c, e, w, s, h2, h4, h6, h8. repeat (split; [done|]).
  assert (L2 : h2 !! l = Some (Obj fs)) by (by eapply lookup_weaken).
  assert (L4 : h4 !! l = Some (Obj fs)) by (by eapply lookup_weaken).
  assert (L6 : h6 !! l = Some (Obj fs)) by (by eapply lookup_weaken).
  unfold setFormData, form_of.
  unfold bind at 1. change (get_opt (VRef l) "contact") with (get (VRef l) "contact").
  rewrite (get_run _ _ _ _ Hl).
  unfold bind at 1. rewrite E2.
  unfold bind at 1. change (get_opt (VRef l) "education") with (get (VRef l) "education").
  rewrite (get_run _ _ _ _ L2).
  unfold bind at 1. rewrite E4.
  unfold bind at 1.
  change (get_opt (VRef l) "work_experience") with (get (VRef l) "work_experience").
  rewrite (get_run _ _ _ _ L4).
  unfold bind at 1. rewrite E6.
  unfold bind at 1. change (get_opt (VRef l) "skills") with (get (VRef l) "skills").
  rewrite (get_run _ _ _ _ L6).
  unfold bind at 1. rewrite E8.
  reflexivity.
Qed.

Lemma nonempty_or_array (h : gmap loc obj) (a : loc) (es : list (option val))
    (fallback : JS val) :
  h !! a = Some (Arr es) -> es <> [] ->
  nonempty_or (VRef a) fallback h = (Val (VRef a), h).
Proof.
  intros Ha Hne. unfold nonempty_or, bind. simpl. unfold bind, deref, ret. rewrite Ha.
  by destruct es.
Qed.

Lemma nonempty_or_empty (h : gmap loc obj) (a : loc) (fallback : JS val) :
  h !! a = Some (Arr []) -> nonempty_or (VRef a) fallback h = fallback h.
Proof.
  intros Ha. unfold nonempty_or, bind. simpl. unfold bind, deref, ret. by rewrite Ha.
Qed.

(** The array the form holds under a list key after the form object was
    built on [fs]: the one of the data if it is not empty. *)
Lemma form_of_shares (st : State) (l : loc) (fs : gmap string val) (key : string)
    (a : loc) (es : list (option val)) :
  key = "education" \/ key = "work_experience" ->
  heap st !! l = Some (Obj fs) -> fs !! key = Some (VRef a) ->
  heap st !! a = Some (Arr es) -> es <> [] ->
  category (setFormData (form_of (VRef l)) st) key = Some (VRef a).
Proof.
  intros Hkey Hl Hk Ha Hne.
  destruct (form_of_spec st l fs Hl)
    as (c & e & w & s & h2 & h4 & h6 & h8 & S2 & S4 & S6 & S8 & E4 & E6 & ->).
  unfold category, form_fields, object_at. cbn [heap formData].
  rewrite lookup_insert_eq. cbn [mbind option_bind].
  destruct Hkey as [-> | ->]; rewrite Hk in *; cbn [default] in *.
  - rewrite (nonempty_or_array h2 a es) in E4
      by (done || by eapply lookup_weaken).
    injection E4 as <- _. done.
  - assert (S : heap st ⊆ h4) by (by etrans).
    rewrite (nonempty_or_array h4 a es) in E6
      by (done || by eapply lookup_weaken).
    injection E6 as <- _. done.
Qed.

Lemma mount_shares (h : gmap loc obj) (l : loc)
    (fs : gmap string val) (key : string) (a : loc) (es : list (option val)) :
  key = "education" \/ key = "work_experience" ->
  h !! l = Some (Obj fs) -> fs !! key = Some (VRef a) -> h !! a = Some (Arr es) ->
  es <> [] ->
  category (mount (VRef l) h) key = Some (VRef a)
  /\ entries (mount (VRef l) h) key = Some es.
Proof.
  intros Hkey Hl Hk Ha Hne.
  assert (Hsub : h ⊆ heap (mount (VRef l) h)) by apply mount_frame.
  assert (Hcat : category (mount (VRef l) h) key = Some (VRef a)).
  { unfold mount. cbn [truthy_val].
    set (st1 := setFormData (form_of (VRef l)) {| heap := h; formData := VUndefined |}).
    assert (H1 : h ⊆ heap st1)
      by (apply setFormData_frame; [apply preserves_form_of | done]).
    apply (form_of_shares st1 l fs key a es Hkey); try done; by eapply lookup_weaken. }
  split; [exact Hcat|].
  unfold entries. rewrite Hcat. cbn [mbind option_bind]. unfold array_at.
  by rewrite (lookup_weaken _ _ _ _ Ha Hsub).
Qed.

(** X28: mounted on a response whose education (or work) list is a
    non-empty array, the form holds that very array, not a copy, and so
    shows its entries. *)
Theorem X28_mount_shares_the_lists_of_the_data (h : gmap loc obj) (l : loc)
    (fs : gmap string val) (key : string) (a : loc) (es : list (option val)) :
  key = "education" \/ key = "work_experience" ->
  h !! l = Some (Obj fs) -> fs !! key = Some (VRef a) -> h !! a = Some (Arr es) ->
  es <> [] ->
  category (mount (VRef l) h) key = Some (VRef a)
  /\ entries (mount (VRef l) h) key = Some es.
Proof. apply mount_shares. Qed.

Lemma X28_mount_shares_witness :
  ("education" = "education" \/ "education" = "work_experience")
  /\ ParsedExample.parsed_heap !! 0
     = Some (Obj (fields [("contact", VRef 1); ("education", VRef 2);
                          ("work_experience", VRef 4); ("skills", VRef 6)]))
  /\ fields [("contact", VRef 1); ("education", VRef 2);
             ("work_experience", VRef 4); ("skills", VRef 6)] !! "education"
     = Some (VRef 2)
  /\ ParsedExample.parsed_heap !! 2 = Some (Arr [Some (VRef 3)])
  /\ [Some (VRef 3)] <> []
  /\ category (mount (VRef 0) ParsedExample.parsed_heap) "education" = Some (VRef 2)
  /\ entries (mount (VRef 0) ParsedExample.parsed_heap) "education" = Some [Some (VRef 3)].
Proof.
  split; [by left|]. split; [reflexivity|]. split; [reflexivity|].
  split; [reflexivity|]. split; [discriminate|].
  apply (X28_mount_shares_the_lists_of_the_data ParsedExample.parsed_heap 0
           (fields [("contact", VRef 1); ("education", VRef 2);
                    ("work_experience", VRef 4); ("skills", VRef 6)])
           "education" 2 [Some (VRef 3)]).
  - by left.
  - reflexivity.
  - reflexivity.
  - reflexivity.
  - discriminate.
Defined.


Lemma nonempty_or_no_entries (h0 h : gmap loc obj) (v : option val) (fallback : JS val) :
  no_entries h0 v -> h0 ⊆ h ->
  nonempty_or (default VUndefined v) fallback h = fallback h.
Proof.
  intros [-> | [-> | (a & -> & Ha)]] Hsub; [done | done |].
  apply nonempty_or_empty. by eapply lookup_weaken.
Qed.

Lemma subseteq_none (h h' : gmap loc obj) (l : loc) : h ⊆ h' -> h' !! l = None -> h !! l = None.
Proof.
  intros Hsub Hn. destruct (h !! l) as [o|] eqn:E; [|done].
  by rewrite (lookup_weaken _ _ _ _ E Hsub) in Hn.
Qed.

Lemma entries_built (h8 : gmap loc obj) (fs : gmap string val) (key : string)
    (b : loc) (es : list (option val)) :
  fs !! key = Some (VRef b) -> h8 !! b = Some (Arr es) ->
  entries {| heap := <[fresh (dom h8) := Obj fs]> h8; formData := VRef (fresh (dom h8)) |} key
  = Some es.
Proof.
  intros Hk Hb. unfold entries, category, form_fields, object_at. cbn [heap formData].
  rewrite lookup_insert_eq. cbn [mbind option_bind]. rewrite Hk. cbn [mbind option_bind].
  unfold array_at. by rewrite (lookup_alloc _ _ _ _ Hb).
Qed.

Lemma form_of_blank_education (st : State) (l : loc) (fs : gmap string val) :
  heap st !! l = Some (Obj fs) -> no_entries (heap st) (fs !! "education") ->
  exists x,
    entries (setFormData (form_of (VRef l)) st) "education" = Some [Some (VRef x)]
    /\ heap st !! x = None
    /\ object_at (heap (setFormData (form_of (VRef l)) st)) (VRef x) = Some blank_education.
Proof.
  intros Hl Hno.
  destruct (form_of_spec st l fs Hl)
    as (c & e & w & s & h2 & h4 & h6 & h8 & S2 & S4 & S6 & S8 & E4 & E6 & ->).
  rewrite (nonempty_or_no_entries (heap st) h2) in E4 by done.
  set (x := fresh (dom h2)) in *.
  set (hx := <[x := Obj blank_education]> h2) in *.
  set (b := fresh (dom hx)) in *.
  injection E4 as <- <-.
  assert (S : <[b := Arr [Some (VRef x)]]> hx ⊆ h8) by (by etrans).
  assert (Hb : h8 !! b = Some (Arr [Some (VRef x)])).
  { eapply lookup_weaken; [|exact S]. apply lookup_insert_eq. }
  assert (Hx : h8 !! x = Some (Obj blank_education)).
  { eapply lookup_weaken; [|exact S]. apply lookup_alloc, lookup_insert_eq. }
  exists x. split; [|split].
  - by apply (entries_built h8 _ "education" b).
  - eapply subseteq_none; [exact S2 | apply fresh_lookup].
  - unfold object_at. cbn [heap]. by rewrite (lookup_alloc _ _ _ _ Hx).
Qed.

Lemma form_of_blank_experience (st : State) (l : loc) (fs : gmap string val) :
  heap st !! l = Some (Obj fs) -> no_entries (heap st) (fs !! "work_experience") ->
  exists x d,
    entries (setFormData (form_of (VRef l)) st) "work_experience" = Some [Some (VRef x)]
    /\ heap st !! x = None
    /\ object_at (heap (setFormData (form_of (VRef l)) st)) (VRef x)
       = Some (blank_experience (VRef d))
    /\ array_at (heap (setFormData (form_of (VRef l)) st)) (VRef d) = Some [].
Proof.
  intros Hl Hno.
  destruct (form_of_spec st l fs Hl)
    as (c & e & w & s & h2 & h4 & h6 & h8 & S2 & S4 & S6 & S8 & E4 & E6 & ->).
  assert (S04 : heap st ⊆ h4) by (by etrans).
  rewrite (nonempty_or_no_entries (heap st) h4) in E6 by done.
  set (d := fresh (dom h4)) in *.
  set (hd := <[d := Arr []]> h4) in *.
  set (x := fresh (dom hd)) in *.
  set (hx := <[x := Obj (blank_experience (VRef d))]> hd) in *.
  set (b := fresh (dom hx)) in *.
  injection E6 as <- <-.
  assert (Hb : h8 !! b = Some (Arr [Some (VRef x)])).
  { eapply lookup_weaken; [|exact S8]. apply lookup_insert_eq. }
  assert (Hx : h8 !! x = Some (Obj (blank_experience (VRef d)))).
  { eapply lookup_weaken; [|exact S8]. apply lookup_alloc, lookup_insert_eq. }
  assert (Hd : h8 !! d = Some (Arr [])).
  { eapply lookup_weaken; [|exact S8]. do 2 apply lookup_alloc. apply lookup_insert_eq. }
  exists x, d. split; [|split; [|split]].
  - by apply (entries_built h8 _ "work_experience" b).
  - eapply subseteq_none; [exact S04|]. eapply alloc_none. apply fresh_lookup.
  - unfold object_at. cbn [heap]. by rewrite (lookup_alloc _ _ _ _ Hx).
  - unfold array_at. cbn [heap]. by rewrite (lookup_alloc _ _ _ _ Hd).
Qed.

Lemma no_entries_weaken (h h' : gmap loc obj) (v : option val) :
  h ⊆ h' -> no_entries h v -> no_entries h' v.
Proof.
  intros Hsub [-> | [-> | (a & -> & Ha)]]; [by left | by right; left |].
  right; right. exists a. split; [done|]. by eapply lookup_weaken.
Qed.

Lemma mount_fills (h : gmap loc obj) (l : loc)
    (fs : gmap string val) (key : string) :
  key = "education" \/ key = "work_experience" ->
  h !! l = Some (Obj fs) -> no_entries h (fs !! key) ->
  exists x,
    entries (mount (VRef l) h) key = Some [Some (VRef x)]
    /\ h !! x = None
    /\ (key = "education" ->
        object_at (heap (mount (VRef l) h)) (VRef x) = Some blank_education)
    /\ (key = "work_experience" ->
        exists d, object_at (heap (mount (VRef l) h)) (VRef x)
                  = Some (blank_experience (VRef d))
                  /\ array_at (heap (mount (VRef l) h)) (VRef d) = Some []).
Proof.
  intros Hkey Hl Hno. unfold mount. cbn [truthy_val].
  set (st1 := setFormData (form_of (VRef l)) {| heap := h; formData := VUndefined |}).
  assert (H1 : h ⊆ heap st1)
    by (apply setFormData_frame; [apply preserves_form_of | done]).
  assert (Hl1 : heap st1 !! l = Some (Obj fs)) by (by eapply lookup_weaken).
  assert (Hno1 : no_entries (heap st1) (fs !! key)) by (by eapply no_entries_weaken).
  destruct Hkey as [-> | ->].
  - destruct (form_of_blank_education st1 l fs Hl1 Hno1) as (x & He & Hx & Ho).
    exists x. split; [exact He|]. split; [by eapply subseteq_none|].
    split; [done | discriminate].
  - destruct (form_of_blank_experience st1 l fs Hl1 Hno1) as (x & d & He & Hx & Ho & Hd).
    exists x. split; [exact He|]. split; [by eapply subseteq_none|].
    split; [discriminate | by exists d].
Qed.

(** X29: mounted on a response in which the education (or work) list is
    missing, null or empty, the form shows one new blank entry in its
    place. *)
Theorem X29_mount_fills_an_empty_list (h : gmap loc obj) (l : loc)
    (fs : gmap string val) (key : string) :
  key = "education" \/ key = "work_experience" ->
  h !! l = Some (Obj fs) -> no_entries h (fs !! key) ->
  exists x,
    entries (mount (VRef l) h) key = Some [Some (VRef x)]
    /\ h !! x = None
    /\ (key = "education" ->
        object_at (heap (mount (VRef l) h)) (VRef x) = Some blank_education)
    /\ (key = "work_experience" ->
        exists d, object_at (heap (mount (VRef l) h)) (VRef x)
                  = Some (blank_experience (VRef d))
                  /\ array_at (heap (mount (VRef l) h)) (VRef d) = Some []).
Proof. apply mount_fills. Qed.

Lemma X29_mount_fills_witness :
  ("education" = "education" \/ "education" = "work_experience")
  /\ FormExample.no_lists !! 0 = Some (Obj (fields [("contact", VRef 1); ("education", VRef 2)]))
  /\ no_entries FormExample.no_lists
       (fields [("contact", VRef 1); ("education", VRef 2)] !! "education")
  /\ exists x,
       entries (mount (VRef 0) FormExample.no_lists) "education" = Some [Some (VRef x)]
       /\ FormExample.no_lists !! x = None
       /\ ("education" = "education" ->
           object_at (heap (mount (VRef 0) FormExample.no_lists)) (VRef x)
           = Some blank_education)
       /\ ("education" = "work_experience" ->
           exists d, object_at (heap (mount (VRef 0) FormExample.no_lists)) (VRef x)
                     = Some (blank_experience (VRef d))
                     /\ array_at (heap (mount (VRef 0) FormExample.no_lists)) (VRef d)
                        = Some []).
Proof.
  assert (H : no_entries FormExample.no_lists
                (fields [("contact", VRef 1); ("education", VRef 2)] !! "education")).
  { right; right. by exists 2. }
  split; [by left|]. split; [reflexivity|]. split; [exact H|].
  apply (X29_mount_fills_an_empty_list FormExample.no_lists 0
           (fields [("contact", VRef 1); ("education", VRef 2)]) "education").
  - by left.
  - reflexivity.
  - exact H.
Defined.

(** X30: mounted on a response whose education (or work) list is absent
    or an array without holes, as a JSON array is, the form shows at least
    one row of that list. *)
Theorem X30_mounted_lists_have_a_row (h : gmap loc obj) (l : loc)
    (fs : gmap string val) (key : string) :
  key = "education" \/ key = "work_experience" ->
  h !! l = Some (Obj fs) ->
  no_entries h (fs !! key)
  \/ (exists a es, fs !! key = Some (VRef a) /\ h !! a = Some (Arr es) /\ Forall is_Some es) ->
  listed (mount (VRef l) h) key.
Proof.
  intros Hkey Hl H.
  assert (Hfill : no_entries h (fs !! key) -> listed (mount (VRef l) h) key).
  { intros Hno. destruct (mount_fills h l fs key Hkey Hl Hno) as (x & He & _).
    exists [Some (VRef x)]. split; [exact He|]. split; [done|].
    repeat constructor. by eexists. }
  destruct H as [Hno | (a & es & Hk & Ha & Hall)]; [by apply Hfill|].
  destruct es as [|e0 es0].
  - apply Hfill. right; right. by exists a.
  - exists (e0 :: es0). split; [|done].
    by apply (mount_shares h l fs key a (e0 :: es0) Hkey Hl Hk Ha).
Qed.

Lemma X30_mounted_lists_witness :
  ("work_experience" = "education" \/ "work_experience" = "work_experience")
  /\ FormExample.no_lists !! 0
     = Some (Obj (fields [("contact", VRef 1); ("education", VRef 2)]))
  /\ (no_entries FormExample.no_lists
        (fields [("contact", VRef 1); ("education", VRef 2)] !! "work_experience")
      \/ (exists a es,
            fields [("contact", VRef 1); ("education", VRef 2)] !! "work_experience"
            = Some (VRef a)
            /\ FormExample.no_lists !! a = Some (Arr es) /\ Forall is_Some es))
  /\ listed (mount (VRef 0) FormExample.no_lists) "work_experience".
Proof.
  split; [by right|]. split; [reflexivity|]. split; [by left; left|].
  apply (X30_mounted_lists_have_a_row FormExample.no_lists 0
           (fields [("contact", VRef 1); ("education", VRef 2)]) "work_experience").
  - by right.
  - reflexivity.
  - by left; left.
Defined.

End FormHeapFacts.
